(** * yotohero: token lifecycle and card synchronisation

    A shallow embedding of [lib/auth/yoto.ts] (token lifecycle),
    [lib/utils/errors.ts] (error classes), [lib/yoto/library.ts]
    (transcode upload, card lookup, card create and update, workflow)
    and [app/api/auth/callback/route.ts] (the route that exchanges the
    authorization code).

    Modelling conventions.
    - An [async] function is a computation in the monad [M]: it threads
      the chronological list of outbound effects (network requests,
      timer waits, TTS calls, cache writes) and ends either by returning
      a value or by throwing a JavaScript error.  A [try]/[catch] block
      is [try_catch]; effects performed before a throw stay in the trace.
    - Everything outside the program (the HTTP servers, the clock, the
      environment variables, [jwtDecode], [JSON.parse], the file system
      cache, the TTS module) is a field of the record [World].
    - A JSON field that may be missing, [undefined] or [null] is an
      [option]; a JavaScript number that the platform reports as whole
      seconds, bytes or milliseconds is a [Z], and [None] stands for
      [undefined]/[NaN].
    - A chapter or track object read from the platform may carry
      properties the program never names; the records keep them in a
      field of their own ([ch_others], [tr_others]) so that copying an
      object field by field differs from passing it on.
    - [Array.prototype.sort] is the stable sort where the comparator is
      consistent on the array; where it is not (a card without a valid
      [createdAt] beside cards of different dates) the order is the
      engine's, the [World] field [engineSort].
    - Console and logger calls only write to the console; they are not
      part of the model.  [readableFileSize], a floating point display
      rounding of [fileSize], is left out of the payload record. *)

From Stdlib Require Import String Ascii List ZArith Lia Bool Arith DecimalString.
From Stdlib Require Import Permutation Sorted DecimalZ DecimalPos.
Import ListNotations.
Open Scope string_scope.
Open Scope Z_scope.

(** ** JavaScript values *)

(** Truthiness of a string-valued field: missing and the empty string are falsy. *)
Definition truthy (o : option string) : bool :=
  match o with
  | Some s => negb (String.eqb s "")
  | None => false
  end.

(** [a || b] on string-valued fields. *)
Definition or_str (a b : option string) : option string :=
  if truthy a then a else b.

(** [x || 0] on numbers. *)
Definition or_zero (o : option Z) : Z :=
  match o with
  | Some z => z
  | None => 0
  end.

(** Template-literal rendering of a possibly undefined string. *)
Definition show_str (o : option string) : string :=
  match o with
  | Some s => s
  | None => "undefined"
  end.

(** [n.toString()] for an integer. *)
Definition Z_toString (z : Z) : string := NilZero.string_of_int (Z.to_int z).

Definition nat_toString (n : nat) : string := Z_toString (Z.of_nat n).

Fixpoint repeat_string (s : string) (n : nat) : string :=
  match n with
  | O => ""
  | S n' => s ++ repeat_string s n'
  end.

(** [s.padStart(len, "0")]. *)
Definition padStart0 (len : nat) (s : string) : string :=
  repeat_string "0" (len - String.length s) ++ s.

(** [s.includes(t)]. *)
Fixpoint includes (t s : string) : bool :=
  String.prefix t s ||
  match s with
  | EmptyString => false
  | String _ s' => includes t s'
  end.

Definition is_space (c : ascii) : bool :=
  let n := nat_of_ascii c in
  ((9 <=? n) && (n <=? 13))%nat || (n =? 32)%nat.

Definition is_word_char (c : ascii) : bool :=
  let n := nat_of_ascii c in
  (((48 <=? n) && (n <=? 57)) || ((65 <=? n) && (n <=? 90)) ||
   ((97 <=? n) && (n <=? 122)) || (n =? 95))%nat.

Definition upper (c : ascii) : ascii :=
  let n := nat_of_ascii c in
  if ((97 <=? n) && (n <=? 122))%nat then ascii_of_nat (n - 32) else c.

Definition lower (c : ascii) : ascii :=
  let n := nat_of_ascii c in
  if ((65 <=? n) && (n <=? 90))%nat then ascii_of_nat (n + 32) else c.

Fixpoint drop_spaces (s : string) : string :=
  match s with
  | String c s' => if is_space c then drop_spaces s' else s
  | EmptyString => EmptyString
  end.

Fixpoint string_rev_onto (s acc : string) : string :=
  match s with
  | EmptyString => acc
  | String c s' => string_rev_onto s' (String c acc)
  end.

Definition string_rev (s : string) : string := string_rev_onto s "".

(** [s.trim()] (ASCII white space). *)
Definition trim (s : string) : string :=
  string_rev (drop_spaces (string_rev (drop_spaces s))).

(** A value stored in an error's [context] record. *)
Inductive JsVal :=
| VUndefined
| VNum (z : Z)
| VStr (s : string).

Definition val_of_str (o : option string) : JsVal :=
  match o with
  | Some s => VStr s
  | None => VUndefined
  end.

(** ** lib/utils/errors.ts *)

Module Errors.

(** The class of a thrown value.  [NotAnError] is a thrown value that is
    not an instance of [Error]; [PlainError], [TypeError] and
    [SyntaxError] are the built-in classes; the others are the
    subclasses of [AppError]. *)
Inductive ErrorClass :=
| NotAnError
| PlainError
| TypeError
| SyntaxError
| ValidationError
| AuthenticationError
| AuthorizationError
| NotFoundError
| RateLimitError
| ExternalServiceError
| YotoAPIError
| ElevenLabsError
| OpenAIError
| ContentSafetyError
| ConfigurationError
| InternalServerError.

Record JSError := mkError {
  err_class : ErrorClass;
  err_message : string;
  err_context : list (string * JsVal)
}.

Definition isAppError (e : JSError) : bool :=
  match err_class e with
  | NotAnError | PlainError | TypeError | SyntaxError => false
  | _ => true
  end.

Definition isError (e : JSError) : bool :=
  match err_class e with
  | NotAnError => false
  | _ => true
  end.

(** [new Error(message)]. *)
Definition newError (message : string) : JSError :=
  mkError PlainError message [].

Definition newTypeError (message : string) : JSError :=
  mkError TypeError message [].

Definition newAuthenticationError (message : string) : JSError :=
  mkError AuthenticationError message [].

Definition newConfigurationError (message : string) : JSError :=
  mkError ConfigurationError message [].

Definition newInternalServerError (message : string) : JSError :=
  mkError InternalServerError message [].

(** [ExternalServiceError]'s constructor prefixes the service name. *)
Definition newYotoAPIError (message : string) (context : list (string * JsVal)) : JSError :=
  mkError YotoAPIError ("Yoto API" ++ ": " ++ message) context.

Definition normalizeError (error : JSError) (defaultMessage : string) : JSError :=
  if isAppError error then error
  else if isError error then newInternalServerError (err_message error)
  else newInternalServerError defaultMessage.

End Errors.

Import Errors.

(** ** Data exchanged with the remote platform *)

(** [transcodedInfo] of a finished transcode. *)
Record MediaInfo := mkMediaInfo {
  mi_duration : option Z;
  mi_fileSize : option Z;
  mi_channels : option string;
  mi_format : option string
}.

(** The [transcode] object of the transcode-status body (also the shape
    of a cache entry, interface [CachedTranscode]). *)
Record Transcoded := mkTranscoded {
  transcodedSha256 : option string;
  transcodedInfo : option MediaInfo
}.

(** A track object.  Beside the nine properties the program reads and
    writes, an object read from the platform may carry any other
    property; [tr_others] lists them, each name with the JSON text of
    its value. *)
Record Track := mkTrackObject {
  tr_key : option string;
  tr_title : option string;
  tr_trackUrl : option string;
  tr_duration : option Z;
  tr_fileSize : option Z;
  tr_channels : option string;
  tr_format : option string;
  tr_type : option string;
  tr_overlayLabel : option string;
  tr_others : list (string * string)
}.

(** The object literal [{ key, title, trackUrl, duration, fileSize,
    channels, format, type, overlayLabel }]: it has no other property. *)
Definition mkTrack (key title trackUrl : option string)
    (duration fileSize : option Z)
    (channels format type overlayLabel : option string) : Track :=
  mkTrackObject key title trackUrl duration fileSize channels format type
                overlayLabel [].

(** A chapter object; [ch_icon16x16] is [display.icon16x16] and
    [ch_others] lists every other property of an object read from the
    platform. *)
Record Chapter := mkChapterObject {
  ch_key : option string;
  ch_title : option string;
  ch_overlayLabel : option string;
  ch_tracks : option (list Track);
  ch_icon16x16 : option string;
  ch_others : list (string * string)
}.

(** The object literal [{ key, title, overlayLabel, tracks,
    display: { icon16x16 } }]: it has no other property. *)
Definition mkChapter (key title overlayLabel : option string)
    (tracks : option (list Track)) (icon16x16 : option string) : Chapter :=
  mkChapterObject key title overlayLabel tracks icon16x16 [].

(** A card as read from the platform (list entry or full detail).
    [card_createdAt] is the time value of [new Date(card.createdAt)];
    [card_chapters] is [content?.chapters]; [card_duration] and
    [card_fileSize] are [metadata?.media?.duration] and [.fileSize]. *)
Record Card := mkCard {
  card_cardId : option string;
  card_id : option string;
  card_title : option string;
  card_createdAt : option Z;
  card_chapters : option (list Chapter);
  card_duration : option Z;
  card_fileSize : option Z
}.

(** The document sent to [POST /content]. *)
Record CardPayload := mkPayload {
  payload_cardId : option string;
  payload_title : string;
  payload_chapters : list Chapter;
  payload_playbackType : option string;
  payload_resumeTimeout : option Z;
  payload_duration : option Z;
  payload_fileSize : option Z
}.

(** The [upload] object of the upload-slot body. *)
Record UploadSlot := mkUploadSlot {
  uploadUrl : option string;
  uploadId : option string
}.

(** interface [TokenResponse], fields possibly missing at run time. *)
Record TokenResponse := mkTokens {
  access_token : option string;
  refresh_token : option string;
  expires_in : option Z;
  token_type : option string
}.

(** The body of a write response: [cardId], [card?.cardId] and [id]. *)
Record WriteResult := mkWriteResult {
  wr_cardId : option string;
  wr_card_cardId : option string;
  wr_id : option string
}.

(** What [response.json()] yields, by the shape of the document. *)
Inductive Json :=
| JInvalid                                  (* json() rejects with a SyntaxError *)
| JNull                                     (* the document is null *)
| JEmptyObject                              (* an object with none of the fields below *)
| JCards (cards : list Card)                (* { cards: [...] } *)
| JCardNested (c : Card)                    (* { card: {...} } *)
| JCardFlat (c : Card)                      (* the card itself *)
| JUpload (u : UploadSlot)                  (* { upload: {...} } *)
| JTranscode (t : Transcoded)               (* { transcode: {...} } *)
| JTokens (t : TokenResponse)
| JWrite (r : WriteResult).

Record Response := mkResponse {
  status : Z;
  bodyText : string;      (* response.text() *)
  bodyJson : Json         (* response.json() *)
}.

(** [response.ok]. *)
Definition ok (r : Response) : bool := (200 <=? status r) && (status r <=? 299).

Inductive FetchOutcome :=
| NetworkError (e : JSError)     (* fetch rejects *)
| Resp (r : Response).

(** The body parameters and the [Authorization] header of a token request. *)
Record TokenRequest := mkTokenRequest {
  tk_authorization : option string;
  tk_grant_type : string;
  tk_client_id : option string;
  tk_code_verifier : option string;
  tk_code : option string;
  tk_redirect_uri : option string;
  tk_refresh_token : option string
}.

Inductive Request :=
| GetUploadUrl (token : string)
| PutAudio (url : string) (audio : list Byte.byte)
| GetTranscoded (id : option string) (token : string)
| GetContentMine (token : string)
| GetContent (cardId : option string) (token : string)
| PostContent (token : string) (payload : CardPayload)
| PostToken (req : TokenRequest).

(** interface [TTSResult]. *)
Record TTSResult := mkTTS {
  tts_success : bool;
  tts_audioBuffer : option (list Byte.byte);
  tts_error : option string
}.

(** Outbound effects, in the order they happen. *)
Inductive Event :=
| EvFetch (req : Request)
| EvSleep (ms : Z)
| EvDecode (token : string)                     (* jwtDecode(token) *)
| EvTTS (text voiceId : string)                 (* generateAudio(text, voiceId) *)
| EvCacheRead (key : string)
| EvCacheWrite (key : string) (t : Transcoded).

Definition is_fetch (e : Event) : bool :=
  match e with
  | EvFetch _ => true
  | _ => false
  end.

Definition is_sleep (e : Event) : bool :=
  match e with
  | EvSleep _ => true
  | _ => false
  end.

(** The requests of a trace, oldest first. *)
Fixpoint requests (tr : list Event) : list Request :=
  match tr with
  | [] => []
  | EvFetch r :: tr' => r :: requests tr'
  | _ :: tr' => requests tr'
  end.

(** The timer waits of a trace, oldest first. *)
Fixpoint sleeps (tr : list Event) : list Z :=
  match tr with
  | [] => []
  | EvSleep ms :: tr' => ms :: sleeps tr'
  | _ :: tr' => sleeps tr'
  end.

(** interface [JWTPayload]; a token without an [exp] claim has [None]. *)
Record JWTPayload := mkJWT { exp : option Z }.

(** What [JSON.parse(errorText)] yields for a token-endpoint error body,
    as far as the program looks: [error] and [error_description]. *)
Inductive ParsedError :=
| ParseThrows
| ParsedNull
| ParsedObject (error error_description : option string).

Inductive Outcome (A : Type) :=
| Returns (a : A)
| Throws (e : JSError).
Arguments Returns {A} a.
Arguments Throws {A} e.

(** Everything the program reads from outside itself. *)
Record World := mkWorld {
  (* the n-th fetch of a run (n counted from 0) and its request *)
  net : nat -> Request -> FetchOutcome;
  (* Date.now() *)
  now : Z;
  (* jwtDecode; None when it throws *)
  jwtDecode : string -> option JWTPayload;
  JSON_parse : string -> ParsedError;
  (* Buffer.from(s).toString('base64') *)
  base64 : string -> string;
  YOTO_CLIENT_SECRET : option string;
  YOTO_CLIENT_ID : option string;
  (* process.env.NODE_ENV === 'development' *)
  isDevelopment : bool;
  (* createHash('md5').update(s).digest('hex') *)
  md5hex : string -> string;
  (* mkdir + readFile + JSON.parse of a cache file; None when any of them throws *)
  cacheFile : string -> option Transcoded;
  (* await import('../tts/elevenlabs') *)
  importTTS : Outcome unit;
  getRandomVoiceId : option string;
  generateAudio : string -> string -> Outcome TTSResult;
  (* Array.prototype.sort with a comparator that is not consistent: the
     order is implementation-defined.  For the array given, the engine
     assigns the element at each index a place; equal places keep the
     order of the indices *)
  engineSort : list Card -> nat -> nat
}.

(** ** The effect monad *)

Definition M (A : Type) : Type := list Event -> Outcome A * list Event.

Definition ret {A} (a : A) : M A := fun tr => (Returns a, tr).

Definition throw {A} (e : JSError) : M A := fun tr => (Throws e, tr).

Definition bind {A B} (m : M A) (k : A -> M B) : M B :=
  fun tr =>
    match m tr with
    | (Returns a, tr') => k a tr'
    | (Throws e, tr') => (Throws e, tr')
    end.

(** [try { m } catch (error) { h error }]. *)
Definition try_catch {A} (m : M A) (h : JSError -> M A) : M A :=
  fun tr =>
    match m tr with
    | (Returns a, tr') => (Returns a, tr')
    | (Throws e, tr') => h e tr'
    end.

Definition emit (e : Event) : M unit := fun tr => (Returns tt, (tr ++ [e])%list).

Definition lift {A} (o : Outcome A) : M A := fun tr => (o, tr).

Declare Scope js_scope.
Delimit Scope js_scope with js.
Notation "x <- m ;; k" := (bind m (fun x => k))
  (at level 61, m at next level, right associativity) : js_scope.
Notation "m ;;; k" := (bind m (fun _ => k))
  (at level 61, right associativity) : js_scope.
Open Scope js_scope.

Section Effects.
Context (w : World).

(** [await fetch(...)]: the request is recorded, then the call
    resolves to a response or rejects. *)
Definition fetch (req : Request) : M Response :=
  fun tr =>
    match net w (length (requests tr)) req with
    | Resp r => (Returns r, (tr ++ [EvFetch req])%list)
    | NetworkError e => (Throws e, (tr ++ [EvFetch req])%list)
    end.

(** [await new Promise(resolve => setTimeout(resolve, ms))]. *)
Definition sleep (ms : Z) : M unit := emit (EvSleep ms).
End Effects.

(** Running a computation from the empty trace. *)
Definition run {A} (m : M A) : Outcome A * list Event := m [].

(** [await response.json()]. *)
Definition json (r : Response) : M Json :=
  match bodyJson r with
  | JInvalid => throw (mkError SyntaxError "Unexpected token in JSON" [])
  | j => ret j
  end.

(** ** lib/auth/yoto.ts *)

Module Auth.
Section WithWorld.
Context (w : World).

(** The object built from an error body: [JSON.parse(errorText)], or
    the [invalid_response] fallback of the inner [catch]. *)
Definition parseErrorBody (errorText : string) : ParsedError :=
  match JSON_parse w errorText with
  | ParseThrows => ParsedObject (Some "invalid_response") (Some errorText)
  | p => p
  end.

Definition exchangeCodeForTokens
    (clientId code codeVerifier redirectUri : string) : M Json :=
  (* Method 1: client id in the body *)
  let tokenParams :=
    mkTokenRequest None "authorization_code" (Some clientId)
                   (Some codeVerifier) (Some code) (Some redirectUri) None in
  response <- fetch w (PostToken tokenParams) ;;
  response <-
    (if negb (ok response) && (status response =? 401) then
       (* Method 2: client credentials in the Authorization header *)
       let clientSecret := YOTO_CLIENT_SECRET w in
       let authHeader :=
         if truthy clientSecret
         then "Basic " ++ base64 w (clientId ++ ":" ++ show_str clientSecret)
         else "Basic " ++ base64 w (clientId ++ ":") in
       let paramsWithoutClientId :=
         mkTokenRequest (Some authHeader) "authorization_code" None
                        (Some codeVerifier) (Some code) (Some redirectUri) None in
       fetch w (PostToken paramsWithoutClientId)
     else ret response) ;;
  if negb (ok response) then
    let errorText := bodyText response in
    match parseErrorBody errorText with
    | ParsedObject error error_description =>
        throw (newError
          ("Token exchange failed: "
           ++ show_str (or_str error (Some "Unknown error"))
           ++ (if truthy error_description
               then " - " ++ show_str error_description
               else "")))
    | _ => throw (newTypeError "Cannot read properties of null (reading 'error')")
    end
  else json response.

Definition refreshAccessToken (refreshToken clientId : string) : M Json :=
  response <- fetch w (PostToken
    (mkTokenRequest None "refresh_token" (Some clientId) None None None
                    (Some refreshToken))) ;;
  if negb (ok response) then
    let errorText := bodyText response in
    match parseErrorBody errorText with
    | ParsedObject error _ =>
        throw (newAuthenticationError
          ("Token refresh failed: "
           ++ show_str (or_str error (Some "Unknown error"))))
    | _ => throw (newTypeError "Cannot read properties of null (reading 'error')")
    end
  else json response.

(** Check if a token is expired or will expire soon (within 5 minutes).
    A payload without [exp] gives [NaN], and [NaN <= x] is false. *)
Definition isTokenExpired (accessToken : string) : bool :=
  match jwtDecode w accessToken with
  | Some decoded =>
      match exp decoded with
      | Some e =>
          let expiryTime := e * 1000 in
          let currentTime := now w in
          let fiveMinutesInMs := 5 * 60 * 1000 in
          expiryTime <=? currentTime + fiveMinutesInMs
      | None => false
      end
  | None => true
  end.

(** The call of [isTokenExpired] as an effect: the decoding is
    recorded in the trace. *)
Definition checkExpired (accessToken : string) : M bool :=
  emit (EvDecode accessToken) ;;;
  ret (isTokenExpired accessToken).

(** [tokenData?.field] on a possibly null or undefined [tokenData]. *)
Definition field (tokenData : option TokenResponse)
    (f : TokenResponse -> option string) : option string :=
  match tokenData with
  | Some t => f t
  | None => None
  end.

Definition ensureValidToken (tokenData : option TokenResponse) : M (option string) :=
  if negb (truthy (field tokenData access_token)) then
    throw (newAuthenticationError "No access token available")
  else
    expired <- checkExpired (show_str (field tokenData access_token)) ;;
    if negb expired then
      ret (field tokenData access_token)
    else if negb (truthy (field tokenData refresh_token)) then
      throw (newAuthenticationError "Token expired and no refresh token available")
    else
      let clientId := YOTO_CLIENT_ID w in
      if negb (truthy clientId) then
        throw (newConfigurationError "YOTO_CLIENT_ID not configured")
      else
        try_catch
          (refreshedTokens <-
             refreshAccessToken (show_str (field tokenData refresh_token))
                                (show_str clientId) ;;
           match refreshedTokens with
           | JTokens t => ret (access_token t)
           | JNull => throw (newTypeError
               "Cannot read properties of null (reading 'access_token')")
           | _ => ret None
           end)
          (fun _ => throw (newAuthenticationError
             "Token refresh failed - please re-authenticate")).

Definition calculateTokenExpiry (expiresIn : Z) : Z :=
  now w + expiresIn * 1000.

End WithWorld.
End Auth.

(** ** lib/yoto/library.ts *)

Module Library.

Definition HERO_CARD_TITLE : string := "You're The Hero!".

Definition chapterIcon : string := "yoto:#gTMbacpoeSMYqc9fNLJnxPjylraNG6jIrYEWevyzYbA".

Definition maxAttempts : nat := 60.

Record StoryMetadata := mkStoryMetadata {
  childName : string;
  adventureType : string;
  specialSkill : string;
  sm_title : option string
}.

Record YotoUploadResult := mkResult {
  success : bool;
  cardId : option string;
  error : option string;
  transcodeInfo : option Transcoded
}.

(** The result of [uploadAudioToYoto]. *)
Record AudioUploadResult := mkAudioResult {
  au_success : bool;
  au_transcodedAudio : option Transcoded;
  au_error : option string
}.

(** [str.replace(/\w\S*/g, txt => txt.charAt(0).toUpperCase() +
    txt.substr(1).toLowerCase())] on ASCII text: [inWord] says that the
    scan is inside a match. *)
Fixpoint titleCaseFrom (inWord : bool) (s : string) : string :=
  match s with
  | EmptyString => EmptyString
  | String c s' =>
      if inWord then
        if is_space c then String c (titleCaseFrom false s')
        else String (lower c) (titleCaseFrom true s')
      else
        if is_word_char c then String (upper c) (titleCaseFrom true s')
        else String c (titleCaseFrom false s')
  end.

Definition toTitleCase (str : string) : string := titleCaseFrom false str.

(** [s.replace(/-/g, ' ')]. *)
Fixpoint replaceDashes (s : string) : string :=
  match s with
  | EmptyString => EmptyString
  | String c s' =>
      String (if Ascii.eqb c "-" then " "%char else c) (replaceDashes s')
  end.

(** [chapterNumber.toString().padStart(2, '0')]. *)
Definition chapterKey (chapterNumber : nat) : string :=
  padStart0 2 (nat_toString chapterNumber).

(** [mediaInfo?.field]. *)
Definition info {A} (mediaInfo : option MediaInfo) (f : MediaInfo -> option A) : option A :=
  match mediaInfo with
  | Some i => f i
  | None => None
  end.

Definition createChapterFromStory
    (storyMetadata : StoryMetadata) (transcodedAudio : Transcoded)
    (chapterNumber : nat) : Chapter :=
  let mediaInfo := transcodedInfo transcodedAudio in
  let adventureTypeFormatted := replaceDashes (adventureType storyMetadata) in
  let storyTitle :=
    if truthy (sm_title storyMetadata) then show_str (sm_title storyMetadata)
    else childName storyMetadata ++ "'s " ++ toTitleCase adventureTypeFormatted
         ++ " Adventure" in
  let titleCaseTitle := toTitleCase storyTitle in
  mkChapter
    (Some (chapterKey chapterNumber))
    (Some titleCaseTitle)
    (Some (nat_toString chapterNumber))
    (Some [ mkTrack
              (Some "01")
              (Some titleCaseTitle)
              (Some ("yoto:#" ++ show_str (transcodedSha256 transcodedAudio)))
              (info mediaInfo mi_duration)
              (info mediaInfo mi_fileSize)
              (info mediaInfo mi_channels)
              (info mediaInfo mi_format)
              (Some "audio")
              (Some "1") ])
    (Some chapterIcon).

(** The [map] over the existing chapters in [updateHeroCard]: every
    chapter and track is rebuilt field by field. *)
Definition cleanTrack (track : Track) : Track :=
  mkTrack (tr_key track) (tr_title track) (tr_trackUrl track)
          (tr_duration track) (tr_fileSize track) (tr_channels track)
          (tr_format track) (tr_type track) (tr_overlayLabel track).

Definition cleanChapter (chapter : Chapter) : Chapter :=
  mkChapter (ch_key chapter) (ch_title chapter) (ch_overlayLabel chapter)
            (option_map (map cleanTrack) (ch_tracks chapter))
            (Some chapterIcon).

(** The comparator of the sort in [getHeroCard]:
    [new Date(b.createdAt).getTime() - new Date(a.createdAt).getTime()];
    [None] is [NaN]. *)
Definition compareCreatedAt (a b : Card) : option Z :=
  match card_createdAt b, card_createdAt a with
  | Some tb, Some ta => Some (tb - ta)
  | _, _ => None
  end.

(** The stable sort by the comparator, used where the comparator is
    consistent (see [consistentOrder]): an element moves behind a later
    one only when the comparator is positive. *)
Fixpoint insertCard (x : Card) (l : list Card) : list Card :=
  match l with
  | [] => [x]
  | y :: l' =>
      match compareCreatedAt x y with
      | Some d => if 0 <? d then y :: insertCard x l' else x :: l
      | None => x :: l
      end
  end.

Fixpoint sortCards (l : list Card) : list Card :=
  match l with
  | [] => []
  | x :: l' => insertCard x (sortCards l')
  end.

(** The times of the cards that have a valid [createdAt]. *)
Definition datedTimes (l : list Card) : list Z :=
  flat_map (fun c => match card_createdAt c with
                     | Some t => [t]
                     | None => []
                     end) l.

Definition allDated (l : list Card) : bool :=
  forallb (fun c => match card_createdAt c with
                    | Some _ => true
                    | None => false
                    end) l.

Definition sameTimes (ts : list Z) : bool :=
  match ts with
  | [] => true
  | t :: ts' => forallb (Z.eqb t) ts'
  end.

(** The comparator, with [NaN] read as [+0], is a consistent comparator
    on the array: no card is undated, or the dated cards all have the
    same time (an undated card compares equal to every card, so two
    dated cards of different times beside it break transitivity). *)
Definition consistentOrder (l : list Card) : bool :=
  allDated l || sameTimes (datedTimes l).

(** Placing the elements of an array by the places given to their
    indices, equal places keeping the order of the indices. *)
Fixpoint insertPlaced (x : nat * Card) (l : list (nat * Card))
    : list (nat * Card) :=
  match l with
  | [] => [x]
  | y :: l' =>
      if (fst y <? fst x)%nat then y :: insertPlaced x l' else x :: l
  end.

Definition arrange (place : nat -> nat) (l : list Card) : list Card :=
  map snd (fold_right insertPlaced []
             (combine (map place (seq 0 (length l))) l)).

(** A JSON object read as a card when it has none of a card's fields. *)
Definition emptyCard : Card := mkCard None None None None None None None.

(** [fullCardData.card || fullCardData]; [null] has no properties. *)
Definition unwrapCard (fullCardData : Json) : M Card :=
  match fullCardData with
  | JNull => throw (newTypeError "Cannot read properties of null (reading 'card')")
  | JCardNested c => ret c
  | JCardFlat c => ret c
  | _ => ret emptyCard
  end.

(** [if (!card.cardId && !card.id) card.cardId = cardId]. *)
Definition ensureCardId (card : Card) (id : option string) : Card :=
  if negb (truthy (card_cardId card)) && negb (truthy (card_id card)) then
    mkCard id (card_id card) (card_title card) (card_createdAt card)
           (card_chapters card) (card_duration card) (card_fileSize card)
  else card.

(** The fields of a write response the program reads. *)
Definition writeResult (result : Json) : M WriteResult :=
  match result with
  | JNull => throw (newTypeError "Cannot read properties of null (reading 'cardId')")
  | JWrite r => ret r
  | JCardNested c => ret (mkWriteResult None (card_cardId c) None)
  | JCardFlat c => ret (mkWriteResult (card_cardId c) None (card_id c))
  | _ => ret (mkWriteResult None None None)
  end.

Section WithWorld.
Context (w : World).

Definition getStoryHashCacheKey (storyText : string) : string :=
  md5hex w (trim storyText).

(** [existingCards.sort((a, b) => new Date(b.createdAt).getTime() -
    new Date(a.createdAt).getTime())]: the stable sort when the
    comparator is consistent, the engine's own order otherwise. *)
Definition sortByCreatedAt (existingCards : list Card) : list Card :=
  if consistentOrder existingCards then sortCards existingCards
  else arrange (engineSort w existingCards) existingCards.

(** Get cached Yoto transcode hash if exists (development only). *)
Definition getCachedTranscode (cacheKey : string) : M (option Transcoded) :=
  if negb (isDevelopment w) then ret None
  else
    emit (EvCacheRead cacheKey) ;;;
    ret (cacheFile w cacheKey).

(** Save Yoto transcode hash to cache (development only); a failing
    write is caught and logged. *)
Definition cacheTranscode (cacheKey : string) (transcodedAudio : Transcoded) : M unit :=
  if negb (isDevelopment w) then ret tt
  else emit (EvCacheWrite cacheKey transcodedAudio).

(** The [while (attempts < maxAttempts)] loop of step 3;
    [remaining] is [maxAttempts - attempts].  It ends with the values
    of [transcodedAudio] and [attempts]. *)
Fixpoint pollTranscode (remaining attempts : nat)
    (id : option string) (accessToken : string) : M (option Transcoded * nat) :=
  match remaining with
  | O => ret (None, attempts)
  | S remaining' =>
      transcodeResponse <- fetch w (GetTranscoded id accessToken) ;;
      found <-
        (if ok transcodeResponse then
           data <- json transcodeResponse ;;
           match data with
           | JTranscode t =>
               if truthy (transcodedSha256 t) then ret (Some t) else ret None
           | JNull => throw (newTypeError
               "Cannot read properties of null (reading 'transcode')")
           | _ => throw (newTypeError
               "Cannot read properties of undefined (reading 'transcodedSha256')")
           end
         else ret None) ;;
      match found with
      | Some t => ret (Some t, attempts)
      | None =>
          sleep 500 ;;;
          pollTranscode remaining' (S attempts) id accessToken
      end
  end.

(** Step 3 of [uploadAudioToYoto]: wait for transcoding. *)
Definition waitForTranscoding (id : option string) (accessToken : string) : M Transcoded :=
  r <- pollTranscode (maxAttempts - 0) 0 id accessToken ;;
  match r with
  | (Some transcodedAudio, _) => ret transcodedAudio
  | (None, attempts) =>
      throw (newYotoAPIError "Transcoding timed out after 30 seconds"
               [("uploadId", val_of_str id); ("attempts", VNum (Z.of_nat attempts))])
  end.

(** The [try] block of [uploadAudioToYoto]. *)
Definition uploadAudioToYoto_try (audioBuffer : list Byte.byte) (accessToken : string)
    : M AudioUploadResult :=
  (* Step 1: get upload URL *)
  uploadUrlResponse <- fetch w (GetUploadUrl accessToken) ;;
  if negb (ok uploadUrlResponse) then
    throw (newYotoAPIError
             ("Failed to get upload URL: " ++ Z_toString (status uploadUrlResponse))
             [("status", VNum (status uploadUrlResponse));
              ("responseBody", VStr (bodyText uploadUrlResponse))])
  else
    body <- json uploadUrlResponse ;;
    match body with
    | JUpload u =>
        let audioUploadUrl := uploadUrl u in
        if negb (truthy audioUploadUrl) then
          throw (newYotoAPIError "Upload URL not provided in response" [])
        else
          (* Step 2: upload the audio file *)
          uploadResponse <- fetch w (PutAudio (show_str audioUploadUrl) audioBuffer) ;;
          if negb (ok uploadResponse) then
            throw (newYotoAPIError
                     ("Audio upload failed: " ++ Z_toString (status uploadResponse)) [])
          else
            (* Step 3: wait for transcoding *)
            transcodedAudio <- waitForTranscoding (uploadId u) accessToken ;;
            ret (mkAudioResult true (Some transcodedAudio) None)
    | _ => throw (newTypeError "Cannot destructure property 'uploadUrl'")
    end.

Definition uploadAudioToYoto (audioBuffer : list Byte.byte) (accessToken : string)
    : M AudioUploadResult :=
  try_catch (uploadAudioToYoto_try audioBuffer accessToken)
    (fun error =>
       let normalizedError := normalizeError error "Audio upload to Yoto failed" in
       ret (mkAudioResult false None (Some (err_message normalizedError)))).

(** Get existing "You're The Hero!" card or return null if it doesn't exist. *)
Definition getHeroCard (accessToken : string) : M (option Card) :=
  try_catch
    (response <- fetch w (GetContentMine accessToken) ;;
     if negb (ok response) then
       throw (newYotoAPIError
                ("Failed to get user content: " ++ Z_toString (status response))
                [("status", VNum (status response));
                 ("responseBody", VStr (bodyText response))])
     else
       data <- json response ;;
       cards <- match data with
                | JNull => throw (newTypeError
                    "Cannot read properties of null (reading 'cards')")
                | JCards cs => ret cs
                | _ => ret []
                end ;;
       let existingCards :=
         filter (fun card =>
                   match card_title card with
                   | Some t => String.eqb t HERO_CARD_TITLE
                   | None => false
                   end) cards in
       match sortByCreatedAt existingCards with
       | mostRecentCard :: _ =>
           let id := or_str (card_cardId mostRecentCard) (card_id mostRecentCard) in
           (* Get full card details including chapters *)
           fullCardResponse <- fetch w (GetContent id accessToken) ;;
           if ok fullCardResponse then
             fullCardData <- json fullCardResponse ;;
             fullCard <- unwrapCard fullCardData ;;
             ret (Some (ensureCardId fullCard id))
           else
             ret (Some (ensureCardId mostRecentCard id))
       | [] => ret None
       end)
    (fun error => ret None).

(** Create new "You're The Hero!" card with first story. *)
Definition createHeroCard (storyMetadata : StoryMetadata)
    (transcodedAudio : Transcoded) (accessToken : string) : M YotoUploadResult :=
  try_catch
    (let mediaInfo := transcodedInfo transcodedAudio in
     let chapters := [createChapterFromStory storyMetadata transcodedAudio 1] in
     let content :=
       mkPayload None HERO_CARD_TITLE chapters
                 (Some "linear") (Some 2592000)
                 (info mediaInfo mi_duration)
                 (info mediaInfo mi_fileSize) in
     createResponse <- fetch w (PostContent accessToken content) ;;
     if negb (ok createResponse) then
       let errorText := bodyText createResponse in
       throw (newError ("Failed to create card: " ++ errorText))
     else
       body <- json createResponse ;;
       result <- writeResult body ;;
       ret (mkResult true
              (or_str (or_str (wr_cardId result) (wr_card_cardId result)) (wr_id result))
              None
              (Some transcodedAudio)))
    (fun error =>
       let normalizedError := normalizeError error "Failed to create Hero card" in
       ret (mkResult false None (Some (err_message normalizedError)) None)).

(** The first step of [updateHeroCard]: the full card details are
    fetched when the card passed in has no chapters. *)
Definition resolveFullCard (existingCard : Card) (accessToken : string) : M Card :=
  match card_chapters existingCard with
  | Some _ => ret existingCard
  | None =>
      let id := or_str (card_cardId existingCard) (card_id existingCard) in
      fullCardResponse <- fetch w (GetContent id accessToken) ;;
      if ok fullCardResponse then
        fullCardData <- json fullCardResponse ;;
        unwrapCard fullCardData
      else ret existingCard
  end.

(** [existingChapters]: [fullCard.content?.chapters || []]. *)
Definition chaptersOf (fullCard : Card) : list Chapter :=
  match card_chapters fullCard with
  | Some chapters => chapters
  | None => []
  end.

(** The document [updateHeroCard] sends for [fullCard]. *)
Definition updatePayload (fullCard : Card) (storyMetadata : StoryMetadata)
    (transcodedAudio : Transcoded) : CardPayload :=
  let existingChapters := chaptersOf fullCard in
  let nextChapterNumber := (length existingChapters + 1)%nat in
  (* Create the new chapter *)
  let newChapter :=
    createChapterFromStory storyMetadata transcodedAudio nextChapterNumber in
  (* Clean existing chapters to match working structure *)
  let cleanExistingChapters := map cleanChapter existingChapters in
  (* Combine ALL chapters - existing + new *)
  let allChapters := (cleanExistingChapters ++ [newChapter])%list in
  (* Calculate updated metadata based on ALL chapters *)
  let mediaInfo := transcodedInfo transcodedAudio in
  let existingDuration := or_zero (card_duration fullCard) in
  let existingFileSize := or_zero (card_fileSize fullCard) in
  let newDuration := existingDuration + or_zero (info mediaInfo mi_duration) in
  let newFileSize := existingFileSize + or_zero (info mediaInfo mi_fileSize) in
  (* [fullCard !== existingCard ? fullCard : existingCard] is [fullCard]
     on both sides *)
  let cardToUse := fullCard in
  let id := or_str (card_cardId cardToUse) (card_id cardToUse) in
  mkPayload id HERO_CARD_TITLE allChapters None None
            (Some newDuration) (Some newFileSize).

(** Update existing "You're The Hero!" card with new story chapter. *)
Definition updateHeroCard (existingCard : Card) (storyMetadata : StoryMetadata)
    (transcodedAudio : Transcoded) (accessToken : string) : M YotoUploadResult :=
  try_catch
    (fullCard <- resolveFullCard existingCard accessToken ;;
     let payload := updatePayload fullCard storyMetadata transcodedAudio in
     updateResponse <- fetch w (PostContent accessToken payload) ;;
     if negb (ok updateResponse) then
       let errorText := bodyText updateResponse in
       throw (newError ("Failed to update card: " ++ errorText))
     else
       body <- json updateResponse ;;
       result <- writeResult body ;;
       ret (mkResult true (or_str (wr_cardId result) (wr_id result)) None
                     (Some transcodedAudio)))
    (fun error =>
       ret (mkResult false None
              (Some (if isError error then err_message error else "Unknown error"))
              None)).

(** Main function: upload story audio to the "You're The Hero!" card.
    [uploadStoryToYoto_try] is the [try] block. *)
Definition uploadStoryToYoto_try (storyText : string)
    (storyMetadata : StoryMetadata) (accessToken : string) : M YotoUploadResult :=
  (* Step 1: check for cached transcode hash (development only) *)
  let cacheKey := getStoryHashCacheKey storyText in
  cached <- getCachedTranscode cacheKey ;;
  let step2 (transcodedAudio : Transcoded) : M YotoUploadResult :=
    (* Step 2: check for existing card *)
    existingCard <- getHeroCard accessToken ;;
    (* Step 3: create new card or update existing one *)
    match existingCard with
    | Some card => updateHeroCard card storyMetadata transcodedAudio accessToken
    | None => createHeroCard storyMetadata transcodedAudio accessToken
    end in
  match cached with
  | Some transcodedAudio => step2 transcodedAudio
  | None =>
      (* Cache miss: generate audio and upload/transcode *)
      lift (importTTS w) ;;;
      let voiceId := getRandomVoiceId w in
      if negb (truthy voiceId) then
        ret (mkResult false None (Some "No voices configured for audio generation") None)
      else
        emit (EvTTS storyText (show_str voiceId)) ;;;
        audioResult <- lift (generateAudio w storyText (show_str voiceId)) ;;
        match tts_success audioResult, tts_audioBuffer audioResult with
        | true, Some audioBuffer =>
            uploadResult <- uploadAudioToYoto audioBuffer accessToken ;;
            if negb (au_success uploadResult) then
              ret (mkResult false None (au_error uploadResult) None)
            else
              match au_transcodedAudio uploadResult with
              | Some transcodedAudio =>
                  cacheTranscode cacheKey transcodedAudio ;;;
                  step2 transcodedAudio
              | None =>
                  (* not reached: a successful upload result carries
                     [transcodedAudio] *)
                  throw (newTypeError
                    "Cannot read properties of undefined (reading 'transcodedInfo')")
              end
        | _, _ =>
            ret (mkResult false None
                   (or_str (tts_error audioResult) (Some "Audio generation failed"))
                   None)
        end
  end.

Definition uploadStoryToYoto (storyText : string)
    (storyMetadata : StoryMetadata) (accessToken : string) : M YotoUploadResult :=
  try_catch (uploadStoryToYoto_try storyText storyMetadata accessToken)
    (fun error =>
       let normalizedError := normalizeError error "uploadStoryToYoto failed" in
       ret (mkResult false None (Some (err_message normalizedError)) None)).

End WithWorld.
End Library.

(** ** app/api/auth/callback/route.ts *)

Module Callback.

(** The fields of the request body the route reads. *)
Record CallbackBody := mkBody {
  code : option string;
  codeVerifier : option string;
  redirectUri : option string
}.

(** [NextResponse.json(...)]: the status, the [error] field of an error
    document, or the tokens of a success. *)
Record RouteResponse := mkRouteResponse {
  rr_status : Z;
  rr_error : option string;
  rr_tokens : option Json
}.

Section WithWorld.
Context (w : World).
(* process.env.NEXT_PUBLIC_YOTO_CLIENT_ID *)
Context (NEXT_PUBLIC_YOTO_CLIENT_ID : option string).

(** [POST(request)]; [requestBody] is what [await request.json()]
    does: it rejects, or yields [null] or an object. *)
Definition POST (requestBody : Outcome (option CallbackBody)) : M RouteResponse :=
  try_catch
    (parsed <- lift requestBody ;;
     match parsed with
     | None => throw (newTypeError "Cannot read properties of null (reading 'code')")
     | Some body =>
         if negb (truthy (code body)) then
           ret (mkRouteResponse 400 (Some "Authorization code is required") None)
         else if negb (truthy (codeVerifier body)) then
           ret (mkRouteResponse 400 (Some "PKCE code verifier is required") None)
         else
           let clientId := NEXT_PUBLIC_YOTO_CLIENT_ID in
           if negb (truthy clientId) then
             ret (mkRouteResponse 500 (Some "YOTO_CLIENT_ID is not configured") None)
           else
             (* Exchange authorization code for tokens *)
             tokens <- Auth.exchangeCodeForTokens w
                         (show_str clientId)
                         (show_str (code body))
                         (show_str (codeVerifier body))
                         (show_str (redirectUri body)) ;;
             ret (mkRouteResponse 200 None (Some tokens))
     end)
    (fun error =>
       ret (mkRouteResponse 500
              (Some (if isError error then err_message error
                     else "Token exchange failed"))
              None)).

End WithWorld.
End Callback.

(** ** Vocabulary of the statements *)

(** Sum of the track durations of a chapter list, a missing duration
    counting for nothing. *)
Definition trackDurations (chapter : Chapter) : Z :=
  match ch_tracks chapter with
  | Some tracks => fold_right (fun t acc => or_zero (tr_duration t) + acc) 0 tracks
  | None => 0
  end.

Definition trackFileSizes (chapter : Chapter) : Z :=
  match ch_tracks chapter with
  | Some tracks => fold_right (fun t acc => or_zero (tr_fileSize t) + acc) 0 tracks
  | None => 0
  end.

Definition totalDuration (chapters : list Chapter) : Z :=
  fold_right (fun c acc => trackDurations c + acc) 0 chapters.

Definition totalFileSize (chapters : list Chapter) : Z :=
  fold_right (fun c acc => trackFileSizes c + acc) 0 chapters.

(** The keys 01, 02, ..., n. *)
Definition contiguousKeys (n : nat) : list (option string) :=
  map (fun i => Some (Library.chapterKey i)) (seq 1 n).

(** A poll answer that carries no hash and raises nothing: a non-2xx
    response, or a 2xx response whose [transcode] has no hash yet. *)
Definition pollPending (o : FetchOutcome) : bool :=
  match o with
  | Resp r =>
      if ok r then
        match bodyJson r with
        | JTranscode t => negb (truthy (transcodedSha256 t))
        | _ => false
        end
      else true
  | NetworkError _ => false
  end.

(** A poll answer that is successful and carries a non-empty hash. *)
Definition pollReady (o : FetchOutcome) : option Transcoded :=
  match o with
  | Resp r =>
      if ok r then
        match bodyJson r with
        | JTranscode t => if truthy (transcodedSha256 t) then Some t else None
        | _ => None
        end
      else None
  | NetworkError _ => None
  end.

(** [k] rounds of the poll loop that found nothing: a request, then a
    wait of 500 ms. *)
Fixpoint pendingRounds (req : Request) (k : nat) : list Event :=
  match k with
  | O => []
  | S k' => EvFetch req :: EvSleep 500 :: pendingRounds req k'
  end.

(** A content-list request that fails: the fetch rejects, the status is
    not 2xx, or the body is not JSON. *)
Definition listFails (o : FetchOutcome) : bool :=
  match o with
  | NetworkError _ => true
  | Resp r =>
      negb (ok r) ||
      match bodyJson r with
      | JInvalid => true
      | _ => false
      end
  end.

(** The hero cards of a list body, in the order [getHeroCard] sorts
    them into. *)
Definition heroCards (w : World) (cards : list Card) : list Card :=
  Library.sortByCreatedAt w
    (filter (fun card =>
               match card_title card with
               | Some t => String.eqb t Library.HERO_CARD_TITLE
               | None => false
               end) cards).

(** The two shapes of the workflow result. *)
Definition uniformResult (res : Library.YotoUploadResult) : Prop :=
  (Library.success res = true /\ Library.error res = None /\
   exists t, Library.transcodeInfo res = Some t) \/
  (Library.success res = false /\ Library.cardId res = None /\
   Library.transcodeInfo res = None /\ exists msg, Library.error res = Some msg).

(** ** Sample worlds *)

Definition response (st : Z) (text : string) (body : Json) : FetchOutcome :=
  Resp (mkResponse st text body).

(** A world whose network answers by [answers] and whose token decoder
    is [decode]; the clock stands at [t]. *)
Definition sampleWorld (answers : nat -> Request -> FetchOutcome) (t : Z)
    (decode : string -> option JWTPayload) (parse : string -> ParsedError) : World :=
  mkWorld answers t decode parse (fun s => s) None (Some "client-id") false
          (fun s => s) (fun _ => None) (Returns tt) (Some "voice")
          (fun _ _ => Returns (mkTTS true (Some []) None))
          (fun _ i => i).

(** Tokens "fresh", "stale" and "edge" expire at 2000 s, 1000 s and
    1300 s; the clock stands at 1000 s; any other token does not decode. *)
Definition clockWorld : World :=
  sampleWorld (fun _ _ => response 401 "" JInvalid) 1000000
    (fun tok =>
       if String.eqb tok "fresh" then Some (mkJWT (Some 2000))
       else if String.eqb tok "stale" then Some (mkJWT (Some 1000))
       else if String.eqb tok "edge" then Some (mkJWT (Some 1300))
       else None)
    (fun _ => ParseThrows).

(** The token endpoint rejects both credential presentations with 401. *)
Definition rejectingWorld : World :=
  sampleWorld
    (fun _ _ => response 401 "{...}" JInvalid) 0 (fun _ => None)
    (fun _ => ParsedObject (Some "invalid_client") (Some "Invalid client")).

Definition sampleTranscode : Transcoded :=
  mkTranscoded (Some "sha-new")
    (Some (mkMediaInfo (Some 60) (Some 600) (Some "stereo") (Some "mp3"))).

(** The transcoder reports a hash on the third poll. *)
Definition transcodingWorld : World :=
  sampleWorld
    (fun n _ =>
       if (n <? 2)%nat then response 200 "" (JTranscode (mkTranscoded None None))
       else response 200 "" (JTranscode sampleTranscode))
    0 (fun _ => None) (fun _ => ParseThrows).

(** The transcoder never reports a hash. *)
Definition stuckWorld : World :=
  sampleWorld (fun _ _ => response 200 "" (JTranscode (mkTranscoded None None)))
    0 (fun _ => None) (fun _ => ParseThrows).

Definition heroSummary : Card :=
  mkCard (Some "card-1") None (Some "You're The Hero!") (Some 1704067200000)
         None None None.

(** The content list holds one hero card; its detail request is
    answered with status 500. *)
Definition detailFailsWorld : World :=
  sampleWorld
    (fun _ req =>
       match req with
       | GetContentMine _ => response 200 "" (JCards [heroSummary])
       | _ => response 500 "Internal Server Error" JInvalid
       end)
    0 (fun _ => None) (fun _ => ParseThrows).

Definition sampleStory : Library.StoryMetadata :=
  Library.mkStoryMetadata "Emma" "space-adventure" "flying" None.

Definition storedTrack : Track :=
  mkTrack (Some "01") (Some "First Story") (Some "yoto:#sha-old")
          (Some 100) (Some 1000) (Some "stereo") (Some "mp3")
          (Some "audio") (Some "1").

(** A remote card with one chapter of 100 s and 1000 bytes whose stored
    aggregate says 30 s and 300 bytes. *)
Definition staleCard : Card :=
  mkCard (Some "card-1") None (Some "You're The Hero!") (Some 1704067200000)
         (Some [mkChapter (Some "01") (Some "First Story") (Some "1")
                          (Some [storedTrack]) None])
         (Some 30) (Some 300).

(** A remote card whose only chapter has the key 05. *)
Definition gapCard : Card :=
  mkCard (Some "card-1") None (Some "You're The Hero!") (Some 1704067200000)
         (Some [mkChapter (Some "05") (Some "First Story") (Some "5")
                          (Some [storedTrack]) None])
         (Some 100) (Some 1000).

(** The platform accepts every card write. *)
Definition acceptingWorld : World :=
  sampleWorld
    (fun _ req =>
       match req with
       | PostContent _ _ =>
           response 200 "" (JWrite (mkWriteResult (Some "card-1") None None))
       | _ => response 404 "Not Found" JInvalid
       end)
    0 (fun _ => None) (fun _ => ParseThrows).

(** The platform rejects every card write with status 500. *)
Definition refusingWorld : World :=
  sampleWorld
    (fun _ req =>
       match req with
       | PostContent _ _ => response 500 "Internal Server Error" JInvalid
       | _ => response 404 "Not Found" JInvalid
       end)
    0 (fun _ => None) (fun _ => ParseThrows).

(** An upload slot is granted and the audio is accepted, but the
    transcoder never reports a hash. *)
Definition uploadStuckWorld : World :=
  sampleWorld
    (fun _ req =>
       match req with
       | GetUploadUrl _ =>
           response 200 ""
             (JUpload (mkUploadSlot (Some "https://upload/slot") (Some "upload-1")))
       | PutAudio _ _ => response 200 "" JEmptyObject
       | _ => response 200 "" (JTranscode (mkTranscoded None None))
       end)
    0 (fun _ => None) (fun _ => ParseThrows).

(** ** Vocabulary of the further statements *)

(** [m] only adds events to the trace, every added event satisfies [P]
    and at most [n] of them are requests. *)
Definition emits {A} (P : Event -> bool) (n : nat) (m : M A) : Prop :=
  forall tr, exists added,
    snd (m tr) = (tr ++ added)%list /\
    Forall (fun e => P e = true) added /\
    (length (requests added) <= n)%nat.

Definition anyEvent (e : Event) : bool := true.

Definition isTokenRequest (e : Event) : bool :=
  match e with
  | EvFetch (PostToken _) => true
  | _ => false
  end.

(** The traffic of the transcode uploader: slot request, binary upload,
    status polls and the 500 ms waits between them. *)
Definition isUploadTraffic (e : Event) : bool :=
  match e with
  | EvFetch (GetUploadUrl _) => true
  | EvFetch (PutAudio _ _) => true
  | EvFetch (GetTranscoded _ _) => true
  | EvSleep ms => ms =? 500
  | _ => false
  end.

(** The two reads of the content API. *)
Definition isContentRead (e : Event) : bool :=
  match e with
  | EvFetch (GetContentMine _) => true
  | EvFetch (GetContent _ _) => true
  | _ => false
  end.

Definition isCacheEvent (e : Event) : bool :=
  match e with
  | EvCacheRead _ => true
  | EvCacheWrite _ _ => true
  | _ => false
  end.

Definition isTTSCall (e : Event) : bool :=
  match e with
  | EvTTS _ _ => true
  | _ => false
  end.

(** The events of a card synchronisation: content reads and writes. *)
Definition isContentTraffic (e : Event) : bool :=
  match e with
  | EvFetch (GetContentMine _) => true
  | EvFetch (GetContent _ _) => true
  | EvFetch (PostContent _ _) => true
  | _ => false
  end.

(** The card writes of a trace, oldest first. *)
Fixpoint writes (tr : list Event) : list CardPayload :=
  match tr with
  | [] => []
  | EvFetch (PostContent _ p) :: tr' => p :: writes tr'
  | _ :: tr' => writes tr'
  end.

(** The body-credential request and the Basic-auth request of the
    authorization-code exchange, and the refresh request. *)
Definition bodyCredentialRequest (clientId code codeVerifier redirectUri : string)
    : Request :=
  PostToken (mkTokenRequest None "authorization_code" (Some clientId)
               (Some codeVerifier) (Some code) (Some redirectUri) None).

Definition basicAuthHeader (w : World) (clientId : string) : string :=
  if truthy (YOTO_CLIENT_SECRET w)
  then "Basic " ++ base64 w (clientId ++ ":" ++ show_str (YOTO_CLIENT_SECRET w))
  else "Basic " ++ base64 w (clientId ++ ":").

Definition basicAuthRequest (w : World)
    (clientId code codeVerifier redirectUri : string) : Request :=
  PostToken (mkTokenRequest (Some (basicAuthHeader w clientId))
               "authorization_code" None
               (Some codeVerifier) (Some code) (Some redirectUri) None).

Definition refreshRequest (refreshToken clientId : string) : Request :=
  PostToken (mkTokenRequest None "refresh_token" (Some clientId) None None None
               (Some refreshToken)).

(** The created-at time of a card that has one. *)
Definition createdAtOr (d : Z) (c : Card) : Z :=
  match card_createdAt c with
  | Some t => t
  | None => d
  end.

Definition hasCreatedAt (c : Card) : bool :=
  match card_createdAt c with
  | Some _ => true
  | None => false
  end.

Definition hasId (c : Card) : bool :=
  truthy (card_cardId c) || truthy (card_id c).

(** ** Further sample worlds *)

(** The token endpoint answers 400 to everything. *)
Definition badRequestWorld : World :=
  sampleWorld (fun _ _ => response 400 "not json" JInvalid) 0
    (fun _ => None) (fun _ => ParseThrows).

Definition freshTokens : TokenResponse :=
  mkTokens (Some "new-access") (Some "new-refresh") (Some 3600) (Some "Bearer").

(** The token endpoint answers 401 to the first request and 200 with
    tokens to the second. *)
Definition secondChanceWorld : World :=
  sampleWorld
    (fun n _ =>
       if (n =? 0)%nat then response 401 "" JInvalid
       else response 200 "" (JTokens freshTokens))
    0 (fun _ => None) (fun _ => ParseThrows).

(** The clock of [clockWorld]; the token endpoint grants every refresh. *)
Definition refreshingWorld : World :=
  sampleWorld (fun _ _ => response 200 "" (JTokens freshTokens)) 1000000
    (jwtDecode clockWorld) (fun _ => ParseThrows).

(** As [refreshingWorld], without [YOTO_CLIENT_ID]. *)
Definition unconfiguredWorld : World :=
  mkWorld (net refreshingWorld) 1000000 (jwtDecode clockWorld)
          (fun _ => ParseThrows) (fun s => s) None None false
          (fun s => s) (fun _ => None) (Returns tt) (Some "voice")
          (fun _ _ => Returns (mkTTS true (Some []) None))
          (fun _ i => i).

(** The token "open" decodes to a payload without [exp]. *)
Definition noExpWorld : World :=
  sampleWorld (fun _ _ => response 401 "" JInvalid) 1000000
    (fun tok => if String.eqb tok "open" then Some (mkJWT None) else None)
    (fun _ => ParseThrows).

(** [clockWorld] twenty minutes later. *)
Definition laterWorld : World :=
  sampleWorld (fun _ _ => response 401 "" JInvalid) 2200000
    (jwtDecode clockWorld) (fun _ => ParseThrows).

(** A hero card of the content list, created at time [t]. *)
Definition datedCard (id : string) (t : Z) : Card :=
  mkCard (Some id) None (Some "You're The Hero!") (Some t) None None None.

(** The content list holds a card with another title only. *)
Definition otherCardWorld : World :=
  sampleWorld
    (fun _ req =>
       match req with
       | GetContentMine _ =>
           response 200 ""
             (JCards [mkCard (Some "card-9") None (Some "Bedtime") (Some 1)
                             None None None])
       | _ => response 404 "Not Found" JInvalid
       end)
    0 (fun _ => None) (fun _ => ParseThrows).

(** The detail of [heroSummary]: no id of its own, one chapter. *)
Definition heroDetail : Card :=
  mkCard None None (Some "You're The Hero!") (Some 1704067200000)
         (Some [mkChapter (Some "01") (Some "First Story") (Some "1")
                          (Some [storedTrack]) None])
         (Some 100) (Some 1000).

(** The content list holds one hero card and its detail is served,
    nested under [card]. *)
Definition detailWorld : World :=
  sampleWorld
    (fun _ req =>
       match req with
       | GetContentMine _ => response 200 "" (JCards [heroSummary])
       | GetContent _ _ => response 200 "" (JCardNested heroDetail)
       | PostContent _ _ =>
           response 200 "" (JWrite (mkWriteResult (Some "card-1") None None))
       | _ => response 404 "Not Found" JInvalid
       end)
    0 (fun _ => None) (fun _ => ParseThrows).

(** The upload slot comes without an upload URL. *)
Definition noSlotWorld : World :=
  sampleWorld
    (fun _ _ => response 200 "" (JUpload (mkUploadSlot None (Some "upload-1"))))
    0 (fun _ => None) (fun _ => ParseThrows).

(** The upload slot is granted and the binary upload is refused. *)
Definition putRefusedWorld : World :=
  sampleWorld
    (fun _ req =>
       match req with
       | GetUploadUrl _ =>
           response 200 ""
             (JUpload (mkUploadSlot (Some "https://upload/slot") (Some "upload-1")))
       | _ => response 403 "Forbidden" JInvalid
       end)
    0 (fun _ => None) (fun _ => ParseThrows).

(** The nine properties of a track that the program reads. *)
Definition trackFields (t : Track) :=
  (tr_key t, tr_title t, tr_trackUrl t, tr_duration t, tr_fileSize t,
   tr_channels t, tr_format t, tr_type t, tr_overlayLabel t).

(** Key, title and overlay label of a chapter and the fields of its
    tracks, in their order. *)
Definition chapterFields (c : Chapter) :=
  (ch_key c, ch_title c, ch_overlayLabel c,
   option_map (map trackFields) (ch_tracks c)).

(** The chapter and its tracks have no property beside the ones the
    program reads and writes. *)
Definition noOtherProperties (c : Chapter) : bool :=
  match ch_others c with
  | [] =>
      match ch_tracks c with
      | Some tracks =>
          forallb (fun t => match tr_others t with
                            | [] => true
                            | _ :: _ => false
                            end) tracks
      | None => true
      end
  | _ :: _ => false
  end.

(** A card as the platform serves it: its chapter and its track carry
    properties of the platform's own. *)
Definition remoteTrack : Track :=
  mkTrackObject (Some "01") (Some "First Story") (Some "yoto:#sha-old")
                (Some 100) (Some 1000) (Some "stereo") (Some "mp3")
                (Some "audio") (Some "1")
                [("ambient", "null"); ("uid", "7")].

Definition remoteCard : Card :=
  mkCard (Some "card-1") None (Some "You're The Hero!") (Some 1704067200000)
         (Some [mkChapterObject (Some "01") (Some "First Story") (Some "1")
                                (Some [remoteTrack]) (Some "yoto:#old-icon")
                                [("duration", "100"); ("fileSize", "1000")]])
         (Some 100) (Some 1000).

(** A list entry of the hero card without chapter bodies whose detail
    cannot be fetched: every content read but the list is refused. *)
Definition summaryOnlyWorld : World :=
  sampleWorld
    (fun _ req =>
       match req with
       | GetContentMine _ => response 200 "" (JCards [heroSummary])
       | PostContent _ _ =>
           response 200 "" (JWrite (mkWriteResult (Some "card-1") None None))
       | _ => response 503 "Service Unavailable" JInvalid
       end)
    0 (fun _ => None) (fun _ => ParseThrows).

(** A card whose stored aggregate equals the sum of its tracks. *)
Definition consistentCard : Card :=
  mkCard (Some "card-1") None (Some "You're The Hero!") (Some 1704067200000)
         (Some [mkChapter (Some "01") (Some "First Story") (Some "1")
                          (Some [storedTrack]) None])
         (Some 100) (Some 1000).

Definition titledStory : Library.StoryMetadata :=
  Library.mkStoryMetadata "Emma" "space-adventure" "flying" (Some "my own title").

(** The document [createHeroCard] sends ([content] in the source). *)
Definition createPayload (storyMetadata : Library.StoryMetadata)
    (transcodedAudio : Transcoded) : CardPayload :=
  mkPayload None Library.HERO_CARD_TITLE
    [Library.createChapterFromStory storyMetadata transcodedAudio 1]
    (Some "linear") (Some 2592000)
    (Library.info (transcodedInfo transcodedAudio) mi_duration)
    (Library.info (transcodedInfo transcodedAudio) mi_fileSize).

(** The events a story submission may produce: transcode traffic,
    content traffic, the TTS call and, in development only, cache
    reads and writes. *)
Definition isWorkflowEvent (development : bool) (e : Event) : bool :=
  isUploadTraffic e || isContentTraffic e || isTTSCall e ||
  (development && isCacheEvent e).

(** No cache entry is found for the story text: the cache is off
    (outside development) or holds nothing under the text's key. *)
Definition cacheMiss (w : World) (storyText : string) : Prop :=
  isDevelopment w = false \/
  cacheFile w (Library.getStoryHashCacheKey w storyText) = None.

(** The trace after the cache lookup of a story text. *)
Definition afterCacheLookup (w : World) (storyText : string)
    (tr : list Event) : list Event :=
  if isDevelopment w
  then (tr ++ [EvCacheRead (Library.getStoryHashCacheKey w storyText)])%list
  else tr.

(** A production world with the given network, voice and TTS answer. *)
Definition ttsWorld (answers : nat -> Request -> FetchOutcome)
    (voice : option string) (audio : Outcome TTSResult) : World :=
  mkWorld answers 0 (fun _ => None) (fun _ => ParseThrows) (fun s => s)
          None (Some "client-id") false (fun s => s) (fun _ => None)
          (Returns tt) voice (fun _ _ => audio) (fun _ i => i).

Definition noVoiceWorld : World :=
  ttsWorld (net acceptingWorld) None (Returns (mkTTS true (Some []) None)).

Definition ttsDownWorld : World :=
  ttsWorld (net acceptingWorld) (Some "voice")
    (Returns (mkTTS false None
                (Some "External service temporarily unavailable. Please try again."))).

(** TTS works; the upload slot request is refused. *)
Definition uploadDownWorld : World :=
  ttsWorld (fun _ _ => response 500 "down" JInvalid) (Some "voice")
    (Returns (mkTTS true (Some []) None)).

(** A development world whose cache holds [sampleTranscode] for every
    key and whose content list is empty. *)
Definition cachedWorld : World :=
  mkWorld
    (fun _ req =>
       match req with
       | GetContentMine _ => response 200 "" (JCards [])
       | PostContent _ _ =>
           response 200 "" (JWrite (mkWriteResult (Some "card-1") None None))
       | _ => response 404 "Not Found" JInvalid
       end)
    0 (fun _ => None) (fun _ => ParseThrows) (fun s => s)
    None (Some "client-id") true (fun s => s) (fun _ => Some sampleTranscode)
    (Returns tt) (Some "voice")
    (fun _ _ => Returns (mkTTS true (Some []) None))
    (fun _ i => i).

(** Reading a decimal chapter key back as a number. *)
Definition parseKey (key : string) : option Z :=
  option_map Z.of_int (NilZero.int_of_string key).

Definition sampleBody : Callback.CallbackBody :=
  Callback.mkBody (Some "code") (Some "verifier") (Some "https://app/callback").

(** Four hero cards, the third without a valid [createdAt]: on this
    array the comparator is not consistent. *)
Definition undatedCard : Card :=
  mkCard (Some "undated") None (Some "You're The Hero!") None None None None.

Definition mixedCards : list Card :=
  [datedCard "january" 1704067200000; datedCard "march" 1709251200000;
   undatedCard; datedCard "june" 1717200000000].

(** The content list holds [mixedCards] and every detail request is
    answered with status 500.  The engine gives the element at index [i]
    of an array it cannot sort consistently the place [places i]. *)
Definition mixedWorld (places : nat -> nat) : World :=
  mkWorld
    (fun _ req =>
       match req with
       | GetContentMine _ => response 200 "" (JCards mixedCards)
       | _ => response 500 "Internal Server Error" JInvalid
       end)
    0 (fun _ => None) (fun _ => ParseThrows) (fun s => s)
    None (Some "client-id") false (fun s => s) (fun _ => None)
    (Returns tt) (Some "voice")
    (fun _ _ => Returns (mkTTS true (Some []) None))
    (fun _ => places).

(** The places an engine gives [mixedCards] when it reverses the leading
    descending run (january, march) and inserts the other elements by
    binary search, as V8 sorts a short array: june, march, january,
    undated. *)
Definition runThenInsert (i : nat) : nat :=
  match i with
  | 0 => 2
  | 1 => 1
  | 2 => 3
  | _ => 0
  end%nat.

(** The detail of the hero card is served and every card write is
    refused. *)
Definition detailThenRefusedWorld : World :=
  sampleWorld
    (fun _ req =>
       match req with
       | GetContent _ _ => response 200 "" (JCardNested heroDetail)
       | PostContent _ _ => response 500 "Internal Server Error" JInvalid
       | _ => response 404 "Not Found" JInvalid
       end)
    0 (fun _ => None) (fun _ => ParseThrows).

(** The comparator ranks [a] and [b] as equal: it returns zero, or
    [NaN], which the sort reads as zero. *)
Definition comparesEqual (a b : Card) : bool :=
  match Library.compareCreatedAt a b with
  | Some d => d =? 0
  | None => true
  end.

(** * Theorems *)

#[local] Arguments String.append : simpl never.
Open Scope list_scope.

(** ** Monad and trace lemmas *)

Lemma requests_app (a b : list Event) :
  requests (a ++ b) = (requests a ++ requests b)%list.
Proof.
  induction a as [|e a IH]; simpl; [reflexivity|].
  destruct e; simpl; rewrite IH; reflexivity.
Qed.

Lemma sleeps_app (a b : list Event) :
  sleeps (a ++ b) = (sleeps a ++ sleeps b)%list.
Proof.
  induction a as [|e a IH]; simpl; [reflexivity|].
  destruct e; simpl; rewrite IH; reflexivity.
Qed.

Lemma truthy_Some (s : string) : s <> "" -> truthy (Some s) = true.
Proof.
  intros H. unfold truthy. destruct (String.eqb_spec s ""); [contradiction|reflexivity].
Qed.

Lemma truthy_inv (o : option string) :
  truthy o = true -> exists s, o = Some s /\ s <> "".
Proof.
  destruct o as [s|]; simpl; [|discriminate].
  destruct (String.eqb_spec s ""); simpl; [discriminate|].
  intros _. exists s. split; [reflexivity|assumption].
Qed.

(** ** Token lifecycle *)

(** C7. [isTokenExpired] answers true when now + 5 min >= expiry, false
    when now + 5 min < expiry (the expiry being the decoded [exp] claim,
    in milliseconds), and true when the token cannot be decoded. *)
Theorem isTokenExpired_margin (w : World) (accessToken : string) :
  (forall e, jwtDecode w accessToken = Some (mkJWT (Some e)) ->
             now w + 5 * 60 * 1000 >= e * 1000 ->
             Auth.isTokenExpired w accessToken = true) /\
  (forall e, jwtDecode w accessToken = Some (mkJWT (Some e)) ->
             now w + 5 * 60 * 1000 < e * 1000 ->
             Auth.isTokenExpired w accessToken = false) /\
  (jwtDecode w accessToken = None ->
   Auth.isTokenExpired w accessToken = true).
Proof.
  unfold Auth.isTokenExpired.
  repeat split.
  - intros e Hd Hm. rewrite Hd. simpl. apply Z.leb_le. lia.
  - intros e Hd Hm. rewrite Hd. simpl. apply Z.leb_gt. lia.
  - intros Hd. rewrite Hd. reflexivity.
Qed.

Lemma isTokenExpired_margin_witness :
  Auth.isTokenExpired clockWorld "stale" = true /\
  Auth.isTokenExpired clockWorld "edge" = true /\
  Auth.isTokenExpired clockWorld "fresh" = false /\
  Auth.isTokenExpired clockWorld "garbage" = true.
Proof.
  split; [|split; [|split]].
  - apply (proj1 (isTokenExpired_margin clockWorld "stale") 1000);
      [reflexivity | simpl; lia].
  - apply (proj1 (isTokenExpired_margin clockWorld "edge") 1300);
      [reflexivity | simpl; lia].
  - apply (proj1 (proj2 (isTokenExpired_margin clockWorld "fresh")) 2000);
      [reflexivity | simpl; lia].
  - apply (proj2 (proj2 (isTokenExpired_margin clockWorld "garbage"))).
    reflexivity.
Defined.

(** C10. A token-data object without an access token (null or undefined
    object, missing or empty field) makes [ensureValidToken] throw an
    [AuthenticationError] at once: the trace is unchanged, so no token
    was decoded and no request was sent. *)
Theorem ensureValidToken_no_access_token
    (w : World) (tokenData : option TokenResponse) (tr : list Event) :
  truthy (Auth.field tokenData access_token) = false ->
  Auth.ensureValidToken w tokenData tr =
    (Throws (newAuthenticationError "No access token available"), tr).
Proof.
  intros H. unfold Auth.ensureValidToken. rewrite H. reflexivity.
Qed.

Lemma ensureValidToken_no_access_token_witness :
  Auth.ensureValidToken clockWorld None [] =
    (Throws (newAuthenticationError "No access token available"), []) /\
  Auth.ensureValidToken clockWorld
      (Some (mkTokens (Some "") (Some "refresh") None None)) [] =
    (Throws (newAuthenticationError "No access token available"), []).
Proof.
  split.
  - apply (ensureValidToken_no_access_token clockWorld None []). reflexivity.
  - apply (ensureValidToken_no_access_token clockWorld
             (Some (mkTokens (Some "") (Some "refresh") None None)) []).
    reflexivity.
Defined.

(** C8. With an access token that is not expired, [ensureValidToken]
    returns that token and the only effect is the decoding of the token:
    no request is sent.  With an expired access token and no refresh
    token it throws an [AuthenticationError], again without a request. *)
Theorem ensureValidToken_valid_or_unrefreshable
    (w : World) (tokenData : TokenResponse) (accessToken : string)
    (tr : list Event) :
  access_token tokenData = Some accessToken ->
  accessToken <> "" ->
  (Auth.isTokenExpired w accessToken = false ->
   Auth.ensureValidToken w (Some tokenData) tr =
     (Returns (Some accessToken), (tr ++ [EvDecode accessToken])%list) /\
   requests (snd (Auth.ensureValidToken w (Some tokenData) tr)) = requests tr) /\
  (Auth.isTokenExpired w accessToken = true ->
   truthy (refresh_token tokenData) = false ->
   Auth.ensureValidToken w (Some tokenData) tr =
     (Throws (newAuthenticationError "Token expired and no refresh token available"),
      (tr ++ [EvDecode accessToken])%list) /\
   requests (snd (Auth.ensureValidToken w (Some tokenData) tr)) = requests tr).
Proof.
  intros Ha Hne.
  assert (Ht : truthy (Auth.field (Some tokenData) access_token) = true).
  { simpl. rewrite Ha. apply truthy_Some. assumption. }
  assert (Hreq : requests (tr ++ [EvDecode accessToken]) = requests tr).
  { rewrite requests_app. simpl. apply app_nil_r. }
  split.
  - intros Hfresh.
    assert (E : Auth.ensureValidToken w (Some tokenData) tr =
                (Returns (Some accessToken), (tr ++ [EvDecode accessToken])%list)).
    { unfold Auth.ensureValidToken. rewrite Ht. simpl.
      unfold Auth.checkExpired, bind, emit, ret. simpl.
      rewrite Ha. simpl. rewrite Hfresh. reflexivity. }
    split; [exact E|]. rewrite E. exact Hreq.
  - intros Hexp Hnr.
    assert (E : Auth.ensureValidToken w (Some tokenData) tr =
                (Throws (newAuthenticationError
                           "Token expired and no refresh token available"),
                 (tr ++ [EvDecode accessToken])%list)).
    { unfold Auth.ensureValidToken. rewrite Ht. simpl.
      unfold Auth.checkExpired, bind, emit, ret. simpl.
      rewrite Ha. simpl. rewrite Hexp. simpl. rewrite Hnr. reflexivity. }
    split; [exact E|]. rewrite E. exact Hreq.
Qed.

Lemma ensureValidToken_valid_or_unrefreshable_witness :
  Auth.ensureValidToken clockWorld
      (Some (mkTokens (Some "fresh") (Some "refresh") None None)) [] =
    (Returns (Some "fresh"), [EvDecode "fresh"]) /\
  Auth.ensureValidToken clockWorld
      (Some (mkTokens (Some "stale") None None None)) [] =
    (Throws (newAuthenticationError "Token expired and no refresh token available"),
     [EvDecode "stale"]).
Proof.
  split.
  - refine (proj1 (proj1 (ensureValidToken_valid_or_unrefreshable clockWorld
             (mkTokens (Some "fresh") (Some "refresh") None None) "fresh" []
             eq_refl _) _)).
    + discriminate.
    + reflexivity.
  - refine (proj1 (proj2 (ensureValidToken_valid_or_unrefreshable clockWorld
             (mkTokens (Some "stale") None None None) "stale" []
             eq_refl _) _ _)).
    + discriminate.
    + reflexivity.
    + reflexivity.
Defined.

Lemma requests_snoc (tr : list Event) (req : Request) :
  length (requests (tr ++ [EvFetch req])) = S (length (requests tr)).
Proof.
  rewrite requests_app, length_app. simpl. lia.
Qed.

Lemma status_401_not_ok (r : Response) : status r = 401 -> ok r = false.
Proof.
  intros H. unfold ok. rewrite H. reflexivity.
Qed.

(** The credential fallback of [exchangeCodeForTokens].  When the
    body-credential request is answered with status 401, exactly one
    more request is sent, with the client id moved from the body to an
    [Authorization: Basic] header, whatever the second answer is.  When
    that second answer is not 2xx and its body carries an error code and
    a description, the function throws a plain [Error] whose message
    holds both. *)
Lemma exchangeCodeForTokens_basic_fallback
    (w : World) (clientId code codeVerifier redirectUri : string)
    (tr : list Event) (r1 : Response) :
  let first :=
    PostToken (mkTokenRequest None "authorization_code" (Some clientId)
                 (Some codeVerifier) (Some code) (Some redirectUri) None) in
  net w (length (requests tr)) first = Resp r1 ->
  status r1 = 401 ->
  exists authHeader,
    let second :=
      PostToken (mkTokenRequest (Some authHeader) "authorization_code" None
                   (Some codeVerifier) (Some code) (Some redirectUri) None) in
    (exists credentials, authHeader = ("Basic " ++ base64 w credentials)%string) /\
    requests (snd (Auth.exchangeCodeForTokens w clientId code codeVerifier
                     redirectUri tr))
      = (requests tr ++ [first; second])%list /\
    (forall r2 c d,
        net w (S (length (requests tr))) second = Resp r2 ->
        ok r2 = false ->
        JSON_parse w (bodyText r2) = ParsedObject (Some c) (Some d) ->
        c <> "" -> d <> "" ->
        fst (Auth.exchangeCodeForTokens w clientId code codeVerifier
               redirectUri tr)
          = Throws (newError ("Token exchange failed: " ++ c ++ " - " ++ d)%string)).
Proof.
  intros first H1 H401.
  pose proof (status_401_not_ok r1 H401) as Hok1.
  set (authHeader :=
         (if truthy (YOTO_CLIENT_SECRET w)
          then "Basic " ++ base64 w (clientId ++ ":" ++ show_str (YOTO_CLIENT_SECRET w))
          else "Basic " ++ base64 w (clientId ++ ":"))%string).
  exists authHeader.
  assert (Hpre : exists credentials,
             authHeader = ("Basic " ++ base64 w credentials)%string).
  { unfold authHeader.
    destruct (truthy (YOTO_CLIENT_SECRET w)); eexists; reflexivity. }
  split; [exact Hpre|].
  unfold Auth.exchangeCodeForTokens, bind, fetch.
  fold first. rewrite H1, Hok1, H401. simpl.
  fold authHeader. rewrite requests_snoc.
  set (second := PostToken (mkTokenRequest (Some authHeader) "authorization_code"
                              None (Some codeVerifier) (Some code)
                              (Some redirectUri) None)).
  assert (Htr : forall o : Outcome Json,
             requests (snd (o, ((tr ++ [EvFetch first]) ++ [EvFetch second])%list))
             = (requests tr ++ [first; second])%list).
  { intros o. simpl. rewrite !requests_app. simpl. rewrite <- app_assoc. reflexivity. }
  split.
  - destruct (net w (S (length (requests tr))) second) as [e|r2]; [apply Htr|].
    destruct (ok r2); simpl.
    + unfold json. destruct (bodyJson r2); apply Htr.
    + destruct (Auth.parseErrorBody w (bodyText r2)); apply Htr.
  - intros r2 c d H2 Hok2 Hp Hc Hd.
    rewrite H2, Hok2. simpl.
    unfold Auth.parseErrorBody. rewrite Hp.
    unfold or_str. rewrite (truthy_Some c Hc), (truthy_Some d Hd). reflexivity.
Qed.

Lemma exchangeCodeForTokens_basic_fallback_witness :
  exists authHeader,
    (exists credentials, authHeader = ("Basic " ++ base64 rejectingWorld credentials)%string) /\
    requests (snd (Auth.exchangeCodeForTokens rejectingWorld "client" "code"
                     "verifier" "https://app/callback" []))
      = [PostToken (mkTokenRequest None "authorization_code" (Some "client")
                      (Some "verifier") (Some "code")
                      (Some "https://app/callback") None);
         PostToken (mkTokenRequest (Some authHeader) "authorization_code" None
                      (Some "verifier") (Some "code")
                      (Some "https://app/callback") None)] /\
    fst (Auth.exchangeCodeForTokens rejectingWorld "client" "code"
           "verifier" "https://app/callback" [])
      = Throws (newError "Token exchange failed: invalid_client - Invalid client").
Proof.
  destruct (exchangeCodeForTokens_basic_fallback rejectingWorld "client" "code"
              "verifier" "https://app/callback" []
              (mkResponse 401 "{...}" JInvalid) eq_refl eq_refl)
    as [authHeader [Hpre [Hreq Hfail]]].
  exists authHeader. split; [exact Hpre|]. split; [exact Hreq|].
  apply (Hfail (mkResponse 401 "{...}" JInvalid) "invalid_client" "Invalid client").
  - reflexivity.
  - reflexivity.
  - reflexivity.
  - discriminate.
  - discriminate.
Defined.

(** C5, at the failing input.  The token endpoint answers 401 to the
    body-credential request and 401 to the Basic request, with the body
    [invalid_client] / [Invalid client].  Two requests are sent and the
    error thrown carries the upstream code and description, but its
    class is the plain [Error], not [AuthenticationError] as in
    [refreshAccessToken] and [ensureValidToken]. *)
Theorem exchangeCodeForTokens_throws_plain_error :
  exists e tr,
    run (Auth.exchangeCodeForTokens rejectingWorld "client" "code"
           "verifier" "https://app/callback") = (Throws e, tr) /\
    length (requests tr) = 2%nat /\
    err_message e = "Token exchange failed: invalid_client - Invalid client" /\
    err_class e = PlainError /\
    err_class e <> AuthenticationError.
Proof.
  eexists. eexists. split; [reflexivity|].
  repeat split. discriminate.
Qed.

(** ** Transcode polling *)

Section Polling.
Context (w : World) (id : option string) (accessToken : string).

Lemma requests_pendingRounds (tr : list Event) (k : nat) :
  length (requests (tr ++ pendingRounds (GetTranscoded id accessToken) k))
  = (length (requests tr) + k)%nat.
Proof.
  rewrite requests_app, length_app. f_equal.
  induction k as [|k IH]; simpl; [reflexivity|]. rewrite IH. reflexivity.
Qed.

Lemma poll_pending_step (remaining attempts : nat) (tr : list Event) :
  pollPending (net w (length (requests tr)) (GetTranscoded id accessToken))
    = true ->
  Library.pollTranscode w (S remaining) attempts id accessToken tr =
  Library.pollTranscode w remaining (S attempts) id accessToken
    (tr ++ [EvFetch (GetTranscoded id accessToken); EvSleep 500]).
Proof.
  intros H. simpl. unfold bind, fetch, json, sleep, emit, ret, throw.
  destruct (net w (length (requests tr)) (GetTranscoded id accessToken))
    as [e|r]; [discriminate|].
  simpl in H.
  destruct (ok r).
  - destruct (bodyJson r); try discriminate.
    destruct (truthy (transcodedSha256 t)); [discriminate|].
    rewrite <- app_assoc. reflexivity.
  - rewrite <- app_assoc. reflexivity.
Qed.

Lemma poll_ready_step (remaining attempts : nat) (tr : list Event)
    (t : Transcoded) :
  pollReady (net w (length (requests tr)) (GetTranscoded id accessToken))
    = Some t ->
  Library.pollTranscode w (S remaining) attempts id accessToken tr =
  (Returns (Some t, attempts),
   tr ++ [EvFetch (GetTranscoded id accessToken)]).
Proof.
  intros H. simpl. unfold bind, fetch, json, ret, throw.
  destruct (net w (length (requests tr)) (GetTranscoded id accessToken))
    as [e|r]; [discriminate|].
  simpl in H.
  destruct (ok r); [|discriminate].
  destruct (bodyJson r); try discriminate.
  destruct (truthy (transcodedSha256 t0)); [|discriminate].
  injection H as ->. reflexivity.
Qed.

Lemma poll_pending_rounds (k : nat) :
  forall (remaining attempts : nat) (tr : list Event),
    (forall i, (i < k)%nat ->
       pollPending (net w (length (requests tr) + i)
                      (GetTranscoded id accessToken)) = true) ->
    Library.pollTranscode w (k + remaining) attempts id accessToken tr =
    Library.pollTranscode w remaining (attempts + k) id accessToken
      (tr ++ pendingRounds (GetTranscoded id accessToken) k).
Proof.
  induction k as [|k IH]; intros remaining attempts tr H.
  - simpl. rewrite app_nil_r, Nat.add_0_r. reflexivity.
  - change (S k + remaining)%nat with (S (k + remaining)).
    rewrite poll_pending_step.
    + rewrite IH.
      * replace (S attempts + k)%nat with (attempts + S k)%nat by lia.
        rewrite <- app_assoc. reflexivity.
      * intros i Hi.
        change [EvFetch (GetTranscoded id accessToken); EvSleep 500]
          with (pendingRounds (GetTranscoded id accessToken) 1).
        rewrite (requests_pendingRounds tr 1).
        replace (length (requests tr) + 1 + i)%nat
          with (length (requests tr) + S i)%nat by lia.
        apply H. lia.
    + rewrite <- (Nat.add_0_r (length (requests tr))). apply H. lia.
Qed.

(** Whatever the network does, a run of the loop adds at most
    [remaining] requests, and every wait it adds is 500 ms long. *)
Lemma poll_bounded (remaining : nat) :
  forall (attempts : nat) (tr : list Event),
  exists added,
    snd (Library.pollTranscode w remaining attempts id accessToken tr)
      = tr ++ added /\
    (length (requests added) <= remaining)%nat /\
    Forall (fun ms => ms = 500) (sleeps added).
Proof.
  induction remaining as [|remaining IH]; intros attempts tr.
  - exists []. simpl. rewrite app_nil_r. repeat split; [lia|constructor].
  - pose (poll := EvFetch (GetTranscoded id accessToken)).
    assert (Stop : forall o : Outcome (option Transcoded * nat),
               exists added,
                 snd (o, tr ++ [poll]) = tr ++ added /\
                 (length (requests added) <= S remaining)%nat /\
                 Forall (fun ms => ms = 500) (sleeps added)).
    { intros o. exists [poll]. simpl. repeat split; [lia|constructor]. }
    assert (Go : exists added,
               snd (Library.pollTranscode w remaining (S attempts) id
                      accessToken (tr ++ [poll; EvSleep 500]))
                 = tr ++ added /\
               (length (requests added) <= S remaining)%nat /\
               Forall (fun ms => ms = 500) (sleeps added)).
    { destruct (IH (S attempts) (tr ++ [poll; EvSleep 500]))
        as [added [E [L F]]].
      exists ([poll; EvSleep 500] ++ added).
      rewrite E, <- app_assoc. split; [reflexivity|].
      rewrite requests_app, sleeps_app. simpl. split; [lia|].
      constructor; [reflexivity|assumption]. }
    unfold poll in Stop, Go.
    simpl. unfold bind, fetch, json, sleep, emit, ret, throw.
    destruct (net w (length (requests tr)) (GetTranscoded id accessToken))
      as [e|r]; [apply Stop|].
    destruct (ok r).
    + destruct (bodyJson r); try apply Stop.
      destruct (truthy (transcodedSha256 t)); [apply Stop|].
      rewrite <- app_assoc. apply Go.
    + rewrite <- app_assoc. apply Go.
Qed.

End Polling.

(** C6. The wait for transcoding sends at most 60 status requests and
    every wait between them is 500 ms.  If the first [k] polls (k < 60)
    bring no hash and poll [k] is successful with a non-empty hash, the
    transcode result of that poll is returned and nothing is sent after
    it.  If all 60 polls bring no hash, a [YotoAPIError] "Transcoding
    timed out after 30 seconds" is thrown whose context carries the
    upload id and the attempt count 60. *)
Theorem waitForTranscoding_bounded_polling
    (w : World) (id : option string) (accessToken : string) (tr : list Event) :
  let req := GetTranscoded id accessToken in
  let n0 := length (requests tr) in
  (exists added,
     snd (Library.waitForTranscoding w id accessToken tr) = tr ++ added /\
     (length (requests added) <= 60)%nat /\
     Forall (fun ms => ms = 500) (sleeps added)) /\
  (forall k t,
     (k < 60)%nat ->
     (forall i, (i < k)%nat -> pollPending (net w (n0 + i)%nat req) = true) ->
     pollReady (net w (n0 + k)%nat req) = Some t ->
     Library.waitForTranscoding w id accessToken tr =
       (Returns t, tr ++ pendingRounds req k ++ [EvFetch req])) /\
  ((forall i, (i < 60)%nat -> pollPending (net w (n0 + i)%nat req) = true) ->
   Library.waitForTranscoding w id accessToken tr =
     (Throws (newYotoAPIError "Transcoding timed out after 30 seconds"
                [("uploadId", val_of_str id); ("attempts", VNum 60)]),
      tr ++ pendingRounds req 60)).
Proof.
  intros req n0.
  unfold Library.waitForTranscoding.
  change (Library.maxAttempts - 0)%nat with 60%nat.
  split; [|split].
  - destruct (poll_bounded w id accessToken 60 0%nat tr) as [added [E [L F]]].
    exists added. split; [|split; assumption].
    unfold bind.
    destruct (Library.pollTranscode w 60 0 id accessToken tr) as [[[[t|] n]|e] tr'];
      simpl in E |- *; exact E.
  - intros k t Hk Hpending Hready.
    unfold bind.
    replace 60%nat with (k + S (59 - k))%nat by lia.
    rewrite (poll_pending_rounds w id accessToken k _ _ tr Hpending).
    rewrite (poll_ready_step w id accessToken _ _ _ t).
    + rewrite <- app_assoc. reflexivity.
    + rewrite requests_pendingRounds. exact Hready.
  - intros Hpending.
    unfold bind.
    change 60%nat with (60 + 0)%nat at 1.
    rewrite (poll_pending_rounds w id accessToken 60 0%nat 0%nat tr Hpending).
    reflexivity.
Qed.

Lemma waitForTranscoding_bounded_polling_witness :
  Library.waitForTranscoding transcodingWorld (Some "upload-1") "token" [] =
    (Returns sampleTranscode,
     pendingRounds (GetTranscoded (Some "upload-1") "token") 2
       ++ [EvFetch (GetTranscoded (Some "upload-1") "token")]) /\
  Library.waitForTranscoding stuckWorld (Some "upload-1") "token" [] =
    (Throws (newYotoAPIError "Transcoding timed out after 30 seconds"
               [("uploadId", VStr "upload-1"); ("attempts", VNum 60)]),
     pendingRounds (GetTranscoded (Some "upload-1") "token") 60).
Proof.
  split.
  - apply (proj1 (proj2 (waitForTranscoding_bounded_polling transcodingWorld
                           (Some "upload-1") "token" [])) 2%nat sampleTranscode).
    + lia.
    + intros i Hi. destruct i as [|[|i]]; [reflexivity|reflexivity|lia].
    + reflexivity.
  - apply (proj2 (proj2 (waitForTranscoding_bounded_polling stuckWorld
                           (Some "upload-1") "token" []))).
    intros i Hi. reflexivity.
Defined.

(** At the boundary of [uploadAudioToYoto] the timeout is the failure
    result with the error's message; the context with the upload id and
    the attempt count stays with the error that was caught. *)
Example uploadAudioToYoto_timeout_result :
  exists tr,
    run (Library.uploadAudioToYoto uploadStuckWorld [] "token") =
      (Returns (Library.mkAudioResult false None
                  (Some "Yoto API: Transcoding timed out after 30 seconds"%string)),
       tr) /\
    length (requests tr) = 62%nat /\
    length (sleeps tr) = 60%nat.
Proof.
  eexists. split; [vm_compute; reflexivity|]. split; reflexivity.
Qed.

(** ** Card lookup *)

(** C4 as stated fails: when the detail request of the selected card is
    answered with a non-2xx status, [getHeroCard] returns the card's
    list entry, not null. *)
Lemma getHeroCard_detail_500_returns_summary :
  run (Library.getHeroCard detailFailsWorld "token") =
    (Returns (Some heroSummary),
     [EvFetch (GetContentMine "token");
      EvFetch (GetContent (Some "card-1") "token")]) /\
  fst (run (Library.getHeroCard detailFailsWorld "token")) <> Returns None.
Proof.
  split; [reflexivity|]. discriminate.
Qed.

(** C4, as the code has it.  [getHeroCard] never throws.  It returns
    null when the content-list request fails (the fetch rejects, the
    status is not 2xx, or the body is not JSON) and when the detail
    request of the selected card rejects or its 2xx body is not JSON.
    When the detail request is answered with a non-2xx status it
    returns the list entry of the selected card instead.  The selected
    card is the first of the hero cards in the order the sort of the
    engine at hand leaves them in ([heroCards w]), dated or not. *)
Theorem getHeroCard_lookup_failures
    (w : World) (accessToken : string) (tr : list Event) :
  let n0 := length (requests tr) in
  (exists res tr', Library.getHeroCard w accessToken tr = (Returns res, tr')) /\
  (listFails (net w n0 (GetContentMine accessToken)) = true ->
   fst (Library.getHeroCard w accessToken tr) = Returns None) /\
  (forall r cards c rest,
     net w n0 (GetContentMine accessToken) = Resp r ->
     ok r = true ->
     bodyJson r = JCards cards ->
     heroCards w cards = c :: rest ->
     let id := or_str (card_cardId c) (card_id c) in
     (forall e, net w (S n0) (GetContent id accessToken) = NetworkError e ->
                fst (Library.getHeroCard w accessToken tr) = Returns None) /\
     (forall r2, net w (S n0) (GetContent id accessToken) = Resp r2 ->
                 ok r2 = true -> bodyJson r2 = JInvalid ->
                 fst (Library.getHeroCard w accessToken tr) = Returns None) /\
     (forall r2, net w (S n0) (GetContent id accessToken) = Resp r2 ->
                 ok r2 = false ->
                 fst (Library.getHeroCard w accessToken tr) =
                   Returns (Some (Library.ensureCardId c id)))).
Proof.
  intros n0. split; [|split].
  - unfold Library.getHeroCard, try_catch.
    match goal with
    | |- context [match ?m tr with _ => _ end] => destruct (m tr) as [[res|e] tr']
    end; eexists; eexists; reflexivity.
  - intros H. unfold Library.getHeroCard, try_catch, bind, fetch.
    fold n0. destruct (net w n0 (GetContentMine accessToken)) as [e|r];
      [reflexivity|].
    simpl in H. destruct (ok r); simpl in H |- *; [|reflexivity].
    unfold json. destruct (bodyJson r); try discriminate. reflexivity.
  - intros r cards c rest H1 Hok Hbody Hsel id.
    unfold heroCards in Hsel.
    assert (Hn : length (requests (tr ++ [EvFetch (GetContentMine accessToken)]))
                 = S n0) by apply requests_snoc.
    repeat split.
    + intros e H2. unfold Library.getHeroCard, try_catch, bind, fetch.
      fold n0. rewrite H1, Hok. simpl. unfold json. rewrite Hbody. simpl.
      rewrite Hsel. fold id. rewrite Hn, H2. reflexivity.
    + intros r2 H2 Hok2 Hb2. unfold Library.getHeroCard, try_catch, bind, fetch.
      fold n0. rewrite H1, Hok. simpl. unfold json. rewrite Hbody. simpl.
      rewrite Hsel. fold id. rewrite Hn, H2, Hok2, Hb2. reflexivity.
    + intros r2 H2 Hok2. unfold Library.getHeroCard, try_catch, bind, fetch.
      fold n0. rewrite H1, Hok. simpl. unfold json. rewrite Hbody. simpl.
      rewrite Hsel. fold id. rewrite Hn, H2, Hok2. reflexivity.
Qed.

Lemma getHeroCard_lookup_failures_witness :
  fst (Library.getHeroCard rejectingWorld "token" []) = Returns None /\
  fst (Library.getHeroCard detailFailsWorld "token" []) =
    Returns (Some (Library.ensureCardId heroSummary (Some "card-1"))) /\
  fst (Library.getHeroCard (mixedWorld runThenInsert) "token" []) =
    Returns (Some (Library.ensureCardId (datedCard "june" 1717200000000)
                     (Some "june"))).
Proof.
  split; [|split].
  - apply (proj1 (proj2 (getHeroCard_lookup_failures rejectingWorld "token" []))).
    reflexivity.
  - apply (proj2 (proj2 (proj2 (proj2 (getHeroCard_lookup_failures
             detailFailsWorld "token" [])) (mkResponse 200 "" (JCards [heroSummary]))
             [heroSummary] heroSummary [] eq_refl eq_refl eq_refl eq_refl))
           (mkResponse 500 "Internal Server Error" JInvalid)).
    + reflexivity.
    + reflexivity.
  - apply (proj2 (proj2 (proj2 (proj2 (getHeroCard_lookup_failures
             (mixedWorld runThenInsert) "token" []))
             (mkResponse 200 "" (JCards mixedCards))
             mixedCards (datedCard "june" 1717200000000)
             [datedCard "march" 1709251200000;
              datedCard "january" 1704067200000; undatedCard]
             eq_refl eq_refl eq_refl eq_refl))
           (mkResponse 500 "Internal Server Error" JInvalid)).
    + reflexivity.
    + reflexivity.
Defined.

(** ** Card update *)

Lemma chapterKey_two_digits (n : nat) :
  (n < 100)%nat -> String.length (Library.chapterKey n) = 2%nat.
Proof.
  intros H.
  do 100 (destruct n as [|n]; [reflexivity|]).
  lia.
Qed.

Lemma contiguousKeys_snoc (n : nat) :
  contiguousKeys (n + 1) =
  contiguousKeys n ++ [Some (Library.chapterKey (n + 1))].
Proof.
  unfold contiguousKeys.
  rewrite Nat.add_1_r, seq_S, map_app. reflexivity.
Qed.

Lemma updatePayload_chapters (fullCard : Card)
    (storyMetadata : Library.StoryMetadata) (transcodedAudio : Transcoded) :
  payload_chapters (Library.updatePayload fullCard storyMetadata transcodedAudio) =
  map Library.cleanChapter (Library.chaptersOf fullCard)
    ++ [Library.createChapterFromStory storyMetadata transcodedAudio
          (length (Library.chaptersOf fullCard) + 1)].
Proof. reflexivity. Qed.

(** The aggregate of an update is the aggregate stored on the card read
    from the platform plus the new track's values. *)
Lemma updatePayload_aggregate (fullCard : Card)
    (storyMetadata : Library.StoryMetadata) (transcodedAudio : Transcoded) :
  payload_duration (Library.updatePayload fullCard storyMetadata transcodedAudio) =
    Some (or_zero (card_duration fullCard)
          + or_zero (Library.info (transcodedInfo transcodedAudio) mi_duration)) /\
  payload_fileSize (Library.updatePayload fullCard storyMetadata transcodedAudio) =
    Some (or_zero (card_fileSize fullCard)
          + or_zero (Library.info (transcodedInfo transcodedAudio) mi_fileSize)).
Proof. split; reflexivity. Qed.

(** With chapter bodies at hand, [updateHeroCard] sends one write, the
    document built from the card passed in, whatever the answer is. *)
Lemma updateHeroCard_writes_once (w : World) (existingCard : Card)
    (chapters : list Chapter) (storyMetadata : Library.StoryMetadata)
    (transcodedAudio : Transcoded) (accessToken : string) (tr : list Event) :
  card_chapters existingCard = Some chapters ->
  snd (Library.updateHeroCard w existingCard storyMetadata transcodedAudio
         accessToken tr) =
  tr ++ [EvFetch (PostContent accessToken
                    (Library.updatePayload existingCard storyMetadata
                       transcodedAudio))].
Proof.
  intros Hc.
  unfold Library.updateHeroCard, Library.resolveFullCard, try_catch, bind, fetch.
  rewrite Hc. unfold ret at 1.
  destruct (net w (length (requests tr)) _) as [e|r]; [reflexivity|].
  destruct (ok r); simpl; [|reflexivity].
  unfold json. destruct (bodyJson r); reflexivity.
Qed.

(** C1, at the failing input.  The remote card has one chapter of 100 s
    and 1000 bytes and a stored aggregate of 30 s and 300 bytes; a
    chapter of 60 s and 600 bytes is added.  The write succeeds and
    carries the aggregate 90 s and 900 bytes, the stored value plus the
    new track, while the tracks of the chapters written add up to 160 s
    and 1600 bytes. *)
Theorem updateHeroCard_aggregate_is_delta :
  exists payload,
    run (Library.updateHeroCard acceptingWorld staleCard sampleStory
           sampleTranscode "token") =
      (Returns (Library.mkResult true (Some "card-1") None (Some sampleTranscode)),
       [EvFetch (PostContent "token" payload)]) /\
    payload_duration payload = Some 90 /\
    totalDuration (payload_chapters payload) = 160 /\
    payload_fileSize payload = Some 900 /\
    totalFileSize (payload_chapters payload) = 1600.
Proof.
  eexists. split; [reflexivity|]. repeat split.
Qed.




(** C3 as stated fails: the write of two chapters is refused, and the
    failure returned holds the response body only; the count 2 is not
    in it. *)
Lemma updateHeroCard_failure_omits_chapter_count :
  exists payload msg,
    run (Library.updateHeroCard refusingWorld gapCard sampleStory
           sampleTranscode "token") =
      (Returns (Library.mkResult false None (Some msg) None),
       [EvFetch (PostContent "token" payload)]) /\
    length (payload_chapters payload) = 2%nat /\
    msg = "Failed to update card: Internal Server Error" /\
    includes (nat_toString 2) msg = false.
Proof.
  eexists. eexists. split; [reflexivity|]. repeat split.
Qed.

(** The first step of [updateHeroCard] either hands over the card to
    build the write from, or throws right after the detail request. *)
Lemma resolveFullCard_outcome (w : World) (existingCard : Card)
    (accessToken : string) (tr : list Event) :
  (exists fullCard tr1,
     Library.resolveFullCard w existingCard accessToken tr
       = (Returns fullCard, tr1)) \/
  (exists e id,
     Library.resolveFullCard w existingCard accessToken tr
       = (Throws e, tr ++ [EvFetch (GetContent id accessToken)])).
Proof.
  unfold Library.resolveFullCard.
  destruct (card_chapters existingCard) as [chapters|].
  - left. eexists. eexists. reflexivity.
  - unfold bind, fetch.
    destruct (net w (length (requests tr)) _) as [e|r].
    + right. eexists. eexists. reflexivity.
    + destruct (ok r).
      * unfold json.
        destruct (bodyJson r);
          first [ left; eexists; eexists; reflexivity
                | right; eexists; eexists; reflexivity ].
      * left. eexists. eexists. reflexivity.
Qed.

(** C3, as the code has it.  When the write is answered with a non-2xx
    status, [updateHeroCard] returns the failure result whose [error] is
    "Failed to update card: " followed by the response body; nothing
    else is in it.  This holds on every path to the write: with the
    chapters at hand, after the detail has been fetched, and after the
    detail request has been refused.  First, in terms of the card the
    first step hands over; second, in terms of the requests sent alone:
    whenever the last request of the call is a card write answered with
    a non-2xx status. *)
Theorem updateHeroCard_write_rejected
    (w : World) (existingCard : Card)
    (storyMetadata : Library.StoryMetadata) (transcodedAudio : Transcoded)
    (accessToken : string) (tr : list Event) (r : Response) :
  ok r = false ->
  (forall fullCard tr1,
     Library.resolveFullCard w existingCard accessToken tr
       = (Returns fullCard, tr1) ->
     net w (length (requests tr1))
       (PostContent accessToken
          (Library.updatePayload fullCard storyMetadata transcodedAudio))
       = Resp r ->
     Library.updateHeroCard w existingCard storyMetadata transcodedAudio
       accessToken tr =
     (Returns (Library.mkResult false None
                 (Some ("Failed to update card: " ++ bodyText r)%string) None),
      tr1 ++ [EvFetch (PostContent accessToken
                         (Library.updatePayload fullCard storyMetadata
                            transcodedAudio))])) /\
  (forall tr1 payload,
     snd (Library.updateHeroCard w existingCard storyMetadata transcodedAudio
            accessToken tr) = tr1 ++ [EvFetch (PostContent accessToken payload)] ->
     net w (length (requests tr1)) (PostContent accessToken payload) = Resp r ->
     fst (Library.updateHeroCard w existingCard storyMetadata transcodedAudio
            accessToken tr) =
     Returns (Library.mkResult false None
                (Some ("Failed to update card: " ++ bodyText r)%string) None)).
Proof.
  intros Hok.
  assert (First : forall fullCard tr1,
     Library.resolveFullCard w existingCard accessToken tr
       = (Returns fullCard, tr1) ->
     net w (length (requests tr1))
       (PostContent accessToken
          (Library.updatePayload fullCard storyMetadata transcodedAudio))
       = Resp r ->
     Library.updateHeroCard w existingCard storyMetadata transcodedAudio
       accessToken tr =
     (Returns (Library.mkResult false None
                 (Some ("Failed to update card: " ++ bodyText r)%string) None),
      tr1 ++ [EvFetch (PostContent accessToken
                         (Library.updatePayload fullCard storyMetadata
                            transcodedAudio))])).
  { intros fullCard tr1 Hfull Hnet.
    unfold Library.updateHeroCard, try_catch, bind at 1.
    rewrite Hfull. unfold bind, fetch. rewrite Hnet, Hok. reflexivity. }
  split; [exact First|].
  intros tr1 payload Htrace Hnet.
  destruct (resolveFullCard_outcome w existingCard accessToken tr)
    as [[fullCard [tr2 Hfull]] | [e [id Hthrow]]].
  - assert (Hsnd : snd (Library.updateHeroCard w existingCard storyMetadata
                          transcodedAudio accessToken tr)
                   = tr2 ++ [EvFetch (PostContent accessToken
                                        (Library.updatePayload fullCard
                                           storyMetadata transcodedAudio))]).
    { unfold Library.updateHeroCard, try_catch, bind at 1.
      rewrite Hfull. unfold bind, fetch.
      destruct (net w (length (requests tr2)) _) as [e|r0]; [reflexivity|].
      destruct (ok r0); simpl; [|reflexivity].
      unfold json. destruct (bodyJson r0); reflexivity. }
    rewrite Hsnd in Htrace. apply app_inj_tail in Htrace.
    destruct Htrace as [<- Hev]. injection Hev as <-.
    rewrite (First fullCard tr2 Hfull Hnet). reflexivity.
  - exfalso.
    assert (Hsnd : snd (Library.updateHeroCard w existingCard storyMetadata
                          transcodedAudio accessToken tr)
                   = tr ++ [EvFetch (GetContent id accessToken)]).
    { unfold Library.updateHeroCard, try_catch, bind at 1.
      rewrite Hthrow. reflexivity. }
    rewrite Hsnd in Htrace. apply app_inj_tail in Htrace.
    destruct Htrace as [_ Hev]. discriminate Hev.
Qed.

Lemma updateHeroCard_write_rejected_witness :
  Library.updateHeroCard refusingWorld gapCard sampleStory sampleTranscode
    "token" [] =
  (Returns (Library.mkResult false None
              (Some "Failed to update card: Internal Server Error") None),
   [EvFetch (PostContent "token"
               (Library.updatePayload gapCard sampleStory sampleTranscode))]) /\
  Library.updateHeroCard detailThenRefusedWorld heroSummary sampleStory
    sampleTranscode "token" [] =
  (Returns (Library.mkResult false None
              (Some "Failed to update card: Internal Server Error") None),
   [EvFetch (GetContent (Some "card-1") "token");
    EvFetch (PostContent "token"
               (Library.updatePayload heroDetail sampleStory sampleTranscode))]) /\
  fst (Library.updateHeroCard refusingWorld heroSummary sampleStory
         sampleTranscode "token" []) =
  Returns (Library.mkResult false None
             (Some "Failed to update card: Internal Server Error") None).
Proof.
  split; [|split].
  - apply (proj1 (updateHeroCard_write_rejected refusingWorld gapCard
                    sampleStory sampleTranscode "token" []
                    (mkResponse 500 "Internal Server Error" JInvalid) eq_refl)
             gapCard []).
    + reflexivity.
    + reflexivity.
  - apply (proj1 (updateHeroCard_write_rejected detailThenRefusedWorld
                    heroSummary sampleStory sampleTranscode "token" []
                    (mkResponse 500 "Internal Server Error" JInvalid) eq_refl)
             heroDetail [EvFetch (GetContent (Some "card-1") "token")]).
    + reflexivity.
    + reflexivity.
  - apply (proj2 (updateHeroCard_write_rejected refusingWorld heroSummary
                    sampleStory sampleTranscode "token" []
                    (mkResponse 500 "Internal Server Error" JInvalid) eq_refl)
             [EvFetch (GetContent (Some "card-1") "token")]
             (Library.updatePayload heroSummary sampleStory sampleTranscode)).
    + reflexivity.
    + reflexivity.
Defined.

(** The document of a card creation carries the values of its single
    track as the aggregate. *)
Lemma createHeroCard_aggregate (w : World)
    (storyMetadata : Library.StoryMetadata) (transcodedAudio : Transcoded)
    (accessToken : string) (tr : list Event) (d s : Z) :
  Library.info (transcodedInfo transcodedAudio) mi_duration = Some d ->
  Library.info (transcodedInfo transcodedAudio) mi_fileSize = Some s ->
  exists payload,
    snd (Library.createHeroCard w storyMetadata transcodedAudio accessToken tr)
      = tr ++ [EvFetch (PostContent accessToken payload)] /\
    map ch_key (payload_chapters payload) = [Some "01"%string] /\
    payload_duration payload = Some (totalDuration (payload_chapters payload)) /\
    payload_fileSize payload = Some (totalFileSize (payload_chapters payload)).
Proof.
  intros Hd Hs.
  eexists. split.
  - unfold Library.createHeroCard, try_catch, bind, fetch.
    destruct (net w (length (requests tr)) _) as [e|r]; [reflexivity|].
    destruct (ok r); simpl; [|reflexivity].
    unfold json. destruct (bodyJson r); reflexivity.
  - simpl. unfold totalDuration, totalFileSize, trackDurations, trackFileSizes.
    simpl. rewrite Hd, Hs. simpl. rewrite !Z.add_0_r. repeat split.
Qed.

(** ** Workflow *)

(** One case split on an innermost [match] of the goal. *)
Ltac split_innermost :=
  match goal with
  | |- context [match ?x with _ => _ end] =>
      lazymatch x with
      | context [match _ with _ => _ end] => fail
      | _ => destruct x eqn:?
      end
  end; cbv beta iota zeta.

Ltac run_monad :=
  unfold try_catch, bind, fetch, json, ret, throw, lift, emit, sleep;
  cbv beta iota zeta.

Lemma uniform_success (id : option string) (t : Transcoded) :
  uniformResult (Library.mkResult true id None (Some t)).
Proof.
  left. simpl. repeat split. exists t. reflexivity.
Qed.

Lemma uniform_failure (msg : string) :
  uniformResult (Library.mkResult false None (Some msg) None).
Proof.
  right. simpl. repeat split. exists msg. reflexivity.
Qed.

Lemma or_str_default (a : option string) (d : string) :
  exists msg, or_str a (Some d) = Some msg.
Proof.
  unfold or_str. destruct (truthy a) eqn:E.
  - destruct (truthy_inv a E) as [s [-> _]]. exists s. reflexivity.
  - exists d. reflexivity.
Qed.

Create HintDb workflow.
#[local] Hint Resolve uniform_success uniform_failure : workflow.

Section Workflow.
Context (w : World).

Lemma createHeroCard_uniform (storyMetadata : Library.StoryMetadata)
    (transcodedAudio : Transcoded) (accessToken : string) (tr : list Event) :
  exists res tr',
    Library.createHeroCard w storyMetadata transcodedAudio accessToken tr
      = (Returns res, tr') /\ uniformResult res.
Proof.
  unfold Library.createHeroCard, Library.writeResult. run_monad.
  repeat split_innermost; eexists; eexists; (split; [reflexivity|]);
    auto with workflow.
Qed.

Lemma updateHeroCard_uniform (existingCard : Card)
    (storyMetadata : Library.StoryMetadata)
    (transcodedAudio : Transcoded) (accessToken : string) (tr : list Event) :
  exists res tr',
    Library.updateHeroCard w existingCard storyMetadata transcodedAudio
      accessToken tr = (Returns res, tr') /\ uniformResult res.
Proof.
  unfold Library.updateHeroCard, Library.writeResult.
  unfold try_catch, bind at 1.
  destruct (Library.resolveFullCard w existingCard accessToken tr)
    as [[fullCard|e] tr1].
  - run_monad.
    repeat split_innermost; eexists; eexists; (split; [reflexivity|]);
      auto with workflow.
  - eexists; eexists; (split; [reflexivity|]); auto with workflow.
Qed.

Lemma uploadAudioToYoto_outcome (audioBuffer : list Byte.byte)
    (accessToken : string) (tr : list Event) :
  exists res tr',
    Library.uploadAudioToYoto w audioBuffer accessToken tr = (Returns res, tr') /\
    (Library.au_success res = false -> exists msg, Library.au_error res = Some msg).
Proof.
  unfold Library.uploadAudioToYoto, Library.uploadAudioToYoto_try. run_monad.
  repeat split_innermost; eexists; eexists; (split; [reflexivity|]); simpl;
    intros; try discriminate; eexists; reflexivity.
Qed.

Lemma getHeroCard_returns (accessToken : string) (tr : list Event) :
  exists res tr', Library.getHeroCard w accessToken tr = (Returns res, tr').
Proof.
  unfold Library.getHeroCard, try_catch.
  match goal with
  | |- context [match ?m tr with _ => _ end] => destruct (m tr) as [[res|e] tr']
  end; eexists; eexists; reflexivity.
Qed.

(** Steps 2 and 3 of the workflow, once a transcode result is at hand. *)
Lemma lookup_then_write_uniform (storyMetadata : Library.StoryMetadata)
    (transcodedAudio : Transcoded) (accessToken : string) (tr : list Event) :
  exists res tr',
    bind (Library.getHeroCard w accessToken)
         (fun existingCard =>
            match existingCard with
            | Some card =>
                Library.updateHeroCard w card storyMetadata transcodedAudio
                  accessToken
            | None =>
                Library.createHeroCard w storyMetadata transcodedAudio accessToken
            end) tr = (Returns res, tr') /\ uniformResult res.
Proof.
  unfold bind.
  destruct (getHeroCard_returns accessToken tr) as [existing [tr1 ->]].
  destruct existing as [card|].
  - apply updateHeroCard_uniform.
  - apply createHeroCard_uniform.
Qed.

Lemma uploadStoryToYoto_try_uniform (storyText : string)
    (storyMetadata : Library.StoryMetadata) (accessToken : string)
    (tr tr' : list Event) (res : Library.YotoUploadResult) :
  Library.uploadStoryToYoto_try w storyText storyMetadata accessToken tr
    = (Returns res, tr') ->
  uniformResult res.
Proof.
  unfold Library.uploadStoryToYoto_try.
  unfold bind at 1.
  destruct (Library.getCachedTranscode w _ tr) as [[[cached|]|e] tr1];
    [| |discriminate].
  - destruct (lookup_then_write_uniform storyMetadata cached accessToken tr1)
      as [res1 [tr2 [E U]]].
    rewrite E. intros H. injection H as <- _. exact U.
  - unfold bind at 1, lift at 1.
    destruct (importTTS w) as [[]|e]; [|discriminate].
    destruct (truthy (getRandomVoiceId w)).
    + cbv beta iota zeta. unfold negb.
      unfold bind at 1, emit at 1. unfold bind at 1, lift at 1.
      destruct (generateAudio w storyText _) as [audioResult|e]; [|discriminate].
      destruct (tts_success audioResult), (tts_audioBuffer audioResult)
        as [audioBuffer|];
        try (unfold ret; intros H; injection H as <- _;
             destruct (or_str_default (tts_error audioResult)
                         "Audio generation failed") as [msg ->];
             apply uniform_failure).
      unfold bind at 1.
      destruct (uploadAudioToYoto_outcome audioBuffer accessToken
                  (tr1 ++ [EvTTS storyText (show_str (getRandomVoiceId w))]))
        as [uploadResult [tr2 [-> Herr]]].
      destruct (Library.au_success uploadResult) eqn:Hs; cbv beta iota zeta;
        unfold negb.
      * destruct (Library.au_transcodedAudio uploadResult) as [transcodedAudio|];
          [|discriminate].
        unfold bind at 1.
        destruct (Library.cacheTranscode w _ transcodedAudio tr2)
          as [[[]|e] tr3]; [|discriminate].
        destruct (lookup_then_write_uniform storyMetadata transcodedAudio
                    accessToken tr3) as [res1 [tr4 [E U]]].
        rewrite E. intros H. injection H as <- _. exact U.
      * destruct (Herr eq_refl) as [msg ->].
        unfold ret. intros H. injection H as <- _. apply uniform_failure.
    + cbv beta iota zeta. unfold negb, ret.
      intros H. injection H as <- _. apply uniform_failure.
Qed.

End Workflow.


(** * Further properties *)

(** ** Error normalisation *)

(** X1. [normalizeError] always yields an [AppError]; normalising twice
    changes nothing; the message kept is the error's own when the value
    thrown is an [Error] and the default message otherwise. *)
Theorem normalizeError_yields_app_error (e : JSError) (d d' : string) :
  isAppError (normalizeError e d) = true /\
  normalizeError (normalizeError e d) d' = normalizeError e d /\
  err_message (normalizeError e d) = (if isError e then err_message e else d).
Proof.
  destruct e as [c m ctx].
  destruct c; repeat split.
Qed.

(** ** Token exchange and refresh *)

(** X2. When the first answer of the token endpoint has a status other
    than 401, [exchangeCodeForTokens] sends that one request and no
    other; a 2xx answer with a JSON body is returned as the tokens. *)
Theorem exchangeCodeForTokens_single_attempt
    (w : World) (clientId code codeVerifier redirectUri : string)
    (tr : list Event) (r1 : Response) :
  let first := bodyCredentialRequest clientId code codeVerifier redirectUri in
  net w (length (requests tr)) first = Resp r1 ->
  status r1 <> 401 ->
  snd (Auth.exchangeCodeForTokens w clientId code codeVerifier redirectUri tr)
    = tr ++ [EvFetch first] /\
  (ok r1 = true -> bodyJson r1 <> JInvalid ->
   fst (Auth.exchangeCodeForTokens w clientId code codeVerifier redirectUri tr)
     = Returns (bodyJson r1)).
Proof.
  intros first H1 Hs.
  assert (Hno : negb (ok r1) && (status r1 =? 401) = false).
  { destruct (Z.eqb_spec (status r1) 401); [contradiction|].
    apply andb_false_r. }
  unfold Auth.exchangeCodeForTokens, bind, fetch.
  fold (bodyCredentialRequest clientId code codeVerifier redirectUri).
  fold first. rewrite H1, Hno.
  change (ret r1 (tr ++ [EvFetch first])) with (Returns r1, tr ++ [EvFetch first]).
  cbv beta iota.
  split.
  - destruct (ok r1); simpl.
    + unfold json. destruct (bodyJson r1); reflexivity.
    + destruct (Auth.parseErrorBody w (bodyText r1)); reflexivity.
  - intros Hok Hb. rewrite Hok. simpl. unfold json.
    destruct (bodyJson r1); try reflexivity. contradiction.
Qed.

Lemma exchangeCodeForTokens_single_attempt_witness :
  snd (Auth.exchangeCodeForTokens badRequestWorld "client" "code" "verifier"
         "https://app/callback" [])
  = [EvFetch (bodyCredentialRequest "client" "code" "verifier"
                "https://app/callback")].
Proof.
  apply (proj1 (exchangeCodeForTokens_single_attempt badRequestWorld "client"
                  "code" "verifier" "https://app/callback" []
                  (mkResponse 400 "not json" JInvalid) eq_refl
                  ltac:(discriminate))).
Defined.

(** X3. When the body-credential request is answered 401 and the
    Basic-auth request is answered 2xx with a JSON body, the tokens of
    the second answer are returned after exactly these two requests. *)
Theorem exchangeCodeForTokens_retry_succeeds
    (w : World) (clientId code codeVerifier redirectUri : string)
    (tr : list Event) (r1 r2 : Response) :
  let first := bodyCredentialRequest clientId code codeVerifier redirectUri in
  let second := basicAuthRequest w clientId code codeVerifier redirectUri in
  net w (length (requests tr)) first = Resp r1 ->
  status r1 = 401 ->
  net w (S (length (requests tr))) second = Resp r2 ->
  ok r2 = true ->
  bodyJson r2 <> JInvalid ->
  Auth.exchangeCodeForTokens w clientId code codeVerifier redirectUri tr
    = (Returns (bodyJson r2), tr ++ [EvFetch first; EvFetch second]).
Proof.
  intros first second H1 H401 H2 Hok2 Hb.
  pose proof (status_401_not_ok r1 H401) as Hok1.
  unfold Auth.exchangeCodeForTokens, bind, fetch.
  fold (bodyCredentialRequest clientId code codeVerifier redirectUri).
  fold first. rewrite H1, Hok1, H401. simpl.
  fold (basicAuthHeader w clientId).
  fold (basicAuthRequest w clientId code codeVerifier redirectUri).
  fold second. rewrite requests_snoc, H2, Hok2. simpl.
  unfold json. rewrite <- app_assoc.
  destruct (bodyJson r2); try reflexivity. contradiction.
Qed.

Lemma exchangeCodeForTokens_retry_succeeds_witness :
  Auth.exchangeCodeForTokens secondChanceWorld "client" "code" "verifier"
    "https://app/callback" []
  = (Returns (JTokens freshTokens),
     [EvFetch (bodyCredentialRequest "client" "code" "verifier"
                 "https://app/callback");
      EvFetch (basicAuthRequest secondChanceWorld "client" "code" "verifier"
                 "https://app/callback")]).
Proof.
  apply (exchangeCodeForTokens_retry_succeeds secondChanceWorld "client" "code"
           "verifier" "https://app/callback" []
           (mkResponse 401 "" JInvalid)
           (mkResponse 200 "" (JTokens freshTokens))).
  - reflexivity.
  - reflexivity.
  - reflexivity.
  - reflexivity.
  - discriminate.
Defined.

(** An error body that is not JSON is reported as the code
    [invalid_response] with the raw body as description; a JSON body
    without [error] and [error_description] is reported as
    "Unknown error". *)
Lemma exchangeCodeForTokens_error_message_fallbacks
    (w : World) (clientId code codeVerifier redirectUri : string)
    (tr : list Event) (r1 : Response) :
  let first := bodyCredentialRequest clientId code codeVerifier redirectUri in
  net w (length (requests tr)) first = Resp r1 ->
  status r1 <> 401 ->
  ok r1 = false ->
  (JSON_parse w (bodyText r1) = ParseThrows -> bodyText r1 <> ""%string ->
   fst (Auth.exchangeCodeForTokens w clientId code codeVerifier redirectUri tr)
     = Throws (newError ("Token exchange failed: invalid_response - "
                         ++ bodyText r1)%string)) /\
  (JSON_parse w (bodyText r1) = ParsedObject None None ->
   fst (Auth.exchangeCodeForTokens w clientId code codeVerifier redirectUri tr)
     = Throws (newError "Token exchange failed: Unknown error")).
Proof.
  intros first H1 Hs Hok.
  assert (Hno : negb (ok r1) && (status r1 =? 401) = false).
  { destruct (Z.eqb_spec (status r1) 401); [contradiction|].
    apply andb_false_r. }
  unfold Auth.exchangeCodeForTokens, bind, fetch.
  fold (bodyCredentialRequest clientId code codeVerifier redirectUri).
  fold first. rewrite H1, Hno.
  change (ret r1 (tr ++ [EvFetch first])) with (Returns r1, tr ++ [EvFetch first]).
  cbv beta iota. rewrite Hok. simpl.
  unfold Auth.parseErrorBody.
  split.
  - intros Hp Hne. rewrite Hp. unfold or_str.
    rewrite (truthy_Some _ Hne). reflexivity.
  - intros Hp. rewrite Hp. reflexivity.
Qed.

Lemma exchangeCodeForTokens_error_message_fallbacks_witness :
  fst (Auth.exchangeCodeForTokens badRequestWorld "client" "code" "verifier"
         "https://app/callback" [])
  = Throws (newError "Token exchange failed: invalid_response - not json").
Proof.
  apply (proj1 (exchangeCodeForTokens_error_message_fallbacks badRequestWorld
                  "client" "code" "verifier" "https://app/callback" []
                  (mkResponse 400 "not json" JInvalid) eq_refl
                  ltac:(discriminate) eq_refl)).
  - reflexivity.
  - discriminate.
Defined.

Lemma refreshAccessToken_trace
    (w : World) (refreshToken clientId : string) (tr : list Event) :
  snd (Auth.refreshAccessToken w refreshToken clientId tr)
    = tr ++ [EvFetch (refreshRequest refreshToken clientId)].
Proof.
  unfold Auth.refreshAccessToken, bind, fetch.
  fold (refreshRequest refreshToken clientId).
  destruct (net w (length (requests tr)) (refreshRequest refreshToken clientId))
    as [e|r]; [reflexivity|].
  destruct (ok r); simpl.
  - unfold json. destruct (bodyJson r); reflexivity.
  - destruct (Auth.parseErrorBody w (bodyText r)); reflexivity.
Qed.

(** X4. [refreshAccessToken] sends exactly one request, the refresh
    grant, whatever the answer; a non-2xx answer whose body carries an
    error code makes it throw an [AuthenticationError] that names the
    code and drops the description. *)
Theorem refreshAccessToken_single_request
    (w : World) (refreshToken clientId : string) (tr : list Event) :
  snd (Auth.refreshAccessToken w refreshToken clientId tr)
    = tr ++ [EvFetch (refreshRequest refreshToken clientId)] /\
  forall r c d,
    net w (length (requests tr)) (refreshRequest refreshToken clientId) = Resp r ->
    ok r = false ->
    JSON_parse w (bodyText r) = ParsedObject (Some c) d ->
    c <> ""%string ->
    fst (Auth.refreshAccessToken w refreshToken clientId tr)
      = Throws (newAuthenticationError ("Token refresh failed: " ++ c)%string).
Proof.
  split; [apply refreshAccessToken_trace|].
  unfold Auth.refreshAccessToken, bind, fetch.
  fold (refreshRequest refreshToken clientId).
  - intros r c d H Hok Hp Hc. rewrite H, Hok. simpl.
    unfold Auth.parseErrorBody. rewrite Hp. unfold or_str.
    rewrite (truthy_Some c Hc). reflexivity.
Qed.

Lemma refreshAccessToken_single_request_witness :
  fst (Auth.refreshAccessToken rejectingWorld "refresh" "client" [])
  = Throws (newAuthenticationError "Token refresh failed: invalid_client").
Proof.
  apply (proj2 (refreshAccessToken_single_request rejectingWorld "refresh"
                  "client" [])
           (mkResponse 401 "{...}" JInvalid) "invalid_client"
           (Some "Invalid client"%string)).
  - reflexivity.
  - reflexivity.
  - reflexivity.
  - discriminate.
Defined.

(** ** Token validation *)

Lemma requests_decode (tr : list Event) (tok : string) :
  requests (tr ++ [EvDecode tok]) = requests tr.
Proof.
  rewrite requests_app. simpl. apply app_nil_r.
Qed.

Section EnsureValid.
Context (w : World) (tokenData : TokenResponse) (accessToken : string)
        (tr : list Event).
Hypothesis Haccess : access_token tokenData = Some accessToken.
Hypothesis Hnonempty : accessToken <> ""%string.

Lemma ensureValidToken_after_check :
  Auth.ensureValidToken w (Some tokenData) tr =
  (if negb (Auth.isTokenExpired w accessToken) then
     ret (Some accessToken)
   else if negb (truthy (refresh_token tokenData)) then
     throw (newAuthenticationError "Token expired and no refresh token available")
   else if negb (truthy (YOTO_CLIENT_ID w)) then
     throw (newConfigurationError "YOTO_CLIENT_ID not configured")
   else
     try_catch
       (refreshedTokens <-
          Auth.refreshAccessToken w (show_str (refresh_token tokenData))
            (show_str (YOTO_CLIENT_ID w)) ;;
        match refreshedTokens with
        | JTokens t => ret (access_token t)
        | JNull => throw (newTypeError
            "Cannot read properties of null (reading 'access_token')")
        | _ => ret None
        end)
       (fun _ => throw (newAuthenticationError
          "Token refresh failed - please re-authenticate")))
    (tr ++ [EvDecode accessToken]).
Proof.
  unfold Auth.ensureValidToken, Auth.field.
  rewrite Haccess, (truthy_Some accessToken Hnonempty). simpl negb.
  cbv beta iota.
  unfold Auth.checkExpired, bind at 1, bind at 1, emit. simpl show_str.
  unfold ret at 1. cbv beta iota. reflexivity.
Qed.

End EnsureValid.

(** X5. With an expired access token, a refresh token and a configured
    client id, [ensureValidToken] sends one refresh request; when it is
    answered 2xx with tokens, the access token of the answer is
    returned. *)
Theorem ensureValidToken_refreshes
    (w : World) (tokenData : TokenResponse)
    (accessToken refreshToken clientId : string)
    (tr : list Event) (r : Response) (t : TokenResponse) :
  access_token tokenData = Some accessToken -> accessToken <> ""%string ->
  Auth.isTokenExpired w accessToken = true ->
  refresh_token tokenData = Some refreshToken -> refreshToken <> ""%string ->
  YOTO_CLIENT_ID w = Some clientId -> clientId <> ""%string ->
  net w (length (requests tr)) (refreshRequest refreshToken clientId) = Resp r ->
  ok r = true ->
  bodyJson r = JTokens t ->
  Auth.ensureValidToken w (Some tokenData) tr =
    (Returns (access_token t),
     tr ++ [EvDecode accessToken;
            EvFetch (refreshRequest refreshToken clientId)]).
Proof.
  intros Ha Hne Hexp Hr Hrne Hc Hcne Hnet Hok Hb.
  rewrite (ensureValidToken_after_check w tokenData accessToken tr Ha Hne).
  rewrite Hexp, Hr, Hc, (truthy_Some _ Hrne), (truthy_Some _ Hcne).
  cbn [negb]; cbv beta iota.
  change (show_str (Some refreshToken)) with refreshToken.
  change (show_str (Some clientId)) with clientId.
  unfold try_catch, bind, Auth.refreshAccessToken, bind, fetch. cbv beta.
  fold (refreshRequest refreshToken clientId).
  rewrite requests_decode, Hnet, Hok. simpl. unfold json. rewrite Hb.
  rewrite <- app_assoc. reflexivity.
Qed.

Lemma ensureValidToken_refreshes_witness :
  Auth.ensureValidToken refreshingWorld
    (Some (mkTokens (Some "stale") (Some "refresh") None None)) [] =
  (Returns (Some "new-access"%string),
   [EvDecode "stale"; EvFetch (refreshRequest "refresh" "client-id")]).
Proof.
  apply (ensureValidToken_refreshes refreshingWorld
           (mkTokens (Some "stale") (Some "refresh") None None)
           "stale" "refresh" "client-id" []
           (mkResponse 200 "" (JTokens freshTokens)) freshTokens);
    try reflexivity; discriminate.
Defined.

(** X6. Whatever the token data and the network, [ensureValidToken]
    sends at most one request, and that a token request; what it throws
    is an [AuthenticationError] or a [ConfigurationError], never the
    error of the refresh itself. *)
Theorem ensureValidToken_errors_and_traffic
    (w : World) (tokenData : option TokenResponse) (tr : list Event) :
  (exists added,
     snd (Auth.ensureValidToken w tokenData tr) = tr ++ added /\
     (length (requests added) <= 1)%nat /\
     Forall (fun e => isTokenRequest e = true) (map EvFetch (requests added))) /\
  match fst (Auth.ensureValidToken w tokenData tr) with
  | Returns _ => True
  | Throws e =>
      err_class e = AuthenticationError \/ err_class e = ConfigurationError
  end.
Proof.
  destruct (truthy (Auth.field tokenData access_token)) eqn:Ht.
  - destruct tokenData as [tokenData|]; [|discriminate].
    destruct (truthy_inv _ Ht) as [accessToken [Ha Hne]]. simpl in Ha.
    rewrite (ensureValidToken_after_check w tokenData accessToken tr Ha Hne).
    assert (Quiet : forall o : Outcome (option string),
               exists added,
                 snd (o, tr ++ [EvDecode accessToken]) = tr ++ added /\
                 (length (requests added) <= 1)%nat /\
                 Forall (fun e => isTokenRequest e = true)
                        (map EvFetch (requests added))).
    { intros o. exists [EvDecode accessToken]. simpl.
      repeat split; [lia|constructor]. }
    destruct (Auth.isTokenExpired w accessToken); cbn [negb]; cbv beta iota.
    2:{ split; [apply Quiet|exact I]. }
    destruct (truthy (refresh_token tokenData)); cbn [negb]; cbv beta iota.
    2:{ split; [apply Quiet|]. left. reflexivity. }
    destruct (truthy (YOTO_CLIENT_ID w)); cbn [negb]; cbv beta iota.
    2:{ split; [apply Quiet|]. right. reflexivity. }
    unfold try_catch, bind.
    pose proof (refreshAccessToken_trace w
                  (show_str (refresh_token tokenData))
                  (show_str (YOTO_CLIENT_ID w))
                  (tr ++ [EvDecode accessToken])) as Hone.
    destruct (Auth.refreshAccessToken w _ _ (tr ++ [EvDecode accessToken]))
      as [[refreshed|e] tr1]; simpl in Hone; subst tr1.
    + assert (Busy : forall o : Outcome (option string),
                 exists added,
                   snd (o, (tr ++ [EvDecode accessToken]) ++
                           [EvFetch (refreshRequest
                                       (show_str (refresh_token tokenData))
                                       (show_str (YOTO_CLIENT_ID w)))])
                     = tr ++ added /\
                   (length (requests added) <= 1)%nat /\
                   Forall (fun e => isTokenRequest e = true)
                          (map EvFetch (requests added))).
      { intros o. eexists. rewrite <- app_assoc. split; [reflexivity|].
        simpl. split; [lia|]. repeat constructor. }
      destruct refreshed; unfold ret, throw; cbv beta iota;
        (split; [apply Busy|]); simpl; try exact I.
      left. reflexivity.
    + unfold throw. simpl. split.
      * eexists. rewrite <- app_assoc. split; [reflexivity|].
        simpl. split; [lia|]. repeat constructor.
      * left. reflexivity.
  - unfold Auth.ensureValidToken. rewrite Ht. simpl. split.
    + exists []. rewrite app_nil_r. repeat split; [simpl; lia|constructor].
    + left. reflexivity.
Qed.

(** With an expired access token and a refresh token, a missing or
    empty [YOTO_CLIENT_ID] makes [ensureValidToken] throw a
    [ConfigurationError] before any request is sent. *)
Lemma ensureValidToken_unconfigured
    (w : World) (tokenData : TokenResponse) (accessToken : string)
    (tr : list Event) :
  access_token tokenData = Some accessToken -> accessToken <> ""%string ->
  Auth.isTokenExpired w accessToken = true ->
  truthy (refresh_token tokenData) = true ->
  truthy (YOTO_CLIENT_ID w) = false ->
  Auth.ensureValidToken w (Some tokenData) tr =
    (Throws (newConfigurationError "YOTO_CLIENT_ID not configured"),
     tr ++ [EvDecode accessToken]).
Proof.
  intros Ha Hne Hexp Hr Hc.
  rewrite (ensureValidToken_after_check w tokenData accessToken tr Ha Hne).
  rewrite Hexp, Hr, Hc. reflexivity.
Qed.

Lemma ensureValidToken_unconfigured_witness :
  Auth.ensureValidToken unconfiguredWorld
    (Some (mkTokens (Some "stale") (Some "refresh") None None)) [] =
  (Throws (newConfigurationError "YOTO_CLIENT_ID not configured"),
   [EvDecode "stale"]).
Proof.
  apply (ensureValidToken_unconfigured unconfiguredWorld
           (mkTokens (Some "stale") (Some "refresh") None None) "stale" []);
    try reflexivity; discriminate.
Defined.

(** X7. A token that decodes to a payload without an [exp] claim is not
    reported as expired ([NaN <= x] is false), so [ensureValidToken]
    hands it back without a refresh, whatever the clock says. *)
Theorem ensureValidToken_without_exp_claim
    (w : World) (tokenData : TokenResponse) (accessToken : string)
    (tr : list Event) :
  access_token tokenData = Some accessToken -> accessToken <> ""%string ->
  jwtDecode w accessToken = Some (mkJWT None) ->
  Auth.isTokenExpired w accessToken = false /\
  Auth.ensureValidToken w (Some tokenData) tr =
    (Returns (Some accessToken), tr ++ [EvDecode accessToken]).
Proof.
  intros Ha Hne Hd.
  assert (Hexp : Auth.isTokenExpired w accessToken = false).
  { unfold Auth.isTokenExpired. rewrite Hd. reflexivity. }
  split; [exact Hexp|].
  rewrite (ensureValidToken_after_check w tokenData accessToken tr Ha Hne).
  rewrite Hexp. reflexivity.
Qed.

Lemma ensureValidToken_without_exp_claim_witness :
  Auth.isTokenExpired noExpWorld "open" = false /\
  Auth.ensureValidToken noExpWorld
    (Some (mkTokens (Some "open") None None None)) [] =
  (Returns (Some "open"%string), [EvDecode "open"]).
Proof.
  apply (ensureValidToken_without_exp_claim noExpWorld
           (mkTokens (Some "open") None None None) "open" []);
    try reflexivity; discriminate.
Defined.

(** Expiry is monotone in the clock: a token reported as expired
    stays expired at every later time. *)
Lemma isTokenExpired_monotone (w1 w2 : World) (accessToken : string) :
  jwtDecode w1 accessToken = jwtDecode w2 accessToken ->
  now w1 <= now w2 ->
  Auth.isTokenExpired w1 accessToken = true ->
  Auth.isTokenExpired w2 accessToken = true.
Proof.
  unfold Auth.isTokenExpired. intros Hd Hn.
  rewrite <- Hd.
  destruct (jwtDecode w1 accessToken) as [[[e|]]|]; try tauto.
  cbv zeta. intros H. apply Z.leb_le in H. apply Z.leb_le. lia.
Qed.

Lemma isTokenExpired_monotone_witness :
  Auth.isTokenExpired laterWorld "edge" = true.
Proof.
  apply (isTokenExpired_monotone clockWorld laterWorld "edge").
  - reflexivity.
  - simpl. lia.
  - reflexivity.
Defined.

(** ** Traces of composed computations *)

Section Emits.
Context {A B : Type} (P : Event -> bool).

Lemma emits_ret (n : nat) (a : A) : emits P n (ret a).
Proof.
  intros tr. exists []. simpl. rewrite app_nil_r.
  repeat split; [constructor|lia].
Qed.

Lemma emits_throw (n : nat) (e : JSError) : emits P n (@throw A e).
Proof.
  intros tr. exists []. simpl. rewrite app_nil_r.
  repeat split; [constructor|lia].
Qed.

Lemma emits_lift (n : nat) (o : Outcome A) : emits P n (lift o).
Proof.
  intros tr. exists []. simpl. rewrite app_nil_r.
  repeat split; [constructor|lia].
Qed.

Lemma emits_mono (n n' : nat) (m : M A) :
  (n <= n')%nat -> emits P n m -> emits P n' m.
Proof.
  intros Hle H tr. destruct (H tr) as [added [E [F L]]].
  exists added. repeat split; [assumption|assumption|lia].
Qed.

Lemma emits_bind (n k : nat) (m : M A) (f : A -> M B) :
  emits P n m -> (forall a, emits P k (f a)) -> emits P (n + k) (bind m f).
Proof.
  intros Hm Hf tr. unfold bind.
  destruct (Hm tr) as [added [E [F L]]].
  destruct (m tr) as [[a|e] tr1]; simpl in E; subst tr1.
  - destruct (Hf a (tr ++ added)) as [added' [E' [F' L']]].
    exists (added ++ added'). rewrite E', app_assoc.
    repeat split; [apply Forall_app; split; assumption|].
    rewrite requests_app, length_app. lia.
  - exists added. repeat split; [assumption|lia].
Qed.

Lemma emits_try_catch (n k : nat) (m : M A) (h : JSError -> M A) :
  emits P n m -> (forall e, emits P k (h e)) -> emits P (n + k) (try_catch m h).
Proof.
  intros Hm Hh tr. unfold try_catch.
  destruct (Hm tr) as [added [E [F L]]].
  destruct (m tr) as [[a|e] tr1]; simpl in E; subst tr1.
  - exists added. repeat split; [assumption|lia].
  - destruct (Hh e (tr ++ added)) as [added' [E' [F' L']]].
    exists (added ++ added'). rewrite E', app_assoc.
    repeat split; [apply Forall_app; split; assumption|].
    rewrite requests_app, length_app. lia.
Qed.

End Emits.

Lemma emits_weaken {A} (P Q : Event -> bool) (n : nat) (m : M A) :
  (forall e, P e = true -> Q e = true) -> emits P n m -> emits Q n m.
Proof.
  intros HPQ H tr. destruct (H tr) as [added [E [F L]]].
  exists added. repeat split; [assumption| |assumption].
  eapply Forall_impl; [|exact F]. exact HPQ.
Qed.

Lemma emits_emit (P : Event -> bool) (n : nat) (e : Event) :
  P e = true -> is_fetch e = false -> emits P n (emit e).
Proof.
  intros HP Hf tr. exists [e]. unfold emit. simpl.
  repeat split; [repeat constructor; assumption|].
  destruct e; try discriminate; simpl; lia.
Qed.

Lemma emits_fetch (P : Event -> bool) (n : nat) (w : World) (req : Request) :
  P (EvFetch req) = true -> emits P (S n) (fetch w req).
Proof.
  intros HP tr. exists [EvFetch req]. unfold fetch.
  destruct (net w (length (requests tr)) req); simpl;
    (repeat split; [repeat constructor; assumption|lia]).
Qed.

Lemma emits_json (P : Event -> bool) (n : nat) (r : Response) :
  emits P n (json r).
Proof.
  unfold json. destruct (bodyJson r); apply emits_ret || apply emits_throw.
Qed.

(** A request followed by a continuation. *)
Lemma emits_then_fetch {B} (P : Event -> bool) (n : nat) (w : World)
    (req : Request) (k : Response -> M B) :
  P (EvFetch req) = true ->
  (forall r, emits P n (k r)) ->
  emits P (S n) (bind (fetch w req) k).
Proof.
  intros HP Hk. change (S n) with (1 + n)%nat.
  apply emits_bind; [apply emits_fetch; exact HP|exact Hk].
Qed.

(** A step without requests followed by a continuation. *)
Lemma emits_then {A B} (P : Event -> bool) (n : nat) (m : M A) (k : A -> M B) :
  emits P 0 m -> (forall a, emits P n (k a)) -> emits P n (bind m k).
Proof.
  intros Hm Hk. change n with (0 + n)%nat. apply emits_bind; assumption.
Qed.

Ltac emits_leaf :=
  first [ apply emits_ret | apply emits_throw | apply emits_lift
        | apply emits_json ].

Ltac emits_step :=
  match goal with
  | |- emits _ _ (ret _) => apply emits_ret
  | |- emits _ _ (throw _) => apply emits_throw
  | |- emits _ _ (lift _) => apply emits_lift
  | |- emits _ _ (json _) => apply emits_json
  | |- emits _ (S _) (bind (fetch _ _) _) =>
      apply emits_then_fetch; [reflexivity|intros ?]
  | |- emits _ _ (bind (json _) _) =>
      apply emits_then; [apply emits_json|intros ?]
  | |- emits _ _ (if ?c then _ else _) => destruct c
  | |- emits _ _ (match ?x with _ => _ end) => destruct x
  end.

(** ** Card selection *)

Lemma insertCard_perm (x : Card) (l : list Card) :
  Permutation (Library.insertCard x l) (x :: l).
Proof.
  induction l as [|y l IH]; simpl; [reflexivity|].
  destruct (Library.compareCreatedAt x y) as [d|]; [|reflexivity].
  destruct (0 <? d); [|reflexivity].
  rewrite IH. apply perm_swap.
Qed.

Lemma compareCreatedAt_dated (x y : Card) :
  hasCreatedAt x = true -> hasCreatedAt y = true ->
  Library.compareCreatedAt x y = Some (createdAtOr 0 y - createdAtOr 0 x).
Proof.
  unfold hasCreatedAt, createdAtOr, Library.compareCreatedAt.
  destruct (card_createdAt x), (card_createdAt y); try discriminate.
  reflexivity.
Qed.

Lemma insertCard_sorted (x : Card) (l : list Card) :
  hasCreatedAt x = true ->
  Forall (fun c => hasCreatedAt c = true) l ->
  StronglySorted (fun a b => createdAtOr 0 b <= createdAtOr 0 a) l ->
  StronglySorted (fun a b => createdAtOr 0 b <= createdAtOr 0 a)
                 (Library.insertCard x l).
Proof.
  intros Hx Hl Hs. induction Hs as [|y l Hs IH Hy]; simpl.
  - constructor; constructor.
  - inversion Hl as [|? ? Hdy Hdl]; subst.
    rewrite (compareCreatedAt_dated x y Hx Hdy).
    destruct (Z.ltb_spec 0 (createdAtOr 0 y - createdAtOr 0 x)) as [Hlt|Hge].
    + constructor; [apply IH; assumption|].
      rewrite (insertCard_perm x l). constructor; [lia|assumption].
    + constructor; [constructor; assumption|].
      constructor; [lia|].
      eapply Forall_impl; [|exact Hy]. simpl. intros c Hc. lia.
Qed.

Lemma sortCards_perm (cards : list Card) :
  Permutation (Library.sortCards cards) cards.
Proof.
  induction cards as [|x l IH]; simpl; [reflexivity|].
  rewrite insertCard_perm, IH. reflexivity.
Qed.

(** X8. The sort of [getHeroCard] loses and duplicates no card, and
    when every card has a valid [createdAt] its result is ordered from
    the most recent to the oldest. *)
Theorem sortCards_sorts (cards : list Card) :
  Permutation (Library.sortCards cards) cards /\
  (Forall (fun c => hasCreatedAt c = true) cards ->
   StronglySorted (fun a b => createdAtOr 0 b <= createdAtOr 0 a)
                  (Library.sortCards cards)).
Proof.
  split; [apply sortCards_perm|].
  intros H. induction H as [|x l Hx Hl IH]; simpl; [constructor|].
  apply insertCard_sorted; [assumption| |assumption].
  rewrite (sortCards_perm l). assumption.
Qed.

Lemma sortCards_sorts_witness :
  StronglySorted (fun a b => createdAtOr 0 b <= createdAtOr 0 a)
    (Library.sortCards [datedCard "january" 1704067200000;
                        datedCard "june" 1717200000000]).
Proof.
  apply (proj2 (sortCards_sorts [datedCard "january" 1704067200000;
                                 datedCard "june" 1717200000000])).
  repeat constructor.
Defined.

(** X9. With valid dates throughout, the card selected (the head of
    the sorted list) is the first card of the list whose [createdAt] is
    the latest: every card before it is strictly older, every card after
    it is not more recent. *)
Theorem sortCards_selects_first_most_recent
    (cards : list Card) (c : Card) (rest : list Card) :
  Forall (fun c => hasCreatedAt c = true) cards ->
  Library.sortCards cards = c :: rest ->
  exists before after,
    cards = before ++ c :: after /\
    Forall (fun c' => createdAtOr 0 c' < createdAtOr 0 c) before /\
    Forall (fun c' => createdAtOr 0 c' <= createdAtOr 0 c) after.
Proof.
  intros H. revert c rest.
  induction H as [|x l Hx Hl IH]; intros c rest Hs; [discriminate|].
  simpl in Hs.
  destruct (Library.sortCards l) as [|c' rest'] eqn:El.
  - simpl in Hs. injection Hs as <- <-.
    assert (l = []) as ->.
    { apply Permutation_nil. rewrite <- El.
      apply sortCards_perm. }
    exists [], []. repeat split; constructor.
  - destruct (IH c' rest' eq_refl) as [before [after [E [Hb Ha]]]].
    assert (Hc' : hasCreatedAt c' = true).
    { rewrite Forall_forall in Hl. apply Hl. rewrite E.
      apply in_or_app. right. left. reflexivity. }
    simpl in Hs. rewrite (compareCreatedAt_dated x c' Hx Hc') in Hs.
    destruct (Z.ltb_spec 0 (createdAtOr 0 c' - createdAtOr 0 x)) as [Hlt|Hge].
    + injection Hs as <- <-.
      exists (x :: before), after. rewrite E.
      repeat split; [constructor; [lia|assumption]|assumption].
    + injection Hs as <- <-.
      exists [], l. repeat split; [constructor|].
      rewrite E. apply Forall_app. split.
      * eapply Forall_impl; [|exact Hb]. simpl. intros a Ha'. lia.
      * constructor; [lia|].
        eapply Forall_impl; [|exact Ha]. simpl. intros a Ha'. lia.
Qed.

Lemma sortCards_selects_first_most_recent_witness :
  exists before after,
    [datedCard "january" 1704067200000; datedCard "june" 1717200000000]
      = before ++ datedCard "june" 1717200000000 :: after /\
    Forall (fun c' => createdAtOr 0 c' < 1717200000000) before /\
    Forall (fun c' => createdAtOr 0 c' <= 1717200000000) after.
Proof.
  apply (sortCards_selects_first_most_recent
           [datedCard "january" 1704067200000; datedCard "june" 1717200000000]
           (datedCard "june" 1717200000000)
           [datedCard "january" 1704067200000]).
  - repeat constructor.
  - reflexivity.
Defined.

(** *** The sort as [getHeroCard] applies it *)

Lemma sortByCreatedAt_consistent (w : World) (cards : list Card) :
  Library.consistentOrder cards = true ->
  Library.sortByCreatedAt w cards = Library.sortCards cards.
Proof. intros H. unfold Library.sortByCreatedAt. rewrite H. reflexivity. Qed.

(** With valid dates throughout the comparator is consistent and the
    sort is the stable one, whatever the engine. *)
Lemma sortByCreatedAt_dated (w : World) (cards : list Card) :
  Forall (fun c => hasCreatedAt c = true) cards ->
  Library.sortByCreatedAt w cards = Library.sortCards cards.
Proof.
  intros H. apply sortByCreatedAt_consistent.
  unfold Library.consistentOrder.
  assert (E : Library.allDated cards = true).
  { induction H as [|x l Hx Hl IH]; [reflexivity|].
    simpl. unfold hasCreatedAt in Hx.
    destruct (card_createdAt x); [exact IH|discriminate]. }
  rewrite E. reflexivity.
Qed.

Lemma sameTimes_tail (t : Z) (ts : list Z) :
  Library.sameTimes (t :: ts) = true -> Library.sameTimes ts = true.
Proof.
  destruct ts as [|t' ts']; [reflexivity|]. simpl.
  intros H. apply andb_prop in H. destruct H as [Ht H].
  apply Z.eqb_eq in Ht. subst t'. exact H.
Qed.

(** When the dated cards all have the same time, every comparison is
    zero or [NaN] and the stable sort leaves the array as it is. *)
Lemma sortCards_same_times (cards : list Card) :
  Library.sameTimes (Library.datedTimes cards) = true ->
  Library.sortCards cards = cards.
Proof.
  induction cards as [|x l IH]; [reflexivity|].
  intros H. simpl.
  assert (Hl : Library.sameTimes (Library.datedTimes l) = true).
  { unfold Library.datedTimes in H |- *. simpl in H.
    destruct (card_createdAt x); [apply (sameTimes_tail z); exact H|exact H]. }
  rewrite (IH Hl).
  destruct l as [|y l']; [reflexivity|].
  simpl. unfold Library.compareCreatedAt.
  destruct (card_createdAt y) as [ty|] eqn:Ey; [|reflexivity].
  destruct (card_createdAt x) as [tx|] eqn:Ex; [|reflexivity].
  unfold Library.datedTimes in H. simpl in H. rewrite Ex, Ey in H.
  simpl in H. apply andb_prop in H. destruct H as [Ht _].
  apply Z.eqb_eq in Ht. subst ty. rewrite Z.sub_diag. reflexivity.
Qed.

Lemma datedTimes_In (t : Z) (cards : list Card) :
  In t (Library.datedTimes cards) <->
  exists c, In c cards /\ card_createdAt c = Some t.
Proof.
  unfold Library.datedTimes. rewrite in_flat_map. split.
  - intros [c [Hc Ht]]. exists c. split; [exact Hc|].
    destruct (card_createdAt c) as [t'|]; [|destruct Ht].
    destruct Ht as [<-|[]]. reflexivity.
  - intros [c [Hc Ht]]. exists c. split; [exact Hc|].
    rewrite Ht. left. reflexivity.
Qed.

Lemma sameTimes_iff (ts : list Z) :
  Library.sameTimes ts = true <->
  (forall t1 t2, In t1 ts -> In t2 ts -> t1 = t2).
Proof.
  destruct ts as [|t ts]; simpl.
  - split; [intros _ t1 t2 []|reflexivity].
  - rewrite forallb_forall. split.
    + intros H t1 t2 H1 H2.
      assert (E : forall x, t = x \/ In x ts -> x = t).
      { intros x [<-|Hx]; [reflexivity|].
        symmetry. apply Z.eqb_eq. apply H. exact Hx. }
      rewrite (E t1 H1), (E t2 H2). reflexivity.
    + intros H x Hx. apply Z.eqb_eq. apply H; [left; reflexivity|right; exact Hx].
Qed.

Lemma allDated_false (cards : list Card) :
  Library.allDated cards = false ->
  exists u, In u cards /\ card_createdAt u = None.
Proof.
  induction cards as [|x l IH]; simpl; [discriminate|].
  destruct (card_createdAt x) eqn:Ex.
  - intros H. destruct (IH H) as [u [Hu Hn]].
    exists u. split; [right; exact Hu|exact Hn].
  - intros _. exists x. split; [left; reflexivity|exact Ex].
Qed.

Lemma allDated_In (cards : list Card) (c : Card) :
  Library.allDated cards = true -> In c cards ->
  exists t, card_createdAt c = Some t.
Proof.
  unfold Library.allDated. rewrite forallb_forall. intros H Hc.
  specialize (H c Hc). destruct (card_createdAt c) as [t|]; [|discriminate].
  exists t. reflexivity.
Qed.

(** [consistentOrder] is the condition of the language standard: the
    comparator is a consistent comparator on the array exactly when
    ranking equal is transitive on it (its other conditions hold for
    every array, the comparator being a difference of times). *)
Lemma consistentOrder_iff (cards : list Card) :
  Library.consistentOrder cards = true <->
  (forall a b c, In a cards -> In b cards -> In c cards ->
                 comparesEqual a b = true -> comparesEqual b c = true ->
                 comparesEqual a c = true).
Proof.
  unfold Library.consistentOrder. split.
  - intros H a b c Ha Hb Hc. unfold comparesEqual, Library.compareCreatedAt.
    destruct (card_createdAt a) as [ta|] eqn:Ea;
      [|destruct (card_createdAt c); reflexivity].
    destruct (card_createdAt c) as [tc|] eqn:Ec;
      [|destruct (card_createdAt b); intros; reflexivity].
    apply orb_prop in H. destruct H as [H|H].
    + destruct (allDated_In cards b H Hb) as [tb ->].
      intros H1 H2. apply Z.eqb_eq in H1, H2. apply Z.eqb_eq. lia.
    + intros _ _. apply Z.eqb_eq.
      rewrite sameTimes_iff in H.
      rewrite (H ta tc); [lia| |]; apply datedTimes_In;
        [exists a|exists c]; split; assumption.
  - intros H. destruct (Library.allDated cards) eqn:Ed; [reflexivity|].
    simpl. destruct (allDated_false cards Ed) as [u [Hu Hn]].
    apply sameTimes_iff. intros t1 t2 H1 H2.
    apply datedTimes_In in H1, H2.
    destruct H1 as [a [Ha Eat]]. destruct H2 as [c [Hc Ect]].
    specialize (H c u a Hc Hu Ha).
    unfold comparesEqual, Library.compareCreatedAt in H.
    rewrite Hn, Eat, Ect in H.
    specialize (H eq_refl eq_refl). apply Z.eqb_eq in H. lia.
Qed.

Lemma insertPlaced_perm (x : nat * Card) (l : list (nat * Card)) :
  Permutation (Library.insertPlaced x l) (x :: l).
Proof.
  induction l as [|y l IH]; simpl; [reflexivity|].
  destruct (fst y <? fst x)%nat; [|reflexivity].
  rewrite IH. apply perm_swap.
Qed.

Lemma map_snd_combine (A B : Type) (l1 : list A) (l2 : list B) :
  length l1 = length l2 -> map snd (combine l1 l2) = l2.
Proof.
  revert l2. induction l1 as [|a l1 IH]; intros [|b l2] H;
    try discriminate; [reflexivity|].
  simpl. rewrite IH; [reflexivity|]. simpl in H. lia.
Qed.

Lemma arrange_perm (place : nat -> nat) (cards : list Card) :
  Permutation (Library.arrange place cards) cards.
Proof.
  unfold Library.arrange.
  assert (P : forall l : list (nat * Card),
             Permutation (fold_right Library.insertPlaced [] l) l).
  { induction l as [|x l IH]; simpl; [reflexivity|].
    rewrite insertPlaced_perm, IH. reflexivity. }
  rewrite (Permutation_map snd (P _)).
  rewrite map_snd_combine; [reflexivity|].
  rewrite length_map, length_seq. reflexivity.
Qed.

(** Whatever the engine does with an array it cannot sort consistently,
    the sort loses and duplicates no card. *)
Lemma sortByCreatedAt_perm (w : World) (cards : list Card) :
  Permutation (Library.sortByCreatedAt w cards) cards.
Proof.
  unfold Library.sortByCreatedAt.
  destruct (Library.consistentOrder cards);
    [apply sortCards_perm|apply arrange_perm].
Qed.

(** ** Card lookup, continued *)

(** With a hero card that has no valid [createdAt] beside dated ones,
    the card selected is the engine's choice: an engine that sorts as
    V8 does asks for the detail of june, one that leaves the array as
    it is asks for january's. *)
Example getHeroCard_undated_card :
  heroCards (mixedWorld runThenInsert) mixedCards =
    [datedCard "june" 1717200000000; datedCard "march" 1709251200000;
     datedCard "january" 1704067200000; undatedCard] /\
  run (Library.getHeroCard (mixedWorld runThenInsert) "token") =
    (Returns (Some (datedCard "june" 1717200000000)),
     [EvFetch (GetContentMine "token");
      EvFetch (GetContent (Some "june"%string) "token")]) /\
  run (Library.getHeroCard (mixedWorld (fun i => i)) "token") =
    (Returns (Some (datedCard "january" 1704067200000)),
     [EvFetch (GetContentMine "token");
      EvFetch (GetContent (Some "january"%string) "token")]).
Proof. repeat split. Qed.

Lemma no_hero_filter (w : World) (cards : list Card) :
  (forall c, In c cards -> card_title c <> Some Library.HERO_CARD_TITLE) ->
  heroCards w cards = [].
Proof.
  intros H. unfold heroCards.
  assert (E : filter (fun card =>
                        match card_title card with
                        | Some t => String.eqb t Library.HERO_CARD_TITLE
                        | None => false
                        end) cards = []).
  { induction cards as [|c l IH]; [reflexivity|]. simpl.
    destruct (card_title c) as [t|] eqn:Et.
    - destruct (String.eqb_spec t Library.HERO_CARD_TITLE) as [->|Hne].
      + exfalso. apply (H c); [left; reflexivity|exact Et].
      + apply IH. intros c' Hc'. apply H. right. exact Hc'.
    - apply IH. intros c' Hc'. apply H. right. exact Hc'. }
  rewrite E. reflexivity.
Qed.

(** X10. When the content list is served and holds no card with the
    exact title "You're The Hero!", [getHeroCard] returns null after
    that single request: no detail is asked for. *)
Theorem getHeroCard_no_hero_card
    (w : World) (accessToken : string) (tr : list Event) (r : Response)
    (cards : list Card) :
  net w (length (requests tr)) (GetContentMine accessToken) = Resp r ->
  ok r = true ->
  bodyJson r = JCards cards ->
  (forall c, In c cards -> card_title c <> Some Library.HERO_CARD_TITLE) ->
  Library.getHeroCard w accessToken tr =
    (Returns None, tr ++ [EvFetch (GetContentMine accessToken)]).
Proof.
  intros Hnet Hok Hb Hnone.
  pose proof (no_hero_filter w cards Hnone) as Hf. unfold heroCards in Hf.
  unfold Library.getHeroCard, try_catch, bind, fetch.
  rewrite Hnet, Hok. simpl. unfold json. rewrite Hb. simpl.
  rewrite Hf. reflexivity.
Qed.

Lemma getHeroCard_no_hero_card_witness :
  Library.getHeroCard otherCardWorld "token" [] =
    (Returns None, [EvFetch (GetContentMine "token")]).
Proof.
  apply (getHeroCard_no_hero_card otherCardWorld "token" []
           (mkResponse 200 ""
              (JCards [mkCard (Some "card-9") None (Some "Bedtime"%string)
                              (Some 1) None None None]))
           [mkCard (Some "card-9") None (Some "Bedtime"%string) (Some 1)
                   None None None]);
    try reflexivity.
  intros c [<-|[]]. discriminate.
Defined.

Lemma ensureCardId_hasId (card : Card) (id : option string) :
  truthy id = true -> hasId (Library.ensureCardId card id) = true.
Proof.
  intros Hid. unfold Library.ensureCardId, hasId.
  destruct (truthy (card_cardId card)) eqn:E1; simpl.
  - rewrite E1. reflexivity.
  - destruct (truthy (card_id card)) eqn:E2; simpl.
    + rewrite E1, E2. reflexivity.
    + rewrite Hid. reflexivity.
Qed.

Lemma or_str_hasId (c : Card) :
  hasId c = true -> truthy (or_str (card_cardId c) (card_id c)) = true.
Proof.
  unfold hasId, or_str. destruct (truthy (card_cardId c)) eqn:E; simpl.
  - intros _. exact E.
  - intros H. exact H.
Qed.

(** X11. The selected card is the first of the hero cards in the
    order the sort of the engine at hand leaves them in ([heroCards w]),
    dated or not.  When its detail is served, [getHeroCard] returns the
    detail, read the same way whether it comes nested under [card] or
    flat; and whenever the selected list entry has a card id, the card
    returned has one too, in the detail case as in the fallback case. *)
Theorem getHeroCard_detail_and_id
    (w : World) (accessToken : string) (tr : list Event) (r : Response)
    (cards : list Card) (c : Card) (rest : list Card) :
  let id := or_str (card_cardId c) (card_id c) in
  net w (length (requests tr)) (GetContentMine accessToken) = Resp r ->
  ok r = true ->
  bodyJson r = JCards cards ->
  heroCards w cards = c :: rest ->
  (forall r2 full,
     net w (S (length (requests tr))) (GetContent id accessToken) = Resp r2 ->
     ok r2 = true ->
     bodyJson r2 = JCardNested full \/ bodyJson r2 = JCardFlat full ->
     Library.getHeroCard w accessToken tr =
       (Returns (Some (Library.ensureCardId full id)),
        tr ++ [EvFetch (GetContentMine accessToken);
               EvFetch (GetContent id accessToken)])) /\
  (hasId c = true ->
   forall found,
     fst (Library.getHeroCard w accessToken tr) = Returns (Some found) ->
     hasId found = true).
Proof.
  intros id Hnet Hok Hb Hsel. unfold heroCards in Hsel.
  assert (Hn : length (requests (tr ++ [EvFetch (GetContentMine accessToken)]))
               = S (length (requests tr))) by apply requests_snoc.
  split.
  - intros r2 full H2 Hok2 Hshape.
    unfold Library.getHeroCard, try_catch, bind, fetch.
    rewrite Hnet, Hok. simpl. unfold json. rewrite Hb. simpl.
    rewrite Hsel. fold id. rewrite Hn, H2, Hok2. rewrite <- app_assoc.
    destruct Hshape as [-> | ->]; reflexivity.
  - intros Hid found.
    pose proof (or_str_hasId c Hid) as Htid. fold id in Htid.
    unfold Library.getHeroCard, try_catch, bind, fetch.
    rewrite Hnet, Hok. simpl. unfold json. rewrite Hb. simpl.
    rewrite Hsel. fold id. rewrite Hn.
    destruct (net w (S (length (requests tr))) (GetContent id accessToken))
      as [e|r2]; [discriminate|].
    destruct (ok r2); simpl.
    + destruct (bodyJson r2); simpl; try discriminate;
        intros H; injection H as <-; apply ensureCardId_hasId; exact Htid.
    + intros H; injection H as <-. apply ensureCardId_hasId. exact Htid.
Qed.

Lemma getHeroCard_detail_and_id_witness :
  Library.getHeroCard detailWorld "token" [] =
    (Returns (Some (Library.ensureCardId heroDetail (Some "card-1"%string))),
     [EvFetch (GetContentMine "token");
      EvFetch (GetContent (Some "card-1"%string) "token")]).
Proof.
  apply (proj1 (getHeroCard_detail_and_id detailWorld "token" []
                  (mkResponse 200 "" (JCards [heroSummary]))
                  [heroSummary] heroSummary []
                  eq_refl eq_refl eq_refl eq_refl)
           (mkResponse 200 "" (JCardNested heroDetail)) heroDetail).
  - reflexivity.
  - reflexivity.
  - left. reflexivity.
Defined.

Lemma getHeroCard_emits (w : World) (accessToken : string) :
  emits isContentRead 2 (Library.getHeroCard w accessToken).
Proof.
  unfold Library.getHeroCard.
  change 2%nat with (2 + 0)%nat.
  apply emits_try_catch; [|intros e; apply emits_ret].
  emits_step. emits_step; [emits_step|].
  emits_step.
  apply emits_then; [emits_step; emits_leaf|intros cards].
  emits_step; [emits_step|].
  emits_step. emits_step; [|emits_step].
  emits_step. apply emits_then; [|intros full; emits_step].
  unfold Library.unwrapCard. emits_step; emits_leaf.
Qed.

(** X12. Whatever the platform answers, [getHeroCard] sends at most two
    requests and both are reads of the content API: it never writes a
    card. *)
Theorem getHeroCard_reads_only (w : World) (accessToken : string) :
  emits isContentRead 2 (Library.getHeroCard w accessToken) /\
  forall tr, writes (snd (Library.getHeroCard w accessToken tr)) = writes tr.
Proof.
  split; [apply getHeroCard_emits|].
  intros tr. destruct (getHeroCard_emits w accessToken tr) as [added [E [F _]]].
  rewrite E. clear E. induction tr as [|e tr IH]; simpl.
  - induction F as [|e l He _ IH]; [reflexivity|].
    destruct e as [[]| | | | |]; try discriminate; exact IH.
  - destruct e as [[]| | | | |]; rewrite IH; reflexivity.
Qed.

(** ** Transcode upload *)

Lemma pollTranscode_emits (w : World) (id : option string) (accessToken : string)
    (remaining : nat) :
  forall attempts,
    emits isUploadTraffic remaining
      (Library.pollTranscode w remaining attempts id accessToken).
Proof.
  induction remaining as [|remaining IH]; intros attempts; simpl.
  - apply emits_ret.
  - emits_step.
    apply emits_then.
    + emits_step; [|emits_leaf].
      emits_step. emits_step; try emits_leaf. emits_step; emits_leaf.
    + intros found. emits_step; [emits_leaf|].
      apply emits_then; [|intros _; apply IH].
      apply emits_emit; reflexivity.
Qed.

Lemma pollTranscode_hash (w : World) (id : option string) (accessToken : string)
    (remaining : nat) :
  forall attempts tr t n tr',
    Library.pollTranscode w remaining attempts id accessToken tr
      = (Returns (Some t, n), tr') ->
    truthy (transcodedSha256 t) = true.
Proof.
  induction remaining as [|remaining IH]; intros attempts tr t n tr'; simpl.
  - discriminate.
  - unfold bind, fetch, json, sleep, emit, ret, throw.
    destruct (net w (length (requests tr)) (GetTranscoded id accessToken))
      as [e|r]; [discriminate|].
    destruct (ok r).
    + destruct (bodyJson r); try discriminate.
      destruct (truthy (transcodedSha256 t0)) eqn:Eh.
      * intros H. injection H as <- _ _. exact Eh.
      * apply IH.
    + apply IH.
Qed.

Lemma waitForTranscoding_emits (w : World) (id : option string)
    (accessToken : string) :
  emits isUploadTraffic 60 (Library.waitForTranscoding w id accessToken).
Proof.
  unfold Library.waitForTranscoding.
  change (Library.maxAttempts - 0)%nat with 60%nat.
  change 60%nat with (60 + 0)%nat at 1.
  apply emits_bind; [apply pollTranscode_emits|].
  intros [[t|] n]; emits_leaf.
Qed.

Lemma waitForTranscoding_hash (w : World) (id : option string)
    (accessToken : string) (tr tr' : list Event) (t : Transcoded) :
  Library.waitForTranscoding w id accessToken tr = (Returns t, tr') ->
  truthy (transcodedSha256 t) = true.
Proof.
  unfold Library.waitForTranscoding, bind.
  destruct (Library.pollTranscode w _ 0 id accessToken tr)
    as [[[[t0|] n]|e] tr1] eqn:E; try discriminate.
  intros H. injection H as <- _.
  apply (pollTranscode_hash w id accessToken _ _ _ _ _ _ E).
Qed.

Lemma uploadAudioToYoto_try_success (w : World) (audioBuffer : list Byte.byte)
    (accessToken : string) (tr tr' : list Event) (res : Library.AudioUploadResult) :
  Library.uploadAudioToYoto_try w audioBuffer accessToken tr = (Returns res, tr') ->
  exists t, res = Library.mkAudioResult true (Some t) None /\
            truthy (transcodedSha256 t) = true.
Proof.
  unfold Library.uploadAudioToYoto_try, bind, fetch, json, ret, throw.
  destruct (net w (length (requests tr)) (GetUploadUrl accessToken))
    as [e|r]; [discriminate|].
  destruct (ok r); simpl; [|discriminate].
  destruct (bodyJson r) as [| | | | | |u| | |]; try discriminate.
  destruct (truthy (uploadUrl u)); simpl; [|discriminate].
  destruct (net w _ (PutAudio _ audioBuffer)) as [e|r2]; [discriminate|].
  destruct (ok r2); simpl; [|discriminate].
  destruct (Library.waitForTranscoding w (uploadId u) accessToken _)
    as [[t|e] tr1] eqn:E; [|discriminate].
  intros H. injection H as <- _. exists t. split; [reflexivity|].
  apply (waitForTranscoding_hash w _ _ _ _ _ E).
Qed.

(** X13. [uploadAudioToYoto] never throws.  A success carries the
    transcode result, whose content hash is not empty, and no error; a
    failure carries an error message and no transcode result. *)
Theorem uploadAudioToYoto_result_shape
    (w : World) (audioBuffer : list Byte.byte) (accessToken : string)
    (tr : list Event) :
  exists res tr',
    Library.uploadAudioToYoto w audioBuffer accessToken tr = (Returns res, tr') /\
    ((exists t, res = Library.mkAudioResult true (Some t) None /\
                truthy (transcodedSha256 t) = true) \/
     (exists msg, res = Library.mkAudioResult false None (Some msg))).
Proof.
  unfold Library.uploadAudioToYoto, try_catch.
  destruct (Library.uploadAudioToYoto_try w audioBuffer accessToken tr)
    as [[res|e] tr'] eqn:E.
  - exists res, tr'. split; [reflexivity|]. left.
    apply (uploadAudioToYoto_try_success w audioBuffer accessToken tr tr' res E).
  - eexists. eexists. split; [reflexivity|]. right. eexists. reflexivity.
Qed.

Lemma uploadAudioToYoto_emits
    (w : World) (audioBuffer : list Byte.byte) (accessToken : string) :
  emits isUploadTraffic 62 (Library.uploadAudioToYoto w audioBuffer accessToken).
Proof.
  unfold Library.uploadAudioToYoto.
  change 62%nat with (62 + 0)%nat.
  apply emits_try_catch; [|intros e; apply emits_ret].
  unfold Library.uploadAudioToYoto_try.
  emits_step. emits_step; [emits_leaf|].
  emits_step. emits_step; try emits_leaf.
  emits_step; [emits_leaf|].
  emits_step. emits_step; [emits_leaf|].
  change 60%nat with (60 + 0)%nat.
  apply emits_bind; [apply waitForTranscoding_emits|intros t; apply emits_ret].
Qed.

(** X14. Whatever the platform answers, [uploadAudioToYoto] sends at
    most 62 requests (slot, upload, 60 polls), every one of them to the
    transcode endpoints, and every wait is 500 ms; it adds no content
    request to the trace. *)
Theorem uploadAudioToYoto_traffic
    (w : World) (audioBuffer : list Byte.byte) (accessToken : string) :
  emits isUploadTraffic 62 (Library.uploadAudioToYoto w audioBuffer accessToken) /\
  forall tr,
    filter isContentTraffic
      (snd (Library.uploadAudioToYoto w audioBuffer accessToken tr))
    = filter isContentTraffic tr.
Proof.
  split; [apply uploadAudioToYoto_emits|].
  intros tr.
  destruct (uploadAudioToYoto_emits w audioBuffer accessToken tr)
    as [added [E [F _]]].
  rewrite E, filter_app.
  assert (Hnone : filter isContentTraffic added = []).
  { clear E. induction F as [|e l He _ IH]; [reflexivity|]. simpl.
    destruct e as [[]| | | | |]; try discriminate; exact IH. }
  rewrite Hnone. apply app_nil_r.
Qed.

(** X15. A slot request that is refused, or answered without an upload
    URL, ends [uploadAudioToYoto] with a failure after that one request:
    no PUT is attempted. *)
Theorem uploadAudioToYoto_no_slot
    (w : World) (audioBuffer : list Byte.byte) (accessToken : string)
    (tr : list Event) (r : Response) :
  net w (length (requests tr)) (GetUploadUrl accessToken) = Resp r ->
  (ok r = false ->
   Library.uploadAudioToYoto w audioBuffer accessToken tr =
     (Returns (Library.mkAudioResult false None
        (Some ("Yoto API: Failed to get upload URL: "
               ++ Z_toString (status r))%string)),
      tr ++ [EvFetch (GetUploadUrl accessToken)])) /\
  (forall u, ok r = true -> bodyJson r = JUpload u ->
             truthy (uploadUrl u) = false ->
   Library.uploadAudioToYoto w audioBuffer accessToken tr =
     (Returns (Library.mkAudioResult false None
        (Some "Yoto API: Upload URL not provided in response"%string)),
      tr ++ [EvFetch (GetUploadUrl accessToken)])).
Proof.
  intros Hnet.
  unfold Library.uploadAudioToYoto, Library.uploadAudioToYoto_try,
    try_catch, bind, fetch.
  rewrite Hnet. split.
  - intros Hok. rewrite Hok. reflexivity.
  - intros u Hok Hb Hu. rewrite Hok. simpl. unfold json. rewrite Hb. simpl.
    rewrite Hu. reflexivity.
Qed.

Lemma uploadAudioToYoto_no_slot_witness :
  Library.uploadAudioToYoto noSlotWorld [] "token" [] =
    (Returns (Library.mkAudioResult false None
       (Some "Yoto API: Upload URL not provided in response"%string)),
     [EvFetch (GetUploadUrl "token")]).
Proof.
  apply (proj2 (uploadAudioToYoto_no_slot noSlotWorld [] "token" []
                  (mkResponse 200 ""
                     (JUpload (mkUploadSlot None (Some "upload-1"%string))))
                  eq_refl)
           (mkUploadSlot None (Some "upload-1"%string)));
    reflexivity.
Defined.

(** X16. When the binary upload is answered with a non-2xx status,
    [uploadAudioToYoto] fails with "Audio upload failed" and the status,
    after the slot request and the PUT: the transcode status is never
    polled. *)
Theorem uploadAudioToYoto_put_refused
    (w : World) (audioBuffer : list Byte.byte) (accessToken url : string)
    (tr : list Event) (r r2 : Response) (u : UploadSlot) :
  net w (length (requests tr)) (GetUploadUrl accessToken) = Resp r ->
  ok r = true ->
  bodyJson r = JUpload u ->
  uploadUrl u = Some url -> url <> ""%string ->
  net w (S (length (requests tr))) (PutAudio url audioBuffer) = Resp r2 ->
  ok r2 = false ->
  Library.uploadAudioToYoto w audioBuffer accessToken tr =
    (Returns (Library.mkAudioResult false None
       (Some ("Yoto API: Audio upload failed: " ++ Z_toString (status r2))%string)),
     tr ++ [EvFetch (GetUploadUrl accessToken);
            EvFetch (PutAudio url audioBuffer)]).
Proof.
  intros Hnet Hok Hb Hu Hne Hput Hok2.
  unfold Library.uploadAudioToYoto, Library.uploadAudioToYoto_try,
    try_catch, bind, fetch.
  rewrite Hnet, Hok. simpl. unfold json. rewrite Hb. simpl.
  rewrite Hu, (truthy_Some url Hne). simpl.
  rewrite requests_snoc, Hput, Hok2. simpl. rewrite <- app_assoc. reflexivity.
Qed.

Lemma uploadAudioToYoto_put_refused_witness :
  Library.uploadAudioToYoto putRefusedWorld [] "token" [] =
    (Returns (Library.mkAudioResult false None
       (Some "Yoto API: Audio upload failed: 403"%string)),
     [EvFetch (GetUploadUrl "token");
      EvFetch (PutAudio "https://upload/slot" [])]).
Proof.
  apply (uploadAudioToYoto_put_refused putRefusedWorld [] "token"
           "https://upload/slot" []
           (mkResponse 200 ""
              (JUpload (mkUploadSlot (Some "https://upload/slot"%string)
                                     (Some "upload-1"%string))))
           (mkResponse 403 "Forbidden" JInvalid)
           (mkUploadSlot (Some "https://upload/slot"%string)
                         (Some "upload-1"%string)));
    try reflexivity; discriminate.
Defined.

(** ** Card writes *)

Lemma cleanTrack_fields (t : Track) :
  trackFields (Library.cleanTrack t) = trackFields t /\
  tr_others (Library.cleanTrack t) = [].
Proof. split; reflexivity. Qed.

Lemma cleanChapter_fields (c : Chapter) :
  chapterFields (Library.cleanChapter c) = chapterFields c.
Proof.
  unfold chapterFields, Library.cleanChapter. simpl. f_equal.
  destruct (ch_tracks c) as [tracks|]; [|reflexivity]. simpl. f_equal.
  rewrite map_map. apply map_ext. intros t. reflexivity.
Qed.

Lemma cleanChapter_noOtherProperties (c : Chapter) :
  noOtherProperties (Library.cleanChapter c) = true.
Proof.
  unfold noOtherProperties, Library.cleanChapter. simpl.
  destruct (ch_tracks c) as [tracks|]; [|reflexivity]. simpl.
  induction tracks as [|t l IH]; [reflexivity|exact IH].
Qed.

Lemma cleanChapter_trackTotals (c : Chapter) :
  trackDurations (Library.cleanChapter c) = trackDurations c /\
  trackFileSizes (Library.cleanChapter c) = trackFileSizes c.
Proof.
  unfold trackDurations, trackFileSizes, Library.cleanChapter. simpl.
  destruct (ch_tracks c) as [tracks|]; [|split; reflexivity]. simpl.
  induction tracks as [|t l [IHd IHs]]; [split; reflexivity|].
  simpl. rewrite IHd, IHs. split; reflexivity.
Qed.

Lemma totalDuration_app (a b : list Chapter) :
  totalDuration (a ++ b) = totalDuration a + totalDuration b.
Proof.
  unfold totalDuration. induction a as [|c a IH]; simpl; [reflexivity|].
  rewrite IH. lia.
Qed.

Lemma totalFileSize_app (a b : list Chapter) :
  totalFileSize (a ++ b) = totalFileSize a + totalFileSize b.
Proof.
  unfold totalFileSize. induction a as [|c a IH]; simpl; [reflexivity|].
  rewrite IH. lia.
Qed.

Lemma totals_clean (chapters : list Chapter) :
  totalDuration (map Library.cleanChapter chapters) = totalDuration chapters /\
  totalFileSize (map Library.cleanChapter chapters) = totalFileSize chapters.
Proof.
  unfold totalDuration, totalFileSize.
  induction chapters as [|c l [IHd IHs]]; [split; reflexivity|].
  simpl. rewrite IHd, IHs.
  destruct (cleanChapter_trackTotals c) as [-> ->]. split; reflexivity.
Qed.

(** The clean-up is not the identity: a property of the platform's own
    on a chapter or a track read does not reach the chapter written. *)
Example cleanChapter_strips_other_properties :
  map Library.cleanChapter (Library.chaptersOf remoteCard) =
    [mkChapter (Some "01"%string) (Some "First Story"%string) (Some "1"%string)
               (Some [storedTrack]) (Some Library.chapterIcon)] /\
  map Library.cleanChapter (Library.chaptersOf remoteCard)
    <> Library.chaptersOf remoteCard.
Proof. split; [reflexivity|discriminate]. Qed.

(** X17. [updateHeroCard] writes the chapters it read back one for one
    and in their order.  Each chapter written keeps the key, the title
    and the overlay label it was read with and, track by track, the
    nine track properties (key, title, track URL, duration, file size,
    channels, format, type, overlay label); its icon is the constant
    one; and it carries no other property, on the chapter or on a
    track, whatever the chapter read carried. *)
Theorem updateHeroCard_keeps_existing_chapters
    (w : World) (existingCard : Card) (chapters : list Chapter)
    (storyMetadata : Library.StoryMetadata) (transcodedAudio : Transcoded)
    (accessToken : string) (tr : list Event) :
  card_chapters existingCard = Some chapters ->
  exists payload,
    snd (Library.updateHeroCard w existingCard storyMetadata transcodedAudio
           accessToken tr) = tr ++ [EvFetch (PostContent accessToken payload)] /\
    length (payload_chapters payload) = S (length chapters) /\
    map chapterFields (firstn (length chapters) (payload_chapters payload))
      = map chapterFields chapters /\
    Forall (fun c => ch_icon16x16 c = Some Library.chapterIcon /\
                     noOtherProperties c = true)
           (firstn (length chapters) (payload_chapters payload)).
Proof.
  intros Hc.
  exists (Library.updatePayload existingCard storyMetadata transcodedAudio).
  split; [apply (updateHeroCard_writes_once w existingCard chapters); exact Hc|].
  rewrite updatePayload_chapters. unfold Library.chaptersOf. rewrite Hc.
  assert (E : firstn (length chapters)
                (map Library.cleanChapter chapters ++
                 [Library.createChapterFromStory storyMetadata transcodedAudio
                    (length chapters + 1)])
              = map Library.cleanChapter chapters).
  { rewrite <- (length_map Library.cleanChapter chapters) at 1.
    rewrite firstn_app, firstn_all, Nat.sub_diag. simpl. apply app_nil_r. }
  rewrite E. split; [|split].
  - rewrite length_app, length_map. simpl. lia.
  - rewrite map_map. apply map_ext. apply cleanChapter_fields.
  - apply Forall_forall. intros c Hin.
    apply in_map_iff in Hin. destruct Hin as [c0 [<- _]].
    split; [reflexivity|apply cleanChapter_noOtherProperties].
Qed.

Lemma updateHeroCard_keeps_existing_chapters_witness :
  exists payload,
    snd (Library.updateHeroCard acceptingWorld remoteCard sampleStory
           sampleTranscode "token" []) = [EvFetch (PostContent "token" payload)] /\
    map chapterFields (firstn 1 (payload_chapters payload))
      = [(Some "01"%string, Some "First Story"%string, Some "1"%string,
          Some [trackFields remoteTrack])] /\
    Forall (fun c => ch_icon16x16 c = Some Library.chapterIcon /\
                     noOtherProperties c = true)
           (firstn 1 (payload_chapters payload)).
Proof.
  destruct (updateHeroCard_keeps_existing_chapters acceptingWorld remoteCard
              (Library.chaptersOf remoteCard)
              sampleStory sampleTranscode "token" [] eq_refl)
    as [payload [Htr [_ [Hfields Hbare]]]].
  exists payload. split; [exact Htr|]. split; [exact Hfields|exact Hbare].
Defined.

(** X18. The update keeps the aggregate consistent: when the stored
    aggregate of the card read equals the sum over its tracks and the
    transcode result carries a duration and a size, the aggregate
    written equals the sum over the tracks of the chapters written. *)
Theorem updateHeroCard_preserves_consistency
    (w : World) (existingCard : Card) (chapters : list Chapter)
    (storyMetadata : Library.StoryMetadata) (transcodedAudio : Transcoded)
    (accessToken : string) (tr : list Event) (d s : Z) :
  card_chapters existingCard = Some chapters ->
  card_duration existingCard = Some (totalDuration chapters) ->
  card_fileSize existingCard = Some (totalFileSize chapters) ->
  Library.info (transcodedInfo transcodedAudio) mi_duration = Some d ->
  Library.info (transcodedInfo transcodedAudio) mi_fileSize = Some s ->
  exists payload,
    snd (Library.updateHeroCard w existingCard storyMetadata transcodedAudio
           accessToken tr) = tr ++ [EvFetch (PostContent accessToken payload)] /\
    payload_duration payload = Some (totalDuration (payload_chapters payload)) /\
    payload_fileSize payload = Some (totalFileSize (payload_chapters payload)).
Proof.
  intros Hc Hd Hs Hnd Hns.
  exists (Library.updatePayload existingCard storyMetadata transcodedAudio).
  split; [apply (updateHeroCard_writes_once w existingCard chapters); exact Hc|].
  destruct (updatePayload_aggregate existingCard storyMetadata transcodedAudio)
    as [Ed Es].
  rewrite Ed, Es, updatePayload_chapters.
  unfold Library.chaptersOf. rewrite Hc, Hd, Hs, Hnd, Hns.
  rewrite totalDuration_app, totalFileSize_app.
  destruct (totals_clean chapters) as [-> ->].
  unfold totalDuration, totalFileSize, trackDurations, trackFileSizes. simpl.
  rewrite Hnd, Hns. simpl. split; f_equal; lia.
Qed.

Lemma updateHeroCard_preserves_consistency_witness :
  exists payload,
    snd (Library.updateHeroCard acceptingWorld consistentCard sampleStory
           sampleTranscode "token" []) = [EvFetch (PostContent "token" payload)] /\
    payload_duration payload = Some (totalDuration (payload_chapters payload)) /\
    payload_fileSize payload = Some (totalFileSize (payload_chapters payload)).
Proof.
  apply (updateHeroCard_preserves_consistency acceptingWorld consistentCard
           [mkChapter (Some "01"%string) (Some "First Story"%string)
                      (Some "1"%string) (Some [storedTrack]) None]
           sampleStory sampleTranscode "token" [] 60 600);
    reflexivity.
Defined.

(** X19. When the card passed in has no chapter bodies, [updateHeroCard]
    asks for the detail first.  If it is served, the write is built from
    the detail card; if it is answered with a non-2xx status, the write
    goes out all the same, under the card's id, with the new chapter as
    the only chapter, keyed 01. *)
Theorem updateHeroCard_refetch
    (w : World) (existingCard : Card)
    (storyMetadata : Library.StoryMetadata) (transcodedAudio : Transcoded)
    (accessToken : string) (tr : list Event) (r : Response) :
  let id := or_str (card_cardId existingCard) (card_id existingCard) in
  card_chapters existingCard = None ->
  net w (length (requests tr)) (GetContent id accessToken) = Resp r ->
  (forall full,
     ok r = true ->
     bodyJson r = JCardNested full \/ bodyJson r = JCardFlat full ->
     snd (Library.updateHeroCard w existingCard storyMetadata transcodedAudio
            accessToken tr) =
       tr ++ [EvFetch (GetContent id accessToken);
              EvFetch (PostContent accessToken
                         (Library.updatePayload full storyMetadata
                            transcodedAudio))]) /\
  (ok r = false ->
   exists payload,
     snd (Library.updateHeroCard w existingCard storyMetadata transcodedAudio
            accessToken tr) =
       tr ++ [EvFetch (GetContent id accessToken);
              EvFetch (PostContent accessToken payload)] /\
     payload_cardId payload = id /\
     map ch_key (payload_chapters payload) = [Some "01"%string]).
Proof.
  intros id Hc Hnet.
  assert (Hwrite : forall (card : Card) (t0 : list Event),
    snd (try_catch
           (bind (fetch w (PostContent accessToken
                             (Library.updatePayload card storyMetadata
                                transcodedAudio)))
                 (fun updateResponse =>
                    if negb (ok updateResponse)
                    then throw (newError ("Failed to update card: "
                                          ++ bodyText updateResponse)%string)
                    else bind (json updateResponse)
                           (fun body =>
                              bind (Library.writeResult body)
                                (fun result =>
                                   ret (Library.mkResult true
                                          (or_str (wr_cardId result) (wr_id result))
                                          None (Some transcodedAudio))))))
           (fun error =>
              ret (Library.mkResult false None
                     (Some (if isError error then err_message error
                            else "Unknown error"%string)) None)) t0)
    = t0 ++ [EvFetch (PostContent accessToken
                        (Library.updatePayload card storyMetadata
                           transcodedAudio))]).
  { intros card t0. unfold try_catch, bind, fetch.
    destruct (net w (length (requests t0)) _) as [e|r0]; [reflexivity|].
    destruct (ok r0); simpl; [|reflexivity].
    unfold json. destruct (bodyJson r0); reflexivity. }
  split.
  - intros full Hok Hshape.
    unfold Library.updateHeroCard, Library.resolveFullCard.
    rewrite Hc. fold id.
    unfold try_catch at 1, bind at 1, bind at 1, fetch at 1.
    rewrite Hnet, Hok. unfold json, bind at 1.
    assert (E : match bodyJson r with
                | JInvalid => throw (mkError SyntaxError
                                       "Unexpected token in JSON"%string [])
                | j => ret j
                end (tr ++ [EvFetch (GetContent id accessToken)])
                = (Returns (bodyJson r),
                   tr ++ [EvFetch (GetContent id accessToken)])).
    { destruct Hshape as [-> | ->]; reflexivity. }
    rewrite E.
    assert (E2 : Library.unwrapCard (bodyJson r)
                   (tr ++ [EvFetch (GetContent id accessToken)])
                 = (Returns full, tr ++ [EvFetch (GetContent id accessToken)])).
    { destruct Hshape as [-> | ->]; reflexivity. }
    rewrite E2.
    pose proof (Hwrite full (tr ++ [EvFetch (GetContent id accessToken)])) as Hw.
    unfold try_catch, bind in Hw |- *.
    rewrite <- app_assoc in Hw. exact Hw.
  - intros Hok.
    exists (Library.updatePayload existingCard storyMetadata transcodedAudio).
    split.
    + unfold Library.updateHeroCard, Library.resolveFullCard.
      rewrite Hc. fold id.
      unfold try_catch at 1, bind at 1, bind at 1, fetch at 1.
      rewrite Hnet, Hok. unfold ret at 1.
      pose proof (Hwrite existingCard
                    (tr ++ [EvFetch (GetContent id accessToken)])) as Hw.
      unfold try_catch, bind in Hw |- *.
      rewrite <- app_assoc in Hw. exact Hw.
    + split; [reflexivity|].
      rewrite updatePayload_chapters. unfold Library.chaptersOf. rewrite Hc.
      reflexivity.
Qed.

Lemma updateHeroCard_refetch_witness :
  exists payload,
    snd (Library.updateHeroCard summaryOnlyWorld heroSummary sampleStory
           sampleTranscode "token" []) =
      [EvFetch (GetContent (Some "card-1"%string) "token");
       EvFetch (PostContent "token" payload)] /\
    payload_cardId payload = Some "card-1"%string /\
    map ch_key (payload_chapters payload) = [Some "01"%string].
Proof.
  apply (proj2 (updateHeroCard_refetch summaryOnlyWorld heroSummary sampleStory
                  sampleTranscode "token" []
                  (mkResponse 503 "Service Unavailable" JInvalid)
                  eq_refl eq_refl)).
  reflexivity.
Defined.

Lemma createHeroCard_trace (w : World)
    (storyMetadata : Library.StoryMetadata) (transcodedAudio : Transcoded)
    (accessToken : string) (tr : list Event) :
  snd (Library.createHeroCard w storyMetadata transcodedAudio accessToken tr)
  = tr ++ [EvFetch (PostContent accessToken
                      (createPayload storyMetadata transcodedAudio))].
Proof.
  unfold Library.createHeroCard, try_catch, bind, fetch.
  destruct (net w (length (requests tr)) _) as [e|r]; [reflexivity|].
  destruct (ok r); simpl; [|reflexivity].
  unfold json. destruct (bodyJson r); reflexivity.
Qed.

(** X20. [createHeroCard] sends exactly one request, a write without a
    card id whose title is the constant "You're The Hero!" whatever
    title the story metadata carries, with one chapter keyed 01 holding
    one track that points at the transcode's content hash. *)
Theorem createHeroCard_document
    (w : World) (storyMetadata : Library.StoryMetadata)
    (transcodedAudio : Transcoded) (accessToken : string) (tr : list Event) :
  exists payload track,
    snd (Library.createHeroCard w storyMetadata transcodedAudio accessToken tr)
      = tr ++ [EvFetch (PostContent accessToken payload)] /\
    payload_cardId payload = None /\
    payload_title payload = "You're The Hero!"%string /\
    map ch_key (payload_chapters payload) = [Some "01"%string] /\
    map ch_tracks (payload_chapters payload) = [Some [track]] /\
    tr_trackUrl track
      = Some ("yoto:#" ++ show_str (transcodedSha256 transcodedAudio))%string.
Proof.
  eexists. eexists. split; [apply createHeroCard_trace|].
  repeat split.
Qed.

(** When the create request is answered with a non-2xx status,
    [createHeroCard] returns the failure result whose error is
    "Failed to create card: " followed by the response body. *)
Lemma createHeroCard_write_rejected
    (w : World) (storyMetadata : Library.StoryMetadata)
    (transcodedAudio : Transcoded) (accessToken : string) (tr : list Event)
    (r : Response) :
  net w (length (requests tr))
      (PostContent accessToken (createPayload storyMetadata transcodedAudio))
    = Resp r ->
  ok r = false ->
  Library.createHeroCard w storyMetadata transcodedAudio accessToken tr
    = (Returns (Library.mkResult false None
                  (Some ("Failed to create card: " ++ bodyText r)%string) None),
       tr ++ [EvFetch (PostContent accessToken
                         (createPayload storyMetadata transcodedAudio))]).
Proof.
  intros Hnet Hok.
  unfold Library.createHeroCard, try_catch, bind, fetch.
  fold (createPayload storyMetadata transcodedAudio).
  rewrite Hnet, Hok. reflexivity.
Qed.

Lemma createHeroCard_write_rejected_witness :
  fst (Library.createHeroCard refusingWorld titledStory sampleTranscode
         "token" [])
  = Returns (Library.mkResult false None
               (Some "Failed to create card: Internal Server Error"%string) None).
Proof.
  rewrite (createHeroCard_write_rejected refusingWorld titledStory
             sampleTranscode "token" []
             (mkResponse 500 "Internal Server Error" JInvalid)
             eq_refl eq_refl).
  reflexivity.
Defined.

Lemma createHeroCard_emits (w : World) (storyMetadata : Library.StoryMetadata)
    (transcodedAudio : Transcoded) (accessToken : string) :
  emits isContentTraffic 1
    (Library.createHeroCard w storyMetadata transcodedAudio accessToken).
Proof.
  intros tr. eexists. split; [apply createHeroCard_trace|].
  split; [repeat constructor|simpl; lia].
Qed.

Lemma updateHeroCard_emits (w : World) (existingCard : Card)
    (storyMetadata : Library.StoryMetadata)
    (transcodedAudio : Transcoded) (accessToken : string) :
  emits isContentTraffic 2
    (Library.updateHeroCard w existingCard storyMetadata transcodedAudio
       accessToken).
Proof.
  unfold Library.updateHeroCard.
  change 2%nat with (2 + 0)%nat.
  apply emits_try_catch; [|intros e; apply emits_ret].
  change 2%nat with (1 + 1)%nat.
  apply emits_bind.
  - unfold Library.resolveFullCard.
    emits_step; [emits_leaf|].
    emits_step. emits_step; [|emits_leaf].
    emits_step. unfold Library.unwrapCard. emits_step; emits_leaf.
  - intros fullCard. emits_step. emits_step; [emits_leaf|].
    emits_step. apply emits_then; [|intros result; emits_leaf].
    unfold Library.writeResult. emits_step; emits_leaf.
Qed.

(** ** Workflow, continued *)

Lemma contentRead_is_traffic (e : Event) :
  isContentRead e = true -> isContentTraffic e = true.
Proof.
  destruct e as [[]| | | | |]; try discriminate; reflexivity.
Qed.

Lemma contentTraffic_is_workflow (dev : bool) (e : Event) :
  isContentTraffic e = true -> isWorkflowEvent dev e = true.
Proof.
  intros H. unfold isWorkflowEvent. rewrite H.
  rewrite orb_true_r. reflexivity.
Qed.

Lemma uploadTraffic_is_workflow (dev : bool) (e : Event) :
  isUploadTraffic e = true -> isWorkflowEvent dev e = true.
Proof.
  intros H. unfold isWorkflowEvent. rewrite H. reflexivity.
Qed.

Section WorkflowTraffic.
Context (w : World) (storyMetadata : Library.StoryMetadata)
        (accessToken : string).

Lemma lookup_then_write_emits (P : Event -> bool) (transcodedAudio : Transcoded) :
  (forall e, isContentTraffic e = true -> P e = true) ->
  emits P 4
    (bind (Library.getHeroCard w accessToken)
       (fun existingCard =>
          match existingCard with
          | Some card =>
              Library.updateHeroCard w card storyMetadata transcodedAudio
                accessToken
          | None =>
              Library.createHeroCard w storyMetadata transcodedAudio accessToken
          end)).
Proof.
  intros HP. change 4%nat with (2 + 2)%nat. apply emits_bind.
  - apply (emits_weaken isContentRead); [|apply getHeroCard_emits].
    intros e He. apply HP, contentRead_is_traffic, He.
  - intros [card|].
    + apply (emits_weaken isContentTraffic); [exact HP|].
      apply updateHeroCard_emits.
    + apply (emits_weaken isContentTraffic); [exact HP|].
      apply (emits_mono _ 1); [lia|]. apply createHeroCard_emits.
Qed.

Lemma getCachedTranscode_emits (cacheKey : string) :
  emits (isWorkflowEvent (isDevelopment w)) 0
    (Library.getCachedTranscode w cacheKey).
Proof.
  unfold Library.getCachedTranscode.
  destruct (isDevelopment w); simpl; [|apply emits_ret].
  apply emits_then; [apply emits_emit; reflexivity|intros _; apply emits_ret].
Qed.

Lemma cacheTranscode_emits (cacheKey : string) (transcodedAudio : Transcoded) :
  emits (isWorkflowEvent (isDevelopment w)) 0
    (Library.cacheTranscode w cacheKey transcodedAudio).
Proof.
  unfold Library.cacheTranscode.
  destruct (isDevelopment w); simpl; [|apply emits_ret].
  apply emits_emit; reflexivity.
Qed.

Lemma uploadStoryToYoto_emits (storyText : string) :
  emits (isWorkflowEvent (isDevelopment w)) 66
    (Library.uploadStoryToYoto w storyText storyMetadata accessToken).
Proof.
  unfold Library.uploadStoryToYoto.
  change 66%nat with (66 + 0)%nat.
  apply emits_try_catch; [|intros e; apply emits_ret].
  unfold Library.uploadStoryToYoto_try. cbv zeta.
  apply emits_then; [apply getCachedTranscode_emits|].
  intros [cached|].
  - apply (emits_mono _ 4); [lia|].
    apply lookup_then_write_emits. apply contentTraffic_is_workflow.
  - apply emits_then; [apply emits_lift|intros _].
    destruct (negb (truthy (getRandomVoiceId w))); [apply emits_ret|].
    apply emits_then; [apply emits_emit; reflexivity|intros _].
    apply emits_then; [apply emits_lift|intros audioResult].
    destruct (tts_success audioResult), (tts_audioBuffer audioResult)
      as [audioBuffer|]; try apply emits_ret.
    change 66%nat with (62 + 4)%nat. apply emits_bind.
    + apply (emits_weaken isUploadTraffic);
        [apply uploadTraffic_is_workflow|apply uploadAudioToYoto_emits].
    + intros uploadResult.
      destruct (negb (Library.au_success uploadResult)); [apply emits_ret|].
      destruct (Library.au_transcodedAudio uploadResult) as [transcodedAudio|];
        [|apply emits_throw].
      apply emits_then; [apply cacheTranscode_emits|intros _].
      apply lookup_then_write_emits. apply contentTraffic_is_workflow.
Qed.

End WorkflowTraffic.

(** X21. One story submission sends at most 66 requests to the
    platform (62 for the transcode upload, 2 content reads, at most 2
    for the update), only to the transcode and content endpoints, and
    calls TTS; outside development it never reads or writes the
    transcode cache. *)
Theorem uploadStoryToYoto_traffic
    (w : World) (storyText : string) (storyMetadata : Library.StoryMetadata)
    (accessToken : string) :
  emits (isWorkflowEvent (isDevelopment w)) 66
    (Library.uploadStoryToYoto w storyText storyMetadata accessToken) /\
  (isDevelopment w = false ->
   forall tr,
     filter isCacheEvent
       (snd (Library.uploadStoryToYoto w storyText storyMetadata accessToken tr))
     = filter isCacheEvent tr).
Proof.
  split; [apply uploadStoryToYoto_emits|].
  intros Hprod tr.
  destruct (uploadStoryToYoto_emits w storyMetadata accessToken storyText tr)
    as [added [E [F _]]].
  rewrite E, filter_app. rewrite Hprod in F.
  assert (Hnone : filter isCacheEvent added = []).
  { clear E. induction F as [|e l He _ IH]; [reflexivity|]. simpl.
    destruct (isCacheEvent e) eqn:Ec; [|exact IH].
    destruct e; discriminate. }
  rewrite Hnone. apply app_nil_r.
Qed.

Lemma uploadStoryToYoto_traffic_witness :
  filter isCacheEvent
    (snd (Library.uploadStoryToYoto acceptingWorld "Once upon a time"
            sampleStory "token" [])) = [].
Proof.
  apply (proj2 (uploadStoryToYoto_traffic acceptingWorld "Once upon a time"
                  sampleStory "token") eq_refl []).
Defined.

Lemma getCachedTranscode_miss (w : World) (storyText : string) (tr : list Event) :
  cacheMiss w storyText ->
  Library.getCachedTranscode w (Library.getStoryHashCacheKey w storyText) tr
    = (Returns None, afterCacheLookup w storyText tr).
Proof.
  unfold cacheMiss, afterCacheLookup, Library.getCachedTranscode.
  intros [Hprod|Hnone].
  - rewrite Hprod. reflexivity.
  - destruct (isDevelopment w); [|reflexivity].
    simpl. unfold bind, emit, ret. rewrite Hnone. reflexivity.
Qed.

Lemma requests_afterCacheLookup (w : World) (storyText : string)
    (tr : list Event) :
  requests (afterCacheLookup w storyText tr) = requests tr.
Proof.
  unfold afterCacheLookup. destruct (isDevelopment w); [|reflexivity].
  rewrite requests_app. simpl. apply app_nil_r.
Qed.

Section WorkflowSteps.
Context (w : World) (storyText : string)
        (storyMetadata : Library.StoryMetadata) (accessToken : string)
        (tr : list Event).
Hypothesis Hmiss : cacheMiss w storyText.
Hypothesis Himport : importTTS w = Returns tt.

(** The workflow after a cache miss and the import of the TTS module. *)
Lemma uploadStoryToYoto_try_after_miss :
  Library.uploadStoryToYoto_try w storyText storyMetadata accessToken tr =
  (let voiceId := getRandomVoiceId w in
   if negb (truthy voiceId) then
     ret (Library.mkResult false None
            (Some "No voices configured for audio generation"%string) None)
   else
     emit (EvTTS storyText (show_str voiceId)) ;;;
     audioResult <- lift (generateAudio w storyText (show_str voiceId)) ;;
     match tts_success audioResult, tts_audioBuffer audioResult with
     | true, Some audioBuffer =>
         uploadResult <- Library.uploadAudioToYoto w audioBuffer accessToken ;;
         if negb (Library.au_success uploadResult) then
           ret (Library.mkResult false None (Library.au_error uploadResult) None)
         else
           match Library.au_transcodedAudio uploadResult with
           | Some transcodedAudio =>
               Library.cacheTranscode w
                 (Library.getStoryHashCacheKey w storyText) transcodedAudio ;;;
               existingCard <- Library.getHeroCard w accessToken ;;
               match existingCard with
               | Some card =>
                   Library.updateHeroCard w card storyMetadata transcodedAudio
                     accessToken
               | None =>
                   Library.createHeroCard w storyMetadata transcodedAudio
                     accessToken
               end
           | None =>
               throw (newTypeError
                 "Cannot read properties of undefined (reading 'transcodedInfo')")
           end
     | _, _ =>
         ret (Library.mkResult false None
                (or_str (tts_error audioResult)
                        (Some "Audio generation failed"%string))
                None)
     end)
    (afterCacheLookup w storyText tr).
Proof.
  unfold Library.uploadStoryToYoto_try. cbv zeta.
  unfold bind at 1. rewrite (getCachedTranscode_miss w storyText tr Hmiss).
  unfold bind at 1, lift at 1. rewrite Himport. reflexivity.
Qed.

End WorkflowSteps.

(** X22. After a cache miss, when no voice is configured the workflow
    fails with "No voices configured for audio generation" without
    calling TTS and without any request. *)
Theorem uploadStoryToYoto_no_voice
    (w : World) (storyText : string) (storyMetadata : Library.StoryMetadata)
    (accessToken : string) (tr : list Event) :
  cacheMiss w storyText ->
  importTTS w = Returns tt ->
  truthy (getRandomVoiceId w) = false ->
  Library.uploadStoryToYoto w storyText storyMetadata accessToken tr =
    (Returns (Library.mkResult false None
                (Some "No voices configured for audio generation"%string) None),
     afterCacheLookup w storyText tr).
Proof.
  intros Hmiss Himport Hvoice.
  unfold Library.uploadStoryToYoto, try_catch.
  rewrite (uploadStoryToYoto_try_after_miss w storyText storyMetadata
             accessToken tr Hmiss Himport).
  cbv zeta. rewrite Hvoice. reflexivity.
Qed.

Lemma uploadStoryToYoto_no_voice_witness :
  Library.uploadStoryToYoto noVoiceWorld "Once upon a time" sampleStory
    "token" [] =
  (Returns (Library.mkResult false None
              (Some "No voices configured for audio generation"%string) None),
   []).
Proof.
  apply (uploadStoryToYoto_no_voice noVoiceWorld "Once upon a time" sampleStory
           "token" []).
  - left. reflexivity.
  - reflexivity.
  - reflexivity.
Defined.

(** X23. After a cache miss, when TTS reports a failure or delivers no
    audio, the workflow fails with the TTS error, or with "Audio
    generation failed" when there is none, and nothing is sent to the
    platform. *)
Theorem uploadStoryToYoto_tts_failure
    (w : World) (storyText : string) (storyMetadata : Library.StoryMetadata)
    (accessToken voiceId : string) (tr : list Event) (audioResult : TTSResult) :
  cacheMiss w storyText ->
  importTTS w = Returns tt ->
  getRandomVoiceId w = Some voiceId -> voiceId <> ""%string ->
  generateAudio w storyText voiceId = Returns audioResult ->
  tts_success audioResult = false \/ tts_audioBuffer audioResult = None ->
  Library.uploadStoryToYoto w storyText storyMetadata accessToken tr =
    (Returns (Library.mkResult false None
                (or_str (tts_error audioResult)
                        (Some "Audio generation failed"%string)) None),
     afterCacheLookup w storyText tr ++ [EvTTS storyText voiceId]) /\
  requests (snd (Library.uploadStoryToYoto w storyText storyMetadata
                   accessToken tr)) = requests tr.
Proof.
  intros Hmiss Himport Hvoice Hne Htts Hfail.
  assert (E : Library.uploadStoryToYoto w storyText storyMetadata accessToken tr =
    (Returns (Library.mkResult false None
                (or_str (tts_error audioResult)
                        (Some "Audio generation failed"%string)) None),
     afterCacheLookup w storyText tr ++ [EvTTS storyText voiceId])).
  { unfold Library.uploadStoryToYoto, try_catch.
    rewrite (uploadStoryToYoto_try_after_miss w storyText storyMetadata
               accessToken tr Hmiss Himport).
    cbv zeta. rewrite Hvoice, (truthy_Some voiceId Hne). cbn [negb show_str].
    cbv beta iota.
    unfold bind at 1, emit at 1. unfold bind at 1, lift at 1. rewrite Htts.
    destruct Hfail as [Hs|Hb].
    - rewrite Hs. reflexivity.
    - rewrite Hb. destruct (tts_success audioResult); reflexivity. }
  split; [exact E|].
  rewrite E. simpl. rewrite requests_app, requests_afterCacheLookup. simpl.
  apply app_nil_r.
Qed.

Lemma uploadStoryToYoto_tts_failure_witness :
  Library.uploadStoryToYoto ttsDownWorld "Once upon a time" sampleStory
    "token" [] =
  (Returns (Library.mkResult false None
     (Some "External service temporarily unavailable. Please try again."%string)
     None),
   [EvTTS "Once upon a time" "voice"]).
Proof.
  apply (proj1 (uploadStoryToYoto_tts_failure ttsDownWorld "Once upon a time"
                  sampleStory "token" "voice" []
                  (mkTTS false None
                     (Some "External service temporarily unavailable. Please try again."%string))
                  (or_introl eq_refl) eq_refl eq_refl
                  ltac:(discriminate) eq_refl (or_introl eq_refl))).
Defined.

(** X24. After a cache miss, when the transcode upload fails the
    workflow stops there: it returns the upload's error unchanged, and
    the card is neither looked up nor written. *)
Theorem uploadStoryToYoto_upload_failure
    (w : World) (storyText : string) (storyMetadata : Library.StoryMetadata)
    (accessToken voiceId : string) (tr tr' : list Event)
    (audioBuffer : list Byte.byte) (uploadResult : Library.AudioUploadResult) :
  cacheMiss w storyText ->
  importTTS w = Returns tt ->
  getRandomVoiceId w = Some voiceId -> voiceId <> ""%string ->
  generateAudio w storyText voiceId
    = Returns (mkTTS true (Some audioBuffer) None) ->
  Library.uploadAudioToYoto w audioBuffer accessToken
      (afterCacheLookup w storyText tr ++ [EvTTS storyText voiceId])
    = (Returns uploadResult, tr') ->
  Library.au_success uploadResult = false ->
  Library.uploadStoryToYoto w storyText storyMetadata accessToken tr =
    (Returns (Library.mkResult false None (Library.au_error uploadResult) None),
     tr').
Proof.
  intros Hmiss Himport Hvoice Hne Htts Hup Hfail.
  unfold Library.uploadStoryToYoto, try_catch.
  rewrite (uploadStoryToYoto_try_after_miss w storyText storyMetadata
             accessToken tr Hmiss Himport).
  cbv zeta. rewrite Hvoice, (truthy_Some voiceId Hne). cbn [negb show_str].
  cbv beta iota.
  unfold bind at 1, emit at 1. unfold bind at 1, lift at 1. rewrite Htts.
  cbn [tts_success tts_audioBuffer]. cbv beta iota.
  unfold bind at 1. rewrite Hup, Hfail. reflexivity.
Qed.

Lemma uploadStoryToYoto_upload_failure_witness :
  Library.uploadStoryToYoto uploadDownWorld "Once upon a time" sampleStory
    "token" [] =
  (Returns (Library.mkResult false None
              (Some "Yoto API: Failed to get upload URL: 500"%string) None),
   [EvTTS "Once upon a time" "voice"; EvFetch (GetUploadUrl "token")]).
Proof.
  apply (uploadStoryToYoto_upload_failure uploadDownWorld "Once upon a time"
           sampleStory "token" "voice" []
           [EvTTS "Once upon a time" "voice"; EvFetch (GetUploadUrl "token")]
           []
           (Library.mkAudioResult false None
              (Some "Yoto API: Failed to get upload URL: 500"%string))).
  - left. reflexivity.
  - reflexivity.
  - reflexivity.
  - discriminate.
  - reflexivity.
  - reflexivity.
  - reflexivity.
Defined.

Section CachedTranscode.
Context (w : World) (storyMetadata : Library.StoryMetadata)
        (transcodedAudio : Transcoded) (accessToken : string).

Lemma createHeroCard_carries_transcode (tr : list Event) :
  exists res tr',
    Library.createHeroCard w storyMetadata transcodedAudio accessToken tr
      = (Returns res, tr') /\
    (Library.success res = true ->
     Library.transcodeInfo res = Some transcodedAudio).
Proof.
  unfold Library.createHeroCard, Library.writeResult. run_monad.
  repeat split_innermost; eexists; eexists; (split; [reflexivity|]);
    simpl; intros; try discriminate; reflexivity.
Qed.

Lemma updateHeroCard_carries_transcode (existingCard : Card) (tr : list Event) :
  exists res tr',
    Library.updateHeroCard w existingCard storyMetadata transcodedAudio
      accessToken tr = (Returns res, tr') /\
    (Library.success res = true ->
     Library.transcodeInfo res = Some transcodedAudio).
Proof.
  unfold Library.updateHeroCard, Library.writeResult.
  unfold try_catch, bind at 1.
  destruct (Library.resolveFullCard w existingCard accessToken tr)
    as [[fullCard|e] tr1].
  - run_monad.
    repeat split_innermost; eexists; eexists; (split; [reflexivity|]);
      simpl; intros; try discriminate; reflexivity.
  - eexists; eexists; (split; [reflexivity|]); simpl; intros; discriminate.
Qed.

Lemma lookup_then_write_carries_transcode (tr : list Event) :
  exists res tr',
    bind (Library.getHeroCard w accessToken)
         (fun existingCard =>
            match existingCard with
            | Some card =>
                Library.updateHeroCard w card storyMetadata transcodedAudio
                  accessToken
            | None =>
                Library.createHeroCard w storyMetadata transcodedAudio accessToken
            end) tr = (Returns res, tr') /\
    (Library.success res = true ->
     Library.transcodeInfo res = Some transcodedAudio).
Proof.
  unfold bind.
  destruct (getHeroCard_returns w accessToken tr) as [existing [tr1 ->]].
  destruct existing as [card|].
  - apply updateHeroCard_carries_transcode.
  - apply createHeroCard_carries_transcode.
Qed.

End CachedTranscode.

(** X25. In development, when the cache holds a transcode result under
    the key of the story text, the workflow goes straight to the card:
    after the cache read it sends content requests only (at most four),
    never calls TTS and never uploads, and a success carries the cached
    transcode result. *)
Theorem uploadStoryToYoto_cache_hit
    (w : World) (storyText : string) (storyMetadata : Library.StoryMetadata)
    (accessToken : string) (tr : list Event) (cached : Transcoded) :
  isDevelopment w = true ->
  cacheFile w (Library.getStoryHashCacheKey w storyText) = Some cached ->
  exists res added,
    Library.uploadStoryToYoto w storyText storyMetadata accessToken tr =
      (Returns res,
       tr ++ EvCacheRead (Library.getStoryHashCacheKey w storyText) :: added) /\
    Forall (fun e => isContentTraffic e = true) added /\
    (length (requests added) <= 4)%nat /\
    (Library.success res = true -> Library.transcodeInfo res = Some cached).
Proof.
  intros Hdev Hhit.
  unfold Library.uploadStoryToYoto, try_catch, Library.uploadStoryToYoto_try.
  cbv zeta. unfold bind at 1, Library.getCachedTranscode.
  rewrite Hdev. cbn [negb]. cbv beta iota.
  unfold bind at 1, emit at 1, ret at 1. rewrite Hhit.
  set (tr1 := tr ++ [EvCacheRead (Library.getStoryHashCacheKey w storyText)]).
  destruct (lookup_then_write_carries_transcode w storyMetadata cached
              accessToken tr1) as [res [tr2 [E Hinfo]]].
  destruct (lookup_then_write_emits w storyMetadata accessToken
              isContentTraffic cached (fun e H => H) tr1)
    as [added [Etr [F L]]].
  rewrite E in Etr |- *. simpl in Etr. subst tr2.
  exists res, added. unfold tr1. rewrite <- app_assoc.
  repeat split; assumption.
Qed.

Lemma uploadStoryToYoto_cache_hit_witness :
  exists res added,
    Library.uploadStoryToYoto cachedWorld "Once upon a time" sampleStory
      "token" [] =
      (Returns res, EvCacheRead "Once upon a time" :: added) /\
    Forall (fun e => isContentTraffic e = true) added /\
    (length (requests added) <= 4)%nat /\
    (Library.success res = true ->
     Library.transcodeInfo res = Some sampleTranscode).
Proof.
  apply (uploadStoryToYoto_cache_hit cachedWorld "Once upon a time" sampleStory
           "token" [] sampleTranscode).
  - reflexivity.
  - reflexivity.
Defined.

(** ** Chapter titles and keys *)

Lemma lower_facts (c : ascii) :
  lower (lower c) = lower c /\ is_space (lower c) = is_space c.
Proof.
  destruct c as [[] [] [] [] [] [] [] []]; split; reflexivity.
Qed.

Lemma upper_facts (c : ascii) :
  is_word_char c = true ->
  upper (upper c) = upper c /\ is_word_char (upper c) = true.
Proof.
  destruct c as [[] [] [] [] [] [] [] []]; intros H;
    try discriminate H; split; reflexivity.
Qed.

Lemma titleCaseFrom_idempotent (s : string) :
  forall inWord,
    Library.titleCaseFrom inWord (Library.titleCaseFrom inWord s)
    = Library.titleCaseFrom inWord s.
Proof.
  induction s as [|c s IH]; intros inWord; [reflexivity|].
  destruct inWord; simpl.
  - destruct (is_space c) eqn:Es; simpl.
    + rewrite Es, IH. reflexivity.
    + destruct (lower_facts c) as [Hl Hs].
      rewrite Hs, Es, Hl, IH. reflexivity.
  - destruct (is_word_char c) eqn:Ew; simpl.
    + destruct (upper_facts c Ew) as [Hu Hw].
      rewrite Hw, Hu, IH. reflexivity.
    + rewrite Ew, IH. reflexivity.
Qed.

Lemma titleCaseFrom_length (s : string) :
  forall inWord,
    String.length (Library.titleCaseFrom inWord s) = String.length s.
Proof.
  induction s as [|c s IH]; intros inWord; [reflexivity|].
  destruct inWord; simpl.
  - destruct (is_space c); simpl; rewrite IH; reflexivity.
  - destruct (is_word_char c); simpl; rewrite IH; reflexivity.
Qed.

(** X26. Title casing is idempotent and keeps the length of the text:
    casing an already cased title, as [createChapterFromStory] does
    with the adventure type inside the default title, changes nothing
    more. *)
Theorem toTitleCase_idempotent (str : string) :
  Library.toTitleCase (Library.toTitleCase str) = Library.toTitleCase str /\
  String.length (Library.toTitleCase str) = String.length str.
Proof.
  unfold Library.toTitleCase. split.
  - apply titleCaseFrom_idempotent.
  - apply titleCaseFrom_length.
Qed.

Lemma parse_Z_toString (z : Z) : parseKey (Z_toString z) = Some z.
Proof.
  unfold parseKey, Z_toString.
  rewrite NilZero.isi.
  - simpl. rewrite DecimalZ.of_to. reflexivity.
  - destruct z; simpl; try discriminate.
    intros H. injection H as H. exact (Unsigned.to_uint_nonnil p H).
  - destruct z; simpl; try discriminate.
    intros H. injection H as H. exact (Unsigned.to_uint_nonnil p H).
Qed.

Lemma parse_single_char (a : ascii) :
  match parseKey (String a "") with
  | Some z => z < 10
  | None => True
  end.
Proof.
  destruct a as [[] [] [] [] [] [] [] []]; vm_compute; auto.
Qed.

(** X27. A chapter key reads back as the chapter number it was made
    from, so different chapter numbers never get the same key, also
    beyond 99 where the key has more than two digits. *)
Theorem chapterKey_round_trip (n m : nat) :
  parseKey (Library.chapterKey n) = Some (Z.of_nat n) /\
  (Library.chapterKey n = Library.chapterKey m -> n = m).
Proof.
  assert (RT : forall k, parseKey (Library.chapterKey k) = Some (Z.of_nat k)).
  { intros k. unfold Library.chapterKey, padStart0, nat_toString.
    pose proof (parse_Z_toString (Z.of_nat k)) as Hp.
    destruct (Z_toString (Z.of_nat k)) as [|a [|b s]] eqn:Es.
    - discriminate Hp.
    - pose proof (parse_single_char a) as Hlt. rewrite Hp in Hlt.
      assert (Hk : (k < 10)%nat) by lia.
      clear Hp Hlt. revert Es.
      do 10 (destruct k as [|k];
             [intros Es; vm_compute in Es; injection Es as <-; reflexivity|]).
      lia.
    - simpl. exact Hp. }
  split; [apply RT|].
  intros H. pose proof (RT n) as Hn. rewrite H, RT in Hn.
  injection Hn as Hn. lia.
Qed.

Lemma chapterKey_round_trip_witness :
  parseKey (Library.chapterKey 100) = Some 100 /\ (100 = 100)%nat.
Proof.
  split.
  - apply (proj1 (chapterKey_round_trip 100 100)).
  - apply (proj2 (chapterKey_round_trip 100 100)). reflexivity.
Defined.

(** ** The callback route *)

Lemma exchangeCodeForTokens_emits
    (w : World) (clientId code codeVerifier redirectUri : string) :
  emits isTokenRequest 2
    (Auth.exchangeCodeForTokens w clientId code codeVerifier redirectUri).
Proof.
  unfold Auth.exchangeCodeForTokens. cbv zeta.
  emits_step.
  change 1%nat with (1 + 0)%nat. apply emits_bind.
  - emits_step; [|apply emits_ret]. apply emits_fetch. reflexivity.
  - intros response. emits_step; [|emits_leaf]. emits_step; emits_leaf.
Qed.



(** X29. The callback route never throws and sends at most two
    requests, both to the token endpoint.  It answers 200 with the
    tokens, or 400 or 500 with an error text and no tokens. *)
Theorem callback_always_answers
    (w : World) (clientId : option string)
    (requestBody : Outcome (option Callback.CallbackBody)) (tr : list Event) :
  emits isTokenRequest 2 (Callback.POST w clientId requestBody) /\
  exists res tr',
    Callback.POST w clientId requestBody tr = (Returns res, tr') /\
    ((Callback.rr_status res = 200 /\ Callback.rr_error res = None /\
      exists tokens, Callback.rr_tokens res = Some tokens) \/
     ((Callback.rr_status res = 400 \/ Callback.rr_status res = 500) /\
      Callback.rr_tokens res = None /\
      exists msg, Callback.rr_error res = Some msg)).
Proof.
  split.
  - unfold Callback.POST.
    change 2%nat with (2 + 0)%nat.
    apply emits_try_catch; [|intros e; apply emits_ret].
    apply emits_then; [apply emits_lift|intros parsed].
    emits_step; [|emits_leaf].
    emits_step; [emits_leaf|]. emits_step; [emits_leaf|].
    cbv zeta. emits_step; [emits_leaf|].
    change 2%nat with (2 + 0)%nat.
    apply emits_bind; [apply exchangeCodeForTokens_emits|].
    intros tokens. apply emits_ret.
  - unfold Callback.POST, try_catch, bind, lift.
    destruct requestBody as [[body|]|e]; cbv beta iota.
    + destruct (truthy (Callback.code body)); cbn [negb]; cbv beta iota.
      2:{ eexists; eexists; split; [reflexivity|]. right. simpl.
          repeat split; [left; reflexivity|eexists; reflexivity]. }
      destruct (truthy (Callback.codeVerifier body)); cbn [negb]; cbv beta iota.
      2:{ eexists; eexists; split; [reflexivity|]. right. simpl.
          repeat split; [left; reflexivity|eexists; reflexivity]. }
      cbv zeta.
      destruct (truthy clientId); cbn [negb]; cbv beta iota.
      2:{ eexists; eexists; split; [reflexivity|]. right. simpl.
          repeat split; [right; reflexivity|eexists; reflexivity]. }
      destruct (Auth.exchangeCodeForTokens w _ _ _ _ tr) as [[tokens|e] tr1].
      * eexists; eexists; split; [reflexivity|]. left. simpl.
        repeat split. eexists; reflexivity.
      * eexists; eexists; split; [reflexivity|]. right. simpl.
        repeat split; [right; reflexivity|eexists; reflexivity].
    + eexists; eexists; split; [reflexivity|]. right. simpl.
      repeat split; [right; reflexivity|eexists; reflexivity].
    + eexists; eexists; split; [reflexivity|]. right. simpl.
      repeat split; [right; reflexivity|eexists; reflexivity].
Qed.

(** X30. When the exchange fails with an error, the callback route
    answers 500 with the error's message as it is: the upstream error
    code and description reach the caller of the route. *)
Theorem callback_forwards_exchange_error
    (w : World) (clientId code codeVerifier : string)
    (redirectUri : option string) (tr tr' : list Event) (e : JSError) :
  clientId <> ""%string -> code <> ""%string -> codeVerifier <> ""%string ->
  Auth.exchangeCodeForTokens w clientId code codeVerifier
    (show_str redirectUri) tr = (Throws e, tr') ->
  isError e = true ->
  Callback.POST w (Some clientId)
    (Returns (Some (Callback.mkBody (Some code) (Some codeVerifier)
                      redirectUri))) tr =
  (Returns (Callback.mkRouteResponse 500 (Some (err_message e)) None), tr').
Proof.
  intros Hi Hc Hv Hex He.
  unfold Callback.POST, try_catch, bind, lift. cbv beta iota zeta.
  cbn [Callback.code Callback.codeVerifier Callback.redirectUri].
  rewrite (truthy_Some _ Hi), (truthy_Some _ Hc), (truthy_Some _ Hv).
  cbn [negb show_str]. cbv beta iota. rewrite Hex. unfold ret.
  rewrite He. reflexivity.
Qed.

Lemma callback_forwards_exchange_error_witness :
  fst (Callback.POST rejectingWorld (Some "client"%string)
         (Returns (Some sampleBody)) []) =
  Returns (Callback.mkRouteResponse 500
             (Some "Token exchange failed: invalid_client - Invalid client"%string)
             None).
Proof.
  unfold sampleBody.
  rewrite (callback_forwards_exchange_error rejectingWorld "client" "code"
             "verifier" (Some "https://app/callback"%string) []
             _ _ ltac:(discriminate) ltac:(discriminate) ltac:(discriminate)
             eq_refl eq_refl).
  reflexivity.
Defined.
